(** * The RAG pipeline of the focalboard AI assistant

    A shallow embedding of [server/api/rag_service.go] (the service behind
    [PrepareRAGResponse]) and of the streaming relay of
    [server/api/ai.go] ([handleAIChatStream]), followed by the properties
    of the specification that are proved about them.  The loop of
    [discoverPropertyCatalog] and the requests that the two handlers of
    [ai.go] send to the endpoint are embedded as well, with properties
    of the code beyond those of the specification.

    Conventions of the embedding.
    - A Go [string] is the sequence of its Unicode code points
      ([gostring], a list of [Z]).  Every string the service handles is
      decoded from JSON or is a literal of the source, hence valid UTF-8,
      and on valid UTF-8 the byte-wise functions of package [strings]
      ([Contains], [HasPrefix], ...) agree with their code-point-wise
      reading.
    - The case tables of package [unicode] are data of the Go distribution;
      they are taken as a parameter ([UnicodeTables]) for the code points
      above ASCII, while ASCII is mapped as [unicode.ToUpper] and
      [unicode.ToLower] do it.
    - Calls that leave the process (the LLM endpoint, the SQLite file) are
      answered by an environment ([Env]) that may depend on everything
      that happened before; the service threads a trace of these calls.
    - The SQLite driver and [encoding/json] are packages outside the
      repository: a scanned column is one of the kinds of [value] that
      [rows.Scan] stores, and [json.Marshal] is embedded by the text that
      it writes for them and by its errors.
    - Logger calls have no effect on any result and are left out. *)

From Stdlib Require Import ZArith Lia List Bool Ascii String.
From Stdlib Require DecimalZ QArith.
From stdpp Require Import base option list gmap sorting.

Local Open Scope Z_scope.

(* ================================================================= *)
(** * Part I: definitions *)
(* ================================================================= *)

(** ** Go strings *)

Abbreviation rune := Z (only parsing).
Abbreviation gostring := (list Z) (only parsing).

(** The bytes of a literal of this file. *)
Fixpoint bytes_of (s : string) : list Z :=
  match s with
  | EmptyString => []
  | String c r => Z.of_nat (nat_of_ascii c) :: bytes_of r
  end.

(** [[]rune(s)] for a literal: UTF-8 decoding, one code point per
    encoded sequence (one to four bytes). *)
Fixpoint utf8_decode (bs : list Z) : gostring :=
  match bs with
  | [] => []
  | b0 :: r0 =>
    if b0 <? 128 then b0 :: utf8_decode r0
    else
      match r0 with
      | [] => [65533]
      | b1 :: r1 =>
        if b0 <? 224 then ((b0 - 192) * 64 + (b1 - 128)) :: utf8_decode r1
        else
          match r1 with
          | [] => [65533]
          | b2 :: r2 =>
            if b0 <? 240
            then ((b0 - 224) * 4096 + (b1 - 128) * 64 + (b2 - 128))
                   :: utf8_decode r2
            else
              match r2 with
              | [] => [65533]
              | b3 :: r3 =>
                ((b0 - 240) * 262144 + (b1 - 128) * 4096
                 + (b2 - 128) * 64 + (b3 - 128)) :: utf8_decode r3
              end
          end
      end
  end.

Definition runes (s : string) : gostring := utf8_decode (bytes_of s).
Arguments runes s%_string : simpl never.

(** [unicode.To(UpperCase, r)] and [unicode.To(LowerCase, r)] for
    [r > unicode.MaxASCII]: the [CaseRanges] table. *)
Record UnicodeTables : Type := {
  upperTable : rune -> rune;
  lowerTable : rune -> rune
}.

(** [unicode.IsSpace]: the Latin-1 cases of the function, then the
    [White_Space] table. *)
Definition unicode_IsSpace (r : rune) : bool :=
  ((9 <=? r) && (r <=? 13)) || (r =? 32) || (r =? 133) || (r =? 160)
  || (r =? 5760) || ((8192 <=? r) && (r <=? 8202))
  || (r =? 8232) || (r =? 8233) || (r =? 8239) || (r =? 8287)
  || (r =? 12288).

Section Strings.
Context (U : UnicodeTables).

(** [unicode.ToUpper]. *)
Definition unicode_ToUpper (r : rune) : rune :=
  if r <=? 127
  then (if (97 <=? r) && (r <=? 122) then r - 32 else r)
  else upperTable U r.

(** [unicode.ToLower]. *)
Definition unicode_ToLower (r : rune) : rune :=
  if r <=? 127
  then (if (65 <=? r) && (r <=? 90) then r + 32 else r)
  else lowerTable U r.

Definition strings_ToUpper (s : gostring) : gostring :=
  List.map unicode_ToUpper s.

Definition strings_ToLower (s : gostring) : gostring :=
  List.map unicode_ToLower s.

End Strings.

Fixpoint strings_HasPrefix (s prefix : gostring) {struct prefix} : bool :=
  match prefix, s with
  | [], _ => true
  | _ :: _, [] => false
  | p :: prefix', c :: s' => (c =? p) && strings_HasPrefix s' prefix'
  end.

Fixpoint strings_Contains (s substr : gostring) : bool :=
  strings_HasPrefix s substr
  || match s with
     | [] => false
     | _ :: s' => strings_Contains s' substr
     end.

Fixpoint trimLeft (f : rune -> bool) (s : gostring) : gostring :=
  match s with
  | [] => []
  | c :: s' => if f c then trimLeft f s' else s
  end.

Definition trimRight (f : rune -> bool) (s : gostring) : gostring :=
  List.rev (trimLeft f (List.rev s)).

Definition strings_TrimSpace (s : gostring) : gostring :=
  trimRight unicode_IsSpace (trimLeft unicode_IsSpace s).

(** [strings.TrimRight(s, cutset)]. *)
Definition strings_TrimRight (s cutset : gostring) : gostring :=
  trimRight (fun c => existsb (Z.eqb c) cutset) s.

Definition strings_TrimPrefix (s prefix : gostring) : gostring :=
  if strings_HasPrefix s prefix then List.skipn (List.length prefix) s else s.

Fixpoint strings_Join (elems : list gostring) (sep : gostring) : gostring :=
  match elems with
  | [] => []
  | [e] => e
  | e :: rest => e ++ sep ++ strings_Join rest sep
  end.

(** [strings.Split(s, sep)] for a separator of one code point. *)
Fixpoint splitOn (sep : rune) (s : gostring) : list gostring :=
  match s with
  | [] => [[]]
  | c :: s' =>
    if c =? sep then [] :: splitOn sep s'
    else match splitOn sep s' with
         | [] => [[c]]
         | l :: ls => (c :: l) :: ls
         end
  end.

Definition gostring_eqb (a b : gostring) : bool :=
  bool_decide (a = b).

(** ** Package regexp, as far as the service uses it *)

(** The class [\w] of RE2: ASCII letters, digits and the underscore. *)
Definition isWordChar (r : rune) : bool :=
  ((48 <=? r) && (r <=? 57)) || ((65 <=? r) && (r <=? 90))
  || ((97 <=? r) && (r <=? 122)) || (r =? 95).

Definition isWordAt (o : option rune) : bool :=
  match o with
  | Some r => isWordChar r
  | None => false
  end.

(** [\b]: exactly one of the two neighbours is a word character; the
    start and the end of the text count as a non-word neighbour. *)
Definition wordBoundary (before after : option rune) : bool :=
  xorb (isWordAt before) (isWordAt after).

(** Does [\b kw \b] match at the head of [s], [prev] being the code
    point before it? *)
Definition matchHere (prev : option rune) (s kw : gostring) : bool :=
  wordBoundary prev (List.head s)
  && strings_HasPrefix s kw
  && wordBoundary (match last kw with
                   | Some c => Some c
                   | None => prev
                   end)
                  (List.head (List.skipn (List.length kw) s)).

(** The scan of [regexp.MatchString] for the pattern [\b kw \b]: some
    position of the text matches. *)
Fixpoint matchFrom (prev : option rune) (s kw : gostring) : bool :=
  matchHere prev s kw
  || match s with
     | [] => false
     | c :: s' => matchFrom (Some c) s' kw
     end.

(** [regexp.Compile(`\b` + kw + `\b`)] followed by [re.MatchString(s)],
    for a keyword that is free of regular-expression operators (the six
    keywords of the validator are; their pattern always compiles). *)
Definition regexp_wordMatch (kw s : gostring) : bool :=
  matchFrom None s kw.

(** ** Errors *)

Inductive error : Type :=
| ErrIntentIsChat
| ErrUnknownIntent
| ErrUnsupportedDBType
| ErrAPIKeyNotSet
| ErrQwenAPI (status : Z) (body : gostring)
| ErrQwenEmptyChoice
| ErrGeneratedSQLEmpty
| ErrGeneratedSQLNotSelect (sqlText : gostring)
| ErrGeneratedSQLForbidden (kw : gostring)
| ErrGeneratedSQLChars (kw : gostring)
| ErrForeign (msg : gostring).

(** A Go result pair [(value, error)] of which one side is set. *)
Inductive result (A : Type) : Type :=
| Ok (a : A)
| Err (e : error).
Arguments Ok {A} a.
Arguments Err {A} e.

(** ** The SQL safety validator *)

Definition forbiddenKeywords : list gostring :=
  [runes "DELETE"; runes "UPDATE"; runes "DROP"; runes "INSERT";
   runes "TRUNCATE"; runes "ALTER"].

Definition forbiddenChars : list gostring :=
  [runes ";"; runes "--"; runes "/*"].

Section Validator.
Context (U : UnicodeTables).

(** [validateReadOnlySQL]; [None] is Go's [nil] error. *)
Definition validateReadOnlySQL (sqlText : gostring) : option error :=
  match sqlText with
  | [] => Some ErrGeneratedSQLEmpty
  | _ =>
    let up := strings_ToUpper U (strings_TrimSpace sqlText) in
    if negb (strings_HasPrefix up (runes "SELECT"))
    then Some (ErrGeneratedSQLNotSelect sqlText)
    else
      match List.find (fun kw => regexp_wordMatch kw up) forbiddenKeywords with
      | Some kw => Some (ErrGeneratedSQLForbidden kw)
      | None =>
        match List.find (fun kw => strings_Contains up kw) forbiddenChars with
        | Some kw => Some (ErrGeneratedSQLChars kw)
        | None => None
        end
      end
  end.

End Validator.

(** ** The property catalog and the clause builders *)

(** [propCatalog].  [StatusPropOptions] is a Go map that the builders
    only range over, and the order of a Go range over a map is not
    fixed: the field lists the entries in the order in which the range
    statement of the current call visits them.  The inner maps are only
    looked up. *)
Record propCatalog : Type := {
  PersonPropIDs : list gostring;
  MultiPersonPropIDs : list gostring;
  StatusPropOptions : list (gostring * gmap gostring gostring);
  DatePropIDs : list gostring
}.

(** A [*propCatalog]; [None] is the nil pointer. *)
Definition buildAssigneeClause (userID : gostring) (cat : option propCatalog)
  : gostring :=
  match cat with
  | None => []
  | Some c =>
    match PersonPropIDs c, MultiPersonPropIDs c with
    | [], [] => []
    | _, _ =>
      let parts :=
        List.map (fun pid =>
                    runes "json_extract(fields, '$.properties." ++ pid
                    ++ runes "') = '" ++ userID ++ runes "'")
                 (PersonPropIDs c)
        ++ List.map (fun pid =>
                    runes "EXISTS (SELECT 1 FROM json_each(json_extract(fields, '$.properties."
                    ++ pid ++ runes "')) WHERE value = '" ++ userID
                    ++ runes "')")
                 (MultiPersonPropIDs c) in
      runes " AND (" ++ strings_Join parts (runes " OR ") ++ runes ")"
    end
  end.

Section Builders.
Context (U : UnicodeTables).

(** The inner loop of the status builders: the quoted option ids of
    the synonyms that the option map knows, in the order of [syn]. *)
Definition synonymIDs (syn : list gostring) (opts : gmap gostring gostring)
  : list gostring :=
  List.flat_map
    (fun v => match opts !! strings_ToUpper U v with
              | Some oid => [runes "'" ++ oid ++ runes "'"]
              | None => []
              end) syn.

Definition doneSyn : list gostring :=
  [runes "已完成"; runes "完成"; runes "DONE"].

Definition progSyn : list gostring :=
  [runes "进行中"; runes "处理中"; runes "IN PROGRESS"].

Definition buildStatusOpenClause (cat : option propCatalog) : gostring :=
  match cat with
  | None => []
  | Some c =>
    match StatusPropOptions c with
    | [] => []
    | entries =>
      let parts :=
        List.map (fun '(sid, opts) =>
          match synonymIDs doneSyn opts with
          | [] => runes "(json_extract(fields, '$.properties." ++ sid
                  ++ runes "') IS NULL)"
          | doneIDs =>
                  runes "(json_extract(fields, '$.properties." ++ sid
                  ++ runes "') NOT IN ("
                  ++ strings_Join doneIDs (runes ",")
                  ++ runes ") OR json_extract(fields, '$.properties."
                  ++ sid ++ runes "') IS NULL)"
          end) entries in
      runes " AND (" ++ strings_Join parts (runes " OR ") ++ runes ")"
    end
  end.

(** The loop shared by [buildStatusDoneClause] and
    [buildStatusProgressClause], which differ in the synonyms only. *)
Definition statusInParts (syn : list gostring)
  (entries : list (gostring * gmap gostring gostring)) : list gostring :=
  List.flat_map (fun '(sid, opts) =>
    match synonymIDs syn opts with
    | [] => []
    | ids => [runes "json_extract(fields, '$.properties." ++ sid
              ++ runes "') IN (" ++ strings_Join ids (runes ",")
              ++ runes ")"]
    end) entries.

Definition statusInClause (syn : list gostring) (cat : option propCatalog)
  : gostring :=
  match cat with
  | None => []
  | Some c =>
    match StatusPropOptions c with
    | [] => []
    | entries =>
      match statusInParts syn entries with
      | [] => []
      | parts => runes " AND (" ++ strings_Join parts (runes " OR ")
                 ++ runes ")"
      end
    end
  end.

Definition buildStatusDoneClause (cat : option propCatalog) : gostring :=
  statusInClause doneSyn cat.

Definition buildStatusProgressClause (cat : option propCatalog) : gostring :=
  statusInClause progSyn cat.

Definition buildOverdueClause (cat : option propCatalog) : gostring :=
  let parts :=
    match cat with
    | None => []
    | Some c =>
      List.map (fun did =>
        runes "(json_extract(json_extract(fields, '$.properties." ++ did
        ++ runes "'), '$.from') IS NOT NULL AND json_extract(json_extract(fields, '$.properties."
        ++ did
        ++ runes "'), '$.from') < (strftime('%s','now')*1000))")
        (DatePropIDs c)
    end in
  let clause :=
    match parts with
    | [] => []
    | _ => runes " AND (" ++ strings_Join parts (runes " OR ") ++ runes ")"
    end in
  clause ++ buildStatusOpenClause cat.

End Builders.

(** ** Rows and their serialization *)

(** The [float64] that [rows.Scan] stores for a REAL column, as
    [strconv.FormatFloat(f, _, -1, 64)] decomposes it: not a number, an
    infinity, or a finite number by its sign, its shortest decimal
    digits [d1 ... dn] (none for zero) and the position [dp] of the
    decimal point, the magnitude being [0.d1...dn * 10^dp]. *)
Inductive real : Type :=
| FloatNaN
| FloatInf (negative : bool)
| FloatNum (negative : bool) (digits : list Z) (dp : Z).

Global Instance real_eq_dec : EqDecision real.
Proof. solve_decision. Defined.

(** A [time.Time] by its calendar date, its clock and the offset of its
    zone in seconds east of UTC. *)
Record Time : Type := {
  Time_Year : Z;
  Time_Month : Z;
  Time_Day : Z;
  Time_Hour : Z;
  Time_Minute : Z;
  Time_Second : Z;
  Time_Nanosecond : Z;
  Time_ZoneOffset : Z
}.

Global Instance Time_eq_dec : EqDecision Time.
Proof. solve_decision. Defined.

(** What [rows.Scan] stores into an [interface{}]: [nil] for NULL, an
    [int64] for INTEGER, a [float64] for REAL, a [string] for TEXT, a
    [[]byte] for BLOB, and for the columns declared BOOLEAN and DATE,
    DATETIME or TIMESTAMP a [bool] and a [time.Time]. *)
Inductive value : Type :=
| VNull
| VInt (i : Z)
| VText (s : gostring)
| VFloat (f : real)
| VBytes (bs : list Z)
| VBool (b : bool)
| VTime (t : Time).

Global Instance value_eq_dec : EqDecision value.
Proof. solve_decision. Defined.

(** [strconv.AppendInt(_, i, 10)]. *)
Fixpoint digitsOf (d : Decimal.uint) : gostring :=
  match d with
  | Decimal.Nil => []
  | Decimal.D0 d => 48 :: digitsOf d
  | Decimal.D1 d => 49 :: digitsOf d
  | Decimal.D2 d => 50 :: digitsOf d
  | Decimal.D3 d => 51 :: digitsOf d
  | Decimal.D4 d => 52 :: digitsOf d
  | Decimal.D5 d => 53 :: digitsOf d
  | Decimal.D6 d => 54 :: digitsOf d
  | Decimal.D7 d => 55 :: digitsOf d
  | Decimal.D8 d => 56 :: digitsOf d
  | Decimal.D9 d => 57 :: digitsOf d
  end.

Definition strconv_AppendInt (i : Z) : gostring :=
  match Z.to_int i with
  | Decimal.Pos d => digitsOf d
  | Decimal.Neg d => 45 :: digitsOf d
  end.

Definition hexDigit (n : Z) : rune :=
  if n <? 10 then 48 + n else 87 + n.

(** One code point of a string under [json.Marshal] (HTML escaping on):
    quote and backslash are escaped with a backslash, the control
    characters with their short form or as [\u00XX], and so are [<],
    [>], [&]; U+2028 and U+2029 are written as the six
    characters of their [\u] escape. *)
Definition jsonEscape (r : rune) : gostring :=
  if (r =? 34) || (r =? 92) then [92; r]
  else if r =? 8 then [92; 98]
  else if r =? 12 then [92; 102]
  else if r =? 10 then [92; 110]
  else if r =? 13 then [92; 114]
  else if r =? 9 then [92; 116]
  else if (r <? 32) || (r =? 60) || (r =? 62) || (r =? 38)
       then [92; 117; 48; 48; hexDigit (r / 16); hexDigit (r mod 16)]
  else if r =? 8232 then runes "\u2028"
  else if r =? 8233 then runes "\u2029"
  else [r].

Definition jsonString (s : gostring) : gostring :=
  34 :: List.flat_map jsonEscape s ++ [34].

(** The [%f] and [%e] layouts of [strconv.AppendFloat(_, f, _, -1, 64)]
    on the shortest digits. *)
Definition fmtF (neg : bool) (digits : list Z) (dp : Z) : gostring :=
  let nd := Z.of_nat (List.length digits) in
  let ds := List.map (fun d => 48 + d) digits in
  (if neg then [45] else [])
  ++ (if 0 <? dp
      then List.firstn (Z.to_nat dp) ds ++ List.repeat 48 (Z.to_nat (dp - nd))
      else [48])
  ++ (if 0 <? nd - dp
      then 46 :: List.repeat 48 (Z.to_nat (- dp))
              ++ List.skipn (Z.to_nat dp) ds
      else []).

Definition fmtE (neg : bool) (digits : list Z) (dp : Z) : gostring :=
  let nd := Z.of_nat (List.length digits) in
  let ds := List.map (fun d => 48 + d) digits in
  let exp := if nd =? 0 then 0 else dp - 1 in
  let e := Z.abs exp in
  (if neg then [45] else [])
  ++ List.hd 48 ds
  :: (if 0 <? nd - 1 then 46 :: List.tl ds else [])
  ++ 101 :: (if exp <? 0 then 45 else 43)
  :: (if e <? 10 then [48; 48 + e]
      else if e <? 100 then [48 + e / 10; 48 + e mod 10]
      else [48 + e / 100; 48 + (e / 10) mod 10; 48 + e mod 10]).

(** The clean-up of [e-09] to [e-9] in the float encoder of
    [encoding/json]. *)
Definition cleanExponent (b : gostring) : gostring :=
  match List.rev b with
  | last :: 48 :: sign :: 101 :: front =>
    if (sign =? 45) || (sign =? 43)
    then List.rev front ++ [101; sign; last]
    else b
  | _ => b
  end.

(** The float encoder of [encoding/json]: an [UnsupportedValueError] for
    what is not finite, the [%e] layout for a magnitude other than zero
    that is below [1e-6] or not below [1e21] (which is [dp <= -6] or
    [22 <= dp], the magnitude lying in [[10^(dp-1), 10^dp)]), the [%f]
    layout otherwise. *)
Definition jsonFloat (f : real) : result gostring :=
  match f with
  | FloatNaN => Err (ErrForeign (runes "json: unsupported value: NaN"))
  | FloatInf negative =>
    Err (ErrForeign (runes "json: unsupported value: "
                     ++ (if negative then runes "-Inf" else runes "+Inf")))
  | FloatNum neg digits dp =>
    match digits with
    | [] => Ok (fmtF neg digits dp)
    | _ :: _ =>
      if (dp <=? -6) || (22 <=? dp)
      then Ok (cleanExponent (fmtE neg digits dp))
      else Ok (fmtF neg digits dp)
    end
  end.

(** [base64.StdEncoding], the encoding of a [[]byte] under
    [json.Marshal]. *)
Definition base64Char (n : Z) : rune :=
  if n <? 26 then 65 + n
  else if n <? 52 then 71 + n
  else if n <? 62 then n - 4
  else if n =? 62 then 43
  else 47.

Fixpoint base64 (bs : list Z) : gostring :=
  match bs with
  | [] => []
  | [a] => [base64Char (a / 4); base64Char (a mod 4 * 16); 61; 61]
  | [a; b] =>
    [base64Char (a / 4); base64Char (a mod 4 * 16 + b / 16);
     base64Char (b mod 16 * 4); 61]
  | a :: b :: c :: rest =>
    base64Char (a / 4) :: base64Char (a mod 4 * 16 + b / 16)
    :: base64Char (b mod 16 * 4 + c / 64) :: base64Char (c mod 64)
    :: base64 rest
  end.

(** [appendInt] of package [time]: a sign, zeros up to [width], the
    digits. *)
Definition time_appendInt (x : Z) (width : nat) : gostring :=
  let ds := strconv_AppendInt (Z.abs x) in
  (if x <? 0 then [45] else [])
  ++ List.repeat 48 (width - List.length ds) ++ ds.

(** [Time.appendFormatRFC3339(_, true)]: the layout
    [2006-01-02T15:04:05.999999999Z07:00]. *)
Definition appendFormatRFC3339 (t : Time) : gostring :=
  time_appendInt (Time_Year t) 4
  ++ 45 :: time_appendInt (Time_Month t) 2
  ++ 45 :: time_appendInt (Time_Day t) 2
  ++ 84 :: time_appendInt (Time_Hour t) 2
  ++ 58 :: time_appendInt (Time_Minute t) 2
  ++ 58 :: time_appendInt (Time_Second t) 2
  ++ (if Time_Nanosecond t =? 0 then []
      else 46 :: trimRight (fun c => c =? 48)
                   (time_appendInt (Time_Nanosecond t) 9))
  ++ (if Time_ZoneOffset t =? 0 then [90]
      else
        let zone := Z.quot (Time_ZoneOffset t) 60 in
        (if zone <? 0 then 45 else 43)
        :: time_appendInt (Z.abs zone / 60) 2
        ++ 58 :: time_appendInt (Z.abs zone mod 60) 2).

(** [Time.MarshalJSON] under [json.Marshal]: the quoted text, unless the
    year is not written with four digits or the hour of the zone is
    above 23. *)
Definition jsonTime (t : Time) : result gostring :=
  let b := appendFormatRFC3339 t in
  if negb (List.nth 4 b 0 =? 45) then
    Err (ErrForeign (runes "json: error calling MarshalJSON for type time.Time: Time.MarshalJSON: year outside of range [0,9999]"))
  else
    match List.rev b with
    | m2 :: m1 :: _ :: h2 :: h1 :: c :: _ =>
      if negb (m2 =? 90)
         && (((48 <=? c) && (c <=? 57))
             || (24 <=? 10 * (h1 - 48) + (h2 - 48)))
      then Err (ErrForeign (runes "json: error calling MarshalJSON for type time.Time: Time.MarshalJSON: timezone hour outside of range [0,23]"))
      else Ok (34 :: b ++ [34])
    | _ => Ok (34 :: b ++ [34])
    end.

(** The encoding of one value. *)
Definition jsonValue (v : value) : result gostring :=
  match v with
  | VNull => Ok (runes "null")
  | VInt i => Ok (strconv_AppendInt i)
  | VText s => Ok (jsonString s)
  | VFloat f => jsonFloat f
  | VBytes bs => Ok (34 :: base64 bs ++ [34])
  | VBool b => Ok (if b then runes "true" else runes "false")
  | VTime t => jsonTime t
  end.

(** [strings.Compare(a, b) <= 0]: the order in which [json.Marshal]
    writes the keys of a map. *)
Fixpoint gostring_leb (a b : gostring) : bool :=
  match a, b with
  | [], _ => true
  | _ :: _, [] => false
  | x :: a', y :: b' => (x <? y) || ((x =? y) && gostring_leb a' b')
  end.

Definition key_le (a b : gostring * value) : Prop :=
  gostring_leb (fst a) (fst b) = true.

Global Instance key_le_dec : RelDecision key_le.
Proof. intros a b. unfold key_le. apply _. Defined.

(** The encodings of the elements of a list in their order, up to the
    first that fails. *)
Fixpoint encodeAll {A : Type} (enc : A -> result gostring) (l : list A)
  : result (list gostring) :=
  match l with
  | [] => Ok []
  | x :: l' =>
    match enc x with
    | Err e => Err e
    | Ok s =>
      match encodeAll enc l' with
      | Err e => Err e
      | Ok ss => Ok (s :: ss)
      end
    end
  end.

Definition jsonMember (kv : gostring * value) : result gostring :=
  match jsonValue (snd kv) with
  | Err e => Err e
  | Ok s => Ok (jsonString (fst kv) ++ 58 :: s)
  end.

(** [json.Marshal] of a [map[string]interface{}]: the members by their
    sorted keys. *)
Definition jsonObject (m : gmap gostring value) : result gostring :=
  match encodeAll jsonMember (merge_sort key_le (map_to_list m)) with
  | Err e => Err e
  | Ok members => Ok (123 :: strings_Join members [44] ++ [125])
  end.

(** [json.Marshal] of a non-nil [[]map[string]interface{}]. *)
Definition json_Marshal (rows : list (gmap gostring value))
  : result gostring :=
  match encodeAll jsonObject rows with
  | Err e => Err e
  | Ok objects => Ok (91 :: strings_Join objects [44] ++ [93])
  end.

(** The body of the row loop of [executeQuery]: [rowMap[col] = values[i]]
    for every column, [values] holding what [Scan] stored (and nil where
    it stored nothing). *)
Fixpoint fillRow (cols : list gostring) (values : list value)
  (rowMap : gmap gostring value) : gmap gostring value :=
  match cols with
  | [] => rowMap
  | col :: cols' =>
    fillRow cols' (List.tl values) (<[col := List.hd VNull values]> rowMap)
  end.

Definition materialize (cols : list gostring) (rows : list (list value))
  : list (gmap gostring value) :=
  List.map (fun values => fillRow cols values ∅) rows.

(** ** A reader of the serialized rows *)

(** The white space of JSON. *)
Definition isJsonSpace (r : rune) : bool :=
  (r =? 32) || (r =? 9) || (r =? 10) || (r =? 13).

Definition skipSpace (s : gostring) : gostring := trimLeft isJsonSpace s.

Definition hexValue (c : rune) : option Z :=
  if (48 <=? c) && (c <=? 57) then Some (c - 48)
  else if (97 <=? c) && (c <=? 102) then Some (c - 87)
  else if (65 <=? c) && (c <=? 70) then Some (c - 55)
  else None.

(** The code unit of a [\uXXXX] escape. *)
Definition hex4 (a b c d : rune) : option rune :=
  match hexValue a, hexValue b, hexValue c, hexValue d with
  | Some x, Some y, Some z, Some w => Some (((x * 16 + y) * 16 + z) * 16 + w)
  | _, _, _, _ => None
  end.

(** The character a two-character escape stands for. *)
Definition unescape (e : rune) : option rune :=
  if e =? 34 then Some 34
  else if e =? 92 then Some 92
  else if e =? 47 then Some 47
  else if e =? 98 then Some 8
  else if e =? 102 then Some 12
  else if e =? 110 then Some 10
  else if e =? 114 then Some 13
  else if e =? 116 then Some 9
  else None.

(** A JSON string from behind its opening quote: the text up to the
    closing quote, escapes resolved, and what follows the quote.  A
    control character that is not escaped is refused. *)
Fixpoint readString (s : gostring) : option (gostring * gostring) :=
  match s with
  | [] => None
  | c :: s1 =>
    if c =? 34 then Some ([], s1)
    else if c =? 92 then
      match s1 with
      | [] => None
      | e :: s2 =>
        if e =? 117 then
          match s2 with
          | h1 :: h2 :: h3 :: h4 :: s3 =>
            match hex4 h1 h2 h3 h4, readString s3 with
            | Some r, Some (str, rest) => Some (r :: str, rest)
            | _, _ => None
            end
          | _ => None
          end
        else
          match unescape e, readString s2 with
          | Some r, Some (str, rest) => Some (r :: str, rest)
          | _, _ => None
          end
      end
    else if c <? 32 then None
    else
      match readString s1 with
      | Some (str, rest) => Some (c :: str, rest)
      | None => None
      end
  end.

Definition digitOf (c : rune) : option (Decimal.uint -> Decimal.uint) :=
  if c =? 48 then Some Decimal.D0
  else if c =? 49 then Some Decimal.D1
  else if c =? 50 then Some Decimal.D2
  else if c =? 51 then Some Decimal.D3
  else if c =? 52 then Some Decimal.D4
  else if c =? 53 then Some Decimal.D5
  else if c =? 54 then Some Decimal.D6
  else if c =? 55 then Some Decimal.D7
  else if c =? 56 then Some Decimal.D8
  else if c =? 57 then Some Decimal.D9
  else None.

(** The longest run of digits at the head of [s], and the rest. *)
Fixpoint readDigits (s : gostring) : Decimal.uint * gostring :=
  match s with
  | [] => (Decimal.Nil, [])
  | c :: s1 =>
    match digitOf c with
    | Some digit => let (d, rest) := readDigits s1 in (digit d, rest)
    | None => (Decimal.Nil, s)
    end
  end.

Definition readInt (s : gostring) : option (Z * gostring) :=
  match s with
  | [] => None
  | c :: s1 =>
    let negative := c =? 45 in
    match readDigits (if negative then s1 else s) with
    | (Decimal.Nil, _) => None
    | (d, rest) => Some (if negative then - Z.of_uint d else Z.of_uint d, rest)
    end
  end.

(** A scalar: a string, [null], or an integer, told apart by the first
    character. *)
Definition readValue (s : gostring) : option (value * gostring) :=
  match s with
  | [] => None
  | c :: s1 =>
    if c =? 34 then
      match readString s1 with
      | Some (str, rest) => Some (VText str, rest)
      | None => None
      end
    else if strings_HasPrefix s (runes "null") then
      Some (VNull, List.skipn 4 s)
    else
      match readInt s with
      | Some (i, rest) => Some (VInt i, rest)
      | None => None
      end
  end.

(** The members of an object from behind its opening brace or a comma,
    up to the closing brace; [fuel] bounds the number of members. *)
Fixpoint readMembers (fuel : nat) (s : gostring)
  : option (list (gostring * value) * gostring) :=
  match fuel with
  | O => None
  | S fuel' =>
    match skipSpace s with
    | 34 :: s1 =>
      match readString s1 with
      | Some (key, s2) =>
        match skipSpace s2 with
        | 58 :: s3 =>
          match readValue (skipSpace s3) with
          | Some (v, s4) =>
            match skipSpace s4 with
            | 44 :: s5 =>
              match readMembers fuel' s5 with
              | Some (members, rest) => Some ((key, v) :: members, rest)
              | None => None
              end
            | 125 :: rest => Some ([(key, v)], rest)
            | _ => None
            end
          | None => None
          end
        | _ => None
        end
      | None => None
      end
    | _ => None
    end
  end.

(** The record of a list of members: each is stored under its key, a
    later one over an earlier one of the same key. *)
Definition recordOf (members : list (gostring * value))
  : gmap gostring value :=
  List.fold_left (fun m kv => <[fst kv := snd kv]> m) members ∅.

Definition readObject (s : gostring)
  : option (gmap gostring value * gostring) :=
  match skipSpace s with
  | 123 :: s1 =>
    match skipSpace s1 with
    | 125 :: rest => Some (∅, rest)
    | _ =>
      match readMembers (List.length s1) s1 with
      | Some (members, rest) => Some (recordOf members, rest)
      | None => None
      end
    end
  | _ => None
  end.

(** The objects of an array from behind its opening bracket or a comma,
    up to the closing bracket. *)
Fixpoint readObjects (fuel : nat) (s : gostring)
  : option (list (gmap gostring value) * gostring) :=
  match fuel with
  | O => None
  | S fuel' =>
    match readObject s with
    | Some (o, s1) =>
      match skipSpace s1 with
      | 44 :: s2 =>
        match readObjects fuel' s2 with
        | Some (os, rest) => Some (o :: os, rest)
        | None => None
        end
      | 93 :: rest => Some ([o], rest)
      | _ => None
      end
    | None => None
    end
  end.

(** The reader: an array of objects with scalar members, and nothing
    but white space after it. *)
Definition json_Parse (s : gostring) : option (list (gmap gostring value)) :=
  match skipSpace s with
  | 91 :: s1 =>
    match skipSpace s1 with
    | 93 :: rest =>
      match skipSpace rest with
      | [] => Some []
      | _ => None
      end
    | _ =>
      match readObjects (List.length s1) s1 with
      | Some (os, rest) =>
        match skipSpace rest with
        | [] => Some os
        | _ => None
        end
      | None => None
      end
    end
  | _ => None
  end.

(** ** The environment of the service *)

(** The calls of the service that the properties below speak about, in
    the order in which they happen. *)
Inductive event : Type :=
| CallQwen (prompt : gostring)
| DiscoverCatalog
| Validate (sqlText : gostring) (verdict : option error)
| ExecuteQuery (query : gostring).

(** How the HTTP exchange of [callQwenInternal] ends: [http.NewRequest]
    or [httpClient.Do] fails, or a response arrives with its status
    code, its body as text and, when the body decodes, the [content] of
    each of its [choices]. *)
Inductive qwenReply : Type :=
| QwenTransportError (msg : gostring)
| QwenResponse (StatusCode : Z) (body : gostring)
               (choices : option (list gostring)).

(** How the row loop of [executeQuery] ends: [rows.Next] returns false
    with no error, a [rows.Scan] fails, or [rows.Err] reports one. *)
Inductive rowsEnd : Type :=
| RowsDone
| ScanFailed (msg : gostring)
| RowsFailed (msg : gostring).

(** What the SQLite file answers to one query: [sql.Open], [db.Query] or
    [rows.Columns] fails, or the columns and the scanned rows arrive. *)
Inductive sqliteReply : Type :=
| OpenFailed (msg : gostring)
| QueryFailed (msg : gostring)
| ColumnsFailed (msg : gostring)
| Rows (cols : list gostring) (rows : list (list value)) (ending : rowsEnd).

(** The configuration, the process environment and the two services the
    code calls.  An answer may depend on the whole history of calls.
    [catalog] is the outcome of [discoverPropertyCatalog], which reads
    the boards table and sorts the properties of every board into the
    catalog. *)
Record Env : Type := {
  DBType : gostring;
  DBConfigString : gostring;
  DASHSCOPE_API_KEY : gostring;
  DASHSCOPE_MODEL : gostring;
  qwen : list event -> gostring -> gostring -> qwenReply;
  sqlite : list event -> gostring -> gostring -> sqliteReply;
  catalog : list event -> result propCatalog
}.

(** A computation that extends the trace of calls. *)
Definition M (A : Type) : Type := list event -> A * list event.

Definition ret {A : Type} (a : A) : M A := fun t => (a, t).

Definition bind {A B : Type} (m : M A) (k : A -> M B) : M B :=
  fun t => let (a, t') := m t in k a t'.

Definition emit (e : event) : M unit := fun t => (tt, t ++ [e]).

Definition history : M (list event) := fun t => (t, t).

Notation "'do' x <- m ; k" := (bind m (fun x => k))
  (at level 10, x name, m at level 100, k at level 200).

(** ** The service *)

Definition intentChat : gostring := runes "chat".
Definition intentQueryData : gostring := runes "query_data".

(** The text of [ragSchemaDDL]. *)
Definition ragSchemaDDL : gostring :=
  runes "
-- boards: 看板
CREATE TABLE boards (
  id TEXT PRIMARY KEY,
  team_id TEXT,
  title TEXT,
  description TEXT,
  create_at INTEGER,
  update_at INTEGER,
  delete_at INTEGER
);

-- blocks: 不同内容块（包括卡片、分组、属性等），其中 type='card' 代表卡片
CREATE TABLE blocks (
  id TEXT PRIMARY KEY,
  board_id TEXT,
  parent_id TEXT,
  root_id TEXT,
  type TEXT,                 -- e.g. 'card', 'view', 'property'
  title TEXT,
  fields TEXT,               -- JSON string that may include assignee_id, status, due_date, etc.
  create_at INTEGER,
  update_at INTEGER,
  delete_at INTEGER
);

-- 典型的查询：按用户筛选其卡片（assignee_id 在 blocks.fields JSON 内部）
-- 例如在 sqlite 中：json_extract(fields, '$.assignee_id') = '<userID>'
".

(** The prompt of [classifyIntent]: [fmt.Sprintf] with one [%s]. *)
Definition classifyPrompt (question : gostring) : gostring :=
  runes "你是一个分类器。请只输出一个词：chat 或 query_data。
规则：
- 当用户是在闲聊、问候、或没有明确要求查询项目数据时，输出 chat。
- 当用户在请求和 Focalboard 项目数据相关的统计、筛选、列表、进度等查询时，输出 query_data。

用户问题：
"
  ++ question ++
  runes "

只输出 chat 或 query_data，不要多余解释。".

(** The prompt of [generateSQL].  The format has two [%s] verbs and the
    call passes three operands, [userID], [schema] and [question]:
    [fmt.Sprintf] puts the first two in and appends the third as an
    [EXTRA] note. *)
Definition generatePrompt (userID schema question : gostring) : gostring :=
  runes "你是一个 Text-to-SQL 助手。请根据给定的数据库结构 (DDL) 和用户问题，生成一个只读、安全的 SQL。
要求：
- 只生成单条 SELECT 语句，不要包含任何其它内容（不要包含注释、解释、分号）。
- 根据数据库类型为 sqlite 来生成；注意卡片属性位于 blocks.fields.properties 下，键为动态属性ID，例如使用 json_extract(fields, '$.properties.<propID>') 访问。
- 必须包含对用户 user_id 的约束：例如使用人员属性（person 或 multiPerson）筛选分配给该用户的卡片。
- 如果问题涉及看板或卡片统计，请合理连接 boards 与 blocks（type='card' 代表卡片）。
- 尽量只返回必要的字段：例如卡片 id、title、board_id、状态、到期时间、更新时间等。
- 确保 WHERE 子句只读安全，不要使用子查询去修改数据。

数据库结构（DDL）：
"
  ++ userID ++
  runes "

用户问题：
"
  ++ schema ++
  runes "

只输出最终 SQL（仅一行 SELECT 开头的语句），不要任何其它文字。"
  ++ runes "%!(EXTRA string=" ++ question ++ runes ")".

(** The first keyword rule, which [classifyIntent] and [generateSQL]
    share word for word. *)
Definition isMyTasks (q : gostring) : bool :=
  strings_Contains q (runes "查询我的任务")
  || strings_Contains q (runes "我的任务")
  || (strings_Contains q (runes "任务") && strings_Contains q (runes "我")).

Definition classifyKeys : list gostring :=
  [runes "查询"; runes "代办"; runes "进行中"; runes "未完成"; runes "完成";
   runes "已完成"; runes "逾期"; runes "过期"; runes "截止"; runes "到期"].

(** The statement every template starts with and ends with. *)
Definition selectCards : gostring :=
  runes "SELECT id, title, board_id, fields, update_at FROM blocks WHERE type='card' AND delete_at=0 ".

Definition orderLimit : gostring :=
  runes " ORDER BY update_at DESC LIMIT 50".

Definition fallbackSQL : gostring :=
  runes "SELECT id, title, board_id, fields, update_at FROM blocks WHERE type='card' AND delete_at=0 ORDER BY update_at DESC LIMIT 50".

(** [buildFinalPrompt]. *)
Definition buildFinalPrompt (question contextData : gostring) : gostring :=
  runes "你是一个 Focal Board 任务助手。请根据我提供的 JSON 实时数据，为用户生成一份简短、友好、易于阅读的中文任务总结。

"
  ++ runes "【重要规则】:
"
  ++ runes "1. **不要**复述或打印原始的 JSON 数据。
"
  ++ runes "2. **直接**开始你的总结性回答 (例如：'你好！根据你的任务情况...')。
"
  ++ runes "3. 使用表情符号 (✅, 🚀) 来组织你的回答。
"
  ++ runes "4. 如果数据中有逾期的任务，请明确指出。

"
  ++ runes "用户问题: " ++ [34]
  ++ question
  ++ [34] ++ runes "

实时数据 (JSON 格式):
"
  ++ contextData
  ++ runes "

你的回答 (请直接开始总结):
".

(** *** [extractSQL] *)

(** The class [\s] of RE2. *)
Definition isReSpace (r : rune) : bool :=
  (r =? 9) || (r =? 10) || (r =? 12) || (r =? 13) || (r =? 32).

Definition fence : gostring := [96; 96; 96].

(** The shortest prefix of [s] that a fence follows: the lazy
    [[\s\S]*?] before the closing fence. *)
Fixpoint untilFence (s : gostring) : option gostring :=
  if strings_HasPrefix s fence then Some []
  else match s with
       | [] => None
       | c :: s' => option_map (cons c) (untilFence s')
       end.

(** The submatch of the pattern of [extractSQL] when it matches at the
    head of [s]: the fence and [sql], white space, then [SELECT] and
    what follows up to the next fence. *)
Definition fencedAt (s : gostring) : option gostring :=
  if strings_HasPrefix s (fence ++ runes "sql")
  then
    let body := trimLeft isReSpace (List.skipn 6 s) in
    if strings_HasPrefix body (runes "SELECT")
    then option_map (app (runes "SELECT")) (untilFence (List.skipn 6 body))
    else None
  else None.

(** [re.FindStringSubmatch]: the leftmost position at which the pattern
    matches. *)
Fixpoint findFenced (s : gostring) : option gostring :=
  match fencedAt s with
  | Some m => Some m
  | None => match s with
            | [] => None
            | _ :: s' => findFenced s'
            end
  end.

Section Service.
Context (U : UnicodeTables) (E : Env).

Definition extractSQL (text : gostring) : gostring :=
  match findFenced text with
  | Some m => strings_TrimSpace m
  | None =>
    match List.find
            (fun ln => strings_HasPrefix
                         (strings_ToUpper U (strings_TrimSpace ln))
                         (runes "SELECT"))
            (splitOn 10 text) with
    | Some ln => strings_TrimRight (strings_TrimSpace ln) (runes ";")
    | None => strings_TrimRight text (runes ";")
    end
  end.

(** [callQwenInternal]. *)
Definition callQwenInternal (prompt : gostring) : M (result gostring) :=
  do _ <- emit (CallQwen prompt);
  match strings_TrimSpace (DASHSCOPE_API_KEY E) with
  | [] => ret (Err ErrAPIKeyNotSet)
  | _ =>
    let model :=
      match strings_TrimSpace (DASHSCOPE_MODEL E) with
      | [] => runes "qwen-plus"
      | m => m
      end in
    do h <- history;
    match qwen E h model prompt with
    | QwenTransportError msg => ret (Err (ErrForeign msg))
    | QwenResponse code body choices =>
      if negb (code =? 200) then ret (Err (ErrQwenAPI code body))
      else match choices with
           | None => ret (Err (ErrForeign body))
           | Some [] => ret (Err ErrQwenEmptyChoice)
           | Some (content :: _) => ret (Ok content)
           end
    end
  end.

(** [classifyIntent]. *)
Definition classifyIntent (question : gostring) : M (result gostring) :=
  let q := strings_ToLower U (strings_TrimSpace question) in
  if isMyTasks q then ret (Ok intentQueryData)
  else
    let hasKey := List.existsb (fun k => strings_Contains q k) classifyKeys in
    if hasKey && strings_Contains q (runes "任务") then ret (Ok intentQueryData)
    else
      do r <- callQwenInternal (classifyPrompt question);
      match r with
      | Err e => ret (Err e)
      | Ok out =>
        let ans := strings_ToLower U (strings_TrimSpace out) in
        if strings_Contains ans intentQueryData then ret (Ok intentQueryData)
        else if strings_Contains ans intentChat then ret (Ok intentChat)
        else ret (Ok intentChat)
      end.

(** [discoverPropertyCatalog]; a failure leaves the nil catalog. *)
Definition discoverPropertyCatalog : M (result propCatalog) :=
  do _ <- emit DiscoverCatalog;
  do h <- history;
  ret (catalog E h).

(** The end of every branch of [generateSQL]: the statement goes through
    [validateReadOnlySQL] and is returned only if that returns nil. *)
Definition validated (sqlText : gostring) : M (result gostring) :=
  let verdict := validateReadOnlySQL U sqlText in
  do _ <- emit (Validate sqlText verdict);
  match verdict with
  | Some err => ret (Err err)
  | None => ret (Ok sqlText)
  end.

(** [generateSQL]. *)
Definition generateSQL (schema userID question : gostring)
  : M (result gostring) :=
  do c <- discoverPropertyCatalog;
  let catalog := match c with Ok cat => Some cat | Err _ => None end in
  let q := strings_ToLower U (strings_TrimSpace question) in
  if isMyTasks q then
    validated (selectCards ++ buildAssigneeClause userID catalog ++ orderLimit)
  else if strings_Contains q (runes "代办")
          || strings_Contains q (runes "未完成")
          || strings_Contains q (runes "待办") then
    validated (selectCards ++ buildAssigneeClause userID catalog
               ++ buildStatusOpenClause U catalog ++ orderLimit)
  else if strings_Contains q (runes "已完成")
          || (strings_Contains q (runes "完成")
              && negb (strings_Contains q (runes "未完成"))) then
    validated (selectCards ++ buildAssigneeClause userID catalog
               ++ buildStatusDoneClause U catalog ++ orderLimit)
  else if strings_Contains q (runes "进行中") then
    validated (selectCards ++ buildAssigneeClause userID catalog
               ++ buildStatusProgressClause U catalog ++ orderLimit)
  else if strings_Contains q (runes "逾期")
          || strings_Contains q (runes "过期")
          || strings_Contains q (runes "过了截止日期")
          || strings_Contains q (runes "截止日期已过")
          || strings_Contains q (runes "已过期") then
    validated (selectCards ++ buildAssigneeClause userID catalog
               ++ buildOverdueClause U catalog ++ orderLimit)
  else
    do r <- callQwenInternal (generatePrompt userID schema question);
    match r with
    | Err e => ret (Err e)
    | Ok out => validated (extractSQL (strings_TrimSpace out))
    end.

(** The data source name of [executeQuery]. *)
Definition dsnOf (dbPath : gostring) : gostring :=
  let dbPath :=
    match strings_TrimSpace dbPath with
    | [] => runes "./focalboard.db"
    | _ => dbPath
    end in
  if strings_Contains dbPath (runes "?")
  then dbPath ++ runes "&_journal_mode=WAL"
  else dbPath ++ runes "?_busy_timeout=5000&_journal_mode=WAL".

(** [executeQuery]. *)
Definition executeQuery (query : gostring) : M (result gostring) :=
  do _ <- emit (ExecuteQuery query);
  if negb (gostring_eqb (strings_ToLower U (DBType E)) (runes "sqlite3"))
  then ret (Err ErrUnsupportedDBType)
  else
    do h <- history;
    match sqlite E h (dsnOf (DBConfigString E)) query with
    | OpenFailed msg => ret (Err (ErrForeign msg))
    | QueryFailed msg => ret (Err (ErrForeign msg))
    | ColumnsFailed msg => ret (Err (ErrForeign msg))
    | Rows cols rows RowsDone =>
      match json_Marshal (materialize cols rows) with
      | Err e => ret (Err e)
      | Ok data => ret (Ok data)
      end
    | Rows _ _ (ScanFailed msg) => ret (Err (ErrForeign msg))
    | Rows _ _ (RowsFailed msg) => ret (Err (ErrForeign msg))
    end.

(** [PrepareRAGResponse]. *)
Definition PrepareRAGResponse (userID question : gostring)
  : M (result gostring) :=
  do i <- classifyIntent question;
  match i with
  | Err err => ret (Err err)
  | Ok intent =>
    if gostring_eqb intent intentChat then ret (Err ErrIntentIsChat)
    else if negb (gostring_eqb intent intentQueryData)
    then ret (Err ErrUnknownIntent)
    else
      do g <- generateSQL ragSchemaDDL userID question;
      match g with
      | Err err => ret (Err err)
      | Ok sqlText =>
        do x <- executeQuery sqlText;
        match x with
        | Err err => ret (Err err)
        | Ok contextJSON =>
          do contextJSON <-
            (if gostring_eqb (strings_TrimSpace contextJSON) (runes "[]")
             then
               do fb <- executeQuery fallbackSQL;
               match fb with
               | Ok fbJSON => ret fbJSON
               | Err _ => ret contextJSON
               end
             else ret contextJSON);
          ret (Ok (buildFinalPrompt question contextJSON))
        end
      end
  end.

End Service.

(** ** The streaming relay of [handleAIChatStream] *)

(** [AIStreamChunk]: one outbound server-sent event. *)
Record AIStreamChunk : Type := {
  Content : gostring;
  Done : bool
}.

(** One element of [OpenAIResponse.Choices]. *)
Record Choice : Type := {
  Delta_Content : gostring;
  Message_Content : gostring;
  FinishReason : gostring
}.

Record OpenAIResponse : Type := {
  Choices : list Choice;
  Model : gostring
}.

(** How [scanner.Scan] comes to return false: the body ended, or reading
    it failed ([scanner.Err] is then not nil). *)
Inductive scanEnd : Type :=
| ScanEOF
| ScanError (msg : gostring).

(** The response of the LLM endpoint as the handler sees it: the status
    code, then the lines the scanner yields, one per [Scan]. *)
Record upstreamResponse : Type := {
  StatusCode : Z;
  bodyLines : list gostring;
  bodyEnd : scanEnd
}.

(** What the handler meets on its way to the response of the endpoint,
    in the order of its early returns. *)
Record streamRequest : Type := {
  bodyRead : bool;
  bodyDecodes : bool;
  apiKey : gostring;
  requestBuilt : bool;
  upstream : option upstreamResponse
}.

(** What the client receives: the error response of [a.errorResponse],
    or the events written to the event stream. *)
Inductive reply : Type :=
| ErrorResponse
| EventStream (events : list AIStreamChunk).

Definition dataPrefix : gostring := runes "data: ".
Definition doneMarker : gostring := runes "[DONE]".

Definition finalChunk : AIStreamChunk :=
  {| Content := []; Done := true |}.

Section Relay.
(** [json.Unmarshal([]byte(data), &oresp)]; [None] when it returns an
    error. *)
Context (json_Unmarshal : gostring -> option OpenAIResponse).

(** The [for scanner.Scan()] loop; [w] holds the events written so far.
    The loop is left when the lines run out, at the [[DONE]] marker, and
    after an event whose first choice carries a finish reason. *)
Fixpoint relayLoop (lines : list gostring) (w : list AIStreamChunk)
  : list AIStreamChunk :=
  match lines with
  | [] => w
  | line :: rest =>
    if strings_HasPrefix line dataPrefix then
      let data := strings_TrimPrefix line dataPrefix in
      if gostring_eqb data doneMarker then w
      else
        match json_Unmarshal data with
        | Some oresp =>
          match Choices oresp with
          | c0 :: _ =>
            let content := Delta_Content c0 in
            let w' :=
              match content with
              | [] => w
              | _ => w ++ [{| Content := content; Done := false |}]
              end in
            match FinishReason c0 with
            | [] => relayLoop rest w'
            | _ => w'
            end
          | [] => relayLoop rest w
          end
        | None => relayLoop rest w
        end
    else relayLoop rest w
  end.

(** The handler from the loop on: the loop, the (logged) scanner error,
    then the final chunk. *)
Definition relay (resp : upstreamResponse) : list AIStreamChunk :=
  relayLoop (bodyLines resp) [] ++ [finalChunk].

(** [handleAIChatStream], as far as the client can tell. *)
Definition handleAIChatStream (rq : streamRequest) : reply :=
  if negb (bodyRead rq) then ErrorResponse
  else if negb (bodyDecodes rq) then ErrorResponse
  else
    match apiKey rq with
    | [] => ErrorResponse
    | _ =>
      if negb (requestBuilt rq) then ErrorResponse
      else
        match upstream rq with
        | None => ErrorResponse
        | Some resp =>
          if negb (StatusCode resp =? 200) then ErrorResponse
          else EventStream (relay resp)
        end
    end.

(** The run gets to the [for scanner.Scan()] loop. *)
Definition reachesLoop (rq : streamRequest) (resp : upstreamResponse) : Prop :=
  bodyRead rq = true /\ bodyDecodes rq = true /\ apiKey rq <> []
  /\ requestBuilt rq = true /\ upstream rq = Some resp
  /\ StatusCode resp = 200.

(** *** The upstream events, as the specification speaks of them *)

(** What one line of the upstream body is to the relay. *)
Inductive upEvent : Type :=
| Ignored
| DoneMarker
| Delta (content finish : gostring).

Definition eventOf (line : gostring) : upEvent :=
  if strings_HasPrefix line dataPrefix then
    let data := List.skipn (List.length dataPrefix) line in
    if gostring_eqb data doneMarker then DoneMarker
    else match json_Unmarshal data with
         | Some {| Choices := c0 :: _ |} =>
           Delta (Delta_Content c0) (FinishReason c0)
         | _ => Ignored
         end
  else Ignored.

Definition terminates (e : upEvent) : bool :=
  match e with
  | DoneMarker => true
  | Delta _ (_ :: _) => true
  | _ => false
  end.

(** The events the relay reads: up to and including the first one that
    ends the stream. *)
Fixpoint consumed (evs : list upEvent) : list upEvent :=
  match evs with
  | [] => []
  | e :: rest => if terminates e then [e] else e :: consumed rest
  end.

(** The non-empty text deltas among some events, in their order. *)
Definition textDeltas (evs : list upEvent) : list gostring :=
  List.flat_map (fun e => match e with
                          | Delta (c :: s) _ => [c :: s]
                          | _ => []
                          end) evs.

Definition textChunk (content : gostring) : AIStreamChunk :=
  {| Content := content; Done := false |}.

End Relay.

(** ** Notions of the specification *)

(** [sub] is a substring of [s]. *)
Definition contains (sub s : gostring) : Prop :=
  exists pre post, s = pre ++ sub ++ post.

(** [kw] stands in [s] as a whole word: between two word boundaries. *)
Definition wholeWord (kw s : gostring) : Prop :=
  exists pre post,
    s = pre ++ kw ++ post
    /\ isWordAt (last pre) = false /\ isWordAt (head post) = false.

(** The code point before a position: the last one of [pre], or [prev]
    when [pre] is empty. *)
Definition lastOr (prev : option rune) (pre : gostring) : option rune :=
  match last pre with
  | Some c => Some c
  | None => prev
  end.

(** A keyword: a non-empty run of word characters. *)
Definition isKeyword (kw : gostring) : bool :=
  match kw with
  | [] => false
  | _ => List.forallb isWordChar kw
  end.

(** The text the validator looks at: the statement trimmed, then
    upper-cased. *)
Definition upperTrimmed (U : UnicodeTables) (sqlText : gostring) : gostring :=
  strings_ToUpper U (strings_TrimSpace sqlText).

(** The ASCII half of [unicode.ToUpper], which no table takes part in. *)
Definition asciiUpper (r : rune) : rune :=
  if (97 <=? r) && (r <=? 122) then r - 32 else r.

(** A neighbour in the statement as it is given that is a boundary for
    certain: the end of the text, or an ASCII code point that is not a
    word character. *)
Definition plainBoundary (o : option rune) : bool :=
  match o with
  | None => true
  | Some c => (c <=? 127) && negb (isWordChar c)
  end.

(** The keyword rules of [classifyIntent], on the question as given. *)
Definition matchesKeywordRule (U : UnicodeTables) (question : gostring)
  : bool :=
  let q := strings_ToLower U (strings_TrimSpace question) in
  isMyTasks q
  || (List.existsb (fun k => strings_Contains q k) classifyKeys
      && strings_Contains q (runes "任务")).

(** The CJK unified ideographs (U+4E00 to U+9FFF) have no case: the
    lower-case table leaves them alone. *)
Definition cjkStable (U : UnicodeTables) : Prop :=
  forall r, 19968 <= r <= 40959 -> lowerTable U r = r.

(** The ASCII half of [unicode.ToLower]. *)
Definition asciiLower (r : rune) : rune :=
  if (65 <=? r) && (r <=? 90) then r + 32 else r.

(** A text with no forbidden keyword as a whole word and none of the
    forbidden character sequences: what the last two rules of the
    validator ask of the upper-cased statement. *)
Definition clean (up : gostring) : Prop :=
  (forall kw, kw ∈ forbiddenKeywords -> ~ wholeWord kw up)
  /\ (forall c, c ∈ forbiddenChars -> ~ contains c up).

(** The same of a piece of a statement as the code has it, before
    upper-casing: of an identifier of the catalog or of the user. *)
Definition cleanU (U : UnicodeTables) (s : gostring) : Prop :=
  clean (strings_ToUpper U s).

(** The validator's two scans as one test, for a text that is given. *)
Definition cleanb (up : gostring) : bool :=
  List.forallb (fun kw => negb (regexp_wordMatch kw up)) forbiddenKeywords
  && List.forallb (fun c => negb (strings_Contains up c)) forbiddenChars.

(** A delimiter: an ASCII code point that is no word character and
    takes part in no forbidden character sequence. *)
Definition isDelim (d : rune) : bool :=
  (d <=? 127) && negb (isWordChar d)
  && negb ((d =? 45) || (d =? 47) || (d =? 42) || (d =? 59)).

Definition startDelim (s : gostring) : bool :=
  match head s with
  | Some d => isDelim d
  | None => false
  end.

Definition endDelim (s : gostring) : bool :=
  match last s with
  | Some d => isDelim d
  | None => false
  end.

(** Every identifier of a catalog is clean: the person, multi-person
    and date properties, the status properties and their option ids. *)
Definition cleanCatalog (U : UnicodeTables) (cat : propCatalog) : Prop :=
  Forall (cleanU U) (PersonPropIDs cat)
  /\ Forall (cleanU U) (MultiPersonPropIDs cat)
  /\ Forall (fun entry =>
               cleanU U (fst entry)
               /\ map_Forall (fun _ oid => cleanU U oid) (snd entry))
            (StatusPropOptions cat)
  /\ Forall (cleanU U) (DatePropIDs cat).

Definition cleanCatalogOpt (U : UnicodeTables) (cat : option propCatalog)
  : Prop :=
  match cat with
  | Some c => cleanCatalog U c
  | None => True
  end.

(** What holds of every clause a builder returns: it is clean, and it
    is empty or ends with a delimiter. *)
Definition clauseOK (U : UnicodeTables) (c : gostring) : Prop :=
  cleanU U c /\ (c = [] \/ endDelim c = true).

(** The question takes one of the five template branches of
    [generateSQL]. *)
Definition isTemplateQuestion (U : UnicodeTables) (question : gostring)
  : bool :=
  let q := strings_ToLower U (strings_TrimSpace question) in
  isMyTasks q
  || (strings_Contains q (runes "代办")
      || strings_Contains q (runes "未完成")
      || strings_Contains q (runes "待办"))
  || (strings_Contains q (runes "已完成")
      || (strings_Contains q (runes "完成")
          && negb (strings_Contains q (runes "未完成"))))
  || strings_Contains q (runes "进行中")
  || (strings_Contains q (runes "逾期")
      || strings_Contains q (runes "过期")
      || strings_Contains q (runes "过了截止日期")
      || strings_Contains q (runes "截止日期已过")
      || strings_Contains q (runes "已过期")).

(** The catalog [generateSQL] works with when it is called at trace
    [t]: the discovered one, or nil when discovery fails. *)
Definition discovered (E : Env) (t : list event) : option propCatalog :=
  match catalog E (t ++ [DiscoverCatalog]) with
  | Ok cat => Some cat
  | Err _ => None
  end.

(** A text without its blanks. *)
Definition dropBlanks (s : gostring) : gostring :=
  List.filter (fun c => negb (c =? 32)) s.

(** A Unicode scalar value: what a code point of a valid UTF-8 string
    is. *)
Definition validRune (r : rune) : Prop :=
  0 <= r <= 1114111 /\ ~ (55296 <= r <= 57343).

Definition validString (s : gostring) : Prop := Forall validRune s.

(** A value of the kinds NULL, INTEGER and TEXT, the text a valid
    string. *)
Definition scalarValue (v : value) : Prop :=
  match v with
  | VNull | VInt _ => True
  | VText s => validString s
  | VFloat _ | VBytes _ | VBool _ | VTime _ => False
  end.

(** A record of such values under column names that are valid
    strings. *)
Definition scalarRecord (m : gmap gostring value) : Prop :=
  map_Forall (fun k v => validString k /\ scalarValue v) m.

(** The text of an encoding that did not fail. *)
Definition textOf (r : result gostring) : gostring :=
  match r with
  | Ok s => s
  | Err _ => []
  end.

Definition valueText (v : value) : gostring := textOf (jsonValue v).

Definition memberText (kv : gostring * value) : gostring :=
  textOf (jsonMember kv).

Definition objectText (m : gmap gostring value) : gostring :=
  textOf (jsonObject m).



(** An event that is no call of [executeQuery]. *)
Definition notExecute (e : event) : Prop :=
  match e with
  | ExecuteQuery _ => False
  | _ => True
  end.

(** The number of calls of the LLM in a trace. *)
Definition llmCalls (t : list event) : nat :=
  List.length (List.filter (fun e => match e with
                                     | CallQwen _ => true
                                     | _ => false
                                     end) t).

(** A table with no entry above ASCII, to run examples with. *)
Definition asciiTables : UnicodeTables :=
  {| upperTable := fun r => r; lowerTable := fun r => r |}.

(** The table with the entry of U+017F, the long s, whose upper case is
    the letter S and which is its own lower case. *)
Definition longSTables : UnicodeTables :=
  {| upperTable := fun r => if r =? 383 then 83 else r;
     lowerTable := fun r => r |}.

Example validate_accepts :
  validateReadOnlySQL asciiTables
    (runes "SELECT id, title FROM blocks WHERE type='card'") = None.
Proof. vm_compute. reflexivity. Qed.

Example validate_rejects_chain :
  validateReadOnlySQL asciiTables
    (runes "SELECT * FROM blocks; DROP TABLE boards")
  = Some (ErrGeneratedSQLForbidden (runes "DROP")).
Proof. vm_compute. reflexivity. Qed.

Example validate_update_at :
  validateReadOnlySQL asciiTables
    (runes "select update_at from blocks where delete_at=0") = None.
Proof. vm_compute. reflexivity. Qed.

Example runes_cjk : runes "我的任务" = [25105; 30340; 20219; 21153].
Proof. vm_compute. reflexivity. Qed.

(** ** Sample inputs *)

(** A catalog with the one person property [assignee]. *)
Definition sampleCatalog : propCatalog :=
  {| PersonPropIDs := [runes "assignee"];
     MultiPersonPropIDs := [];
     StatusPropOptions := [];
     DatePropIDs := [] |}.

(** An environment on SQLite with an API key, an LLM that answers
    [answer] to every prompt, a database that answers every query with
    the rows [rows] of the columns [id] and [n], and the sample catalog. *)
Definition sampleEnv (answer : gostring) (rows : list (list value)) : Env :=
  {| DBType := runes "sqlite3";
     DBConfigString := [];
     DASHSCOPE_API_KEY := runes "sk-test";
     DASHSCOPE_MODEL := [];
     qwen := fun _ _ _ => QwenResponse 200 [] (Some [answer]);
     sqlite := fun _ _ _ => Rows [runes "id"; runes "n"] rows RowsDone;
     catalog := fun _ => Ok sampleCatalog |}.

(** The same, but the database has one card, which only the fallback
    statement finds. *)
Definition oneCardEnv : Env :=
  {| DBType := runes "sqlite3";
     DBConfigString := [];
     DASHSCOPE_API_KEY := runes "sk-test";
     DASHSCOPE_MODEL := [];
     qwen := fun _ _ _ => QwenResponse 200 [] (Some [runes "chat"]);
     sqlite := fun _ _ query =>
       if gostring_eqb query fallbackSQL
       then Rows [runes "id"; runes "n"] [[VText (runes "c1"); VInt 7]]
                 RowsDone
       else Rows [runes "id"; runes "n"] [] RowsDone;
     catalog := fun _ => Ok sampleCatalog |}.

(** A stand-in for the JSON decoder of the relay, to run examples with:
    [c:text] is an event whose first choice has the text delta [text],
    [f:reason] one whose first choice has the finish reason [reason],
    [{}] one without choices; nothing else decodes. *)
Definition sampleUnmarshal (data : gostring) : option OpenAIResponse :=
  let choice c f :=
    {| Choices := [{| Delta_Content := c; Message_Content := [];
                      FinishReason := f |}];
       Model := runes "qwen-plus" |} in
  if strings_HasPrefix data (runes "c:")
  then Some (choice (List.skipn 2 data) [])
  else if strings_HasPrefix data (runes "f:")
  then Some (choice [] (List.skipn 2 data))
  else if gostring_eqb data (runes "{}")
  then Some {| Choices := []; Model := [] |}
  else None.

(** A request that reaches the loop; the endpoint sends three text
    deltas, a comment line and an event without choices among them,
    then a finish reason, then more, and then the connection breaks. *)
Definition sampleStream : streamRequest :=
  {| bodyRead := true;
     bodyDecodes := true;
     apiKey := runes "sk-test";
     requestBuilt := true;
     upstream := Some
       {| StatusCode := 200;
          bodyLines := [runes "data: c:Hel"; runes ": keep-alive";
                        runes "data: c:lo"; runes "data: {}";
                        runes "data: c:!"; runes "data: f:stop";
                        runes "data: c:late"];
          bodyEnd := ScanError (runes "connection reset") |} |}.

(** A catalog that knows no property: the nil catalog of a failed
    discovery, or one whose four fields are empty. *)
Definition noProperties (cat : option propCatalog) : Prop :=
  match cat with
  | None => True
  | Some c =>
    PersonPropIDs c = [] /\ MultiPersonPropIDs c = []
    /\ StatusPropOptions c = [] /\ DatePropIDs c = []
  end.

(** The errors that [validateReadOnlySQL] builds. *)
Definition isValidationError (e : error) : bool :=
  match e with
  | ErrGeneratedSQLEmpty | ErrGeneratedSQLNotSelect _
  | ErrGeneratedSQLForbidden _ | ErrGeneratedSQLChars _ => true
  | _ => false
  end.

(** The errors that [callQwenInternal] builds itself: no API key, a
    status other than 200, no choice in the answer. *)
Definition isLLMError (e : error) : bool :=
  match e with
  | ErrAPIKeyNotSet | ErrQwenAPI _ _ | ErrQwenEmptyChoice => true
  | _ => false
  end.

(** The number of calls of [executeQuery], of [discoverPropertyCatalog]
    and of [validateReadOnlySQL] in a trace. *)
Definition executions (t : list event) : nat :=
  List.length (List.filter (fun e => match e with
                                     | ExecuteQuery _ => true
                                     | _ => false
                                     end) t).

Definition discoveries (t : list event) : nat :=
  List.length (List.filter (fun e => match e with
                                     | DiscoverCatalog => true
                                     | _ => false
                                     end) t).

Definition validations (t : list event) : nat :=
  List.length (List.filter (fun e => match e with
                                     | Validate _ _ => true
                                     | _ => false
                                     end) t).

(** What ends a number: the end of the text or a code point that is no
    digit. *)
Definition endsNumber (rest : gostring) : Prop :=
  match rest with
  | [] => True
  | c :: _ => ~ (48 <= c <= 57)
  end.

(** The separators behind a member and behind an object. *)
Definition afterMember (tail : gostring) : Prop :=
  exists c tail', tail = c :: tail' /\ (c = 44 \/ c = 125 \/ c = 93).

(** A line of the upstream body that the loop of the relay passes over:
    one without the [data: ] prefix, or a data line other than the
    [[DONE]] marker that does not decode or decodes to an event without
    choices. *)
Definition skippedLine (json_Unmarshal : gostring -> option OpenAIResponse)
  (line : gostring) : Prop :=
  strings_HasPrefix line dataPrefix = false
  \/ (strings_TrimPrefix line dataPrefix <> doneMarker
      /\ (json_Unmarshal (strings_TrimPrefix line dataPrefix) = None
          \/ exists oresp,
               json_Unmarshal (strings_TrimPrefix line dataPrefix)
               = Some oresp /\ Choices oresp = [])).

(** ** The request to the LLM endpoint ([server/api/ai.go]) *)

(** A [float64] that was decoded from JSON, as the rational number it
    is; [x == 0] is the test of its numerator. *)
Abbreviation float64 := QArith_base.Q (only parsing).

Definition float64_isZero (x : float64) : bool :=
  QArith_base.Qnum x =? 0.

(** [Message]: one message of the conversation. *)
Record Message : Type := {
  Message_Role : gostring;
  Message_Text : gostring
}.

(** [AIRequest]: the chat request of the frontend, decoded. *)
Record AIRequest : Type := {
  AIRequest_Message : gostring;
  AIRequest_Messages : list Message;
  AIRequest_Stream : bool;
  AIRequest_Model : gostring;
  AIRequest_MaxTokens : Z;
  AIRequest_Temperature : float64
}.

(** [OpenAIRequest]: what is sent to the endpoint. *)
Record OpenAIRequest : Type := {
  OpenAIRequest_Model : gostring;
  OpenAIRequest_Messages : list Message;
  OpenAIRequest_MaxTokens : Z;
  OpenAIRequest_Temperature : float64;
  OpenAIRequest_Stream : bool
}.

(** [buildMessages]: the history when there is one, else the single
    message when it is not empty, else nil. *)
Definition buildMessages (aiReq : AIRequest) : list Message :=
  match AIRequest_Messages aiReq with
  | _ :: _ => AIRequest_Messages aiReq
  | [] =>
    match AIRequest_Message aiReq with
    | [] => []
    | _ => [{| Message_Role := runes "user";
               Message_Text := AIRequest_Message aiReq |}]
    end
  end.

(** [getEnv]; [environ] is [os.Getenv], which gives the empty string for
    a variable that is not set. *)
Definition getEnv (environ : gostring -> gostring)
  (key defaultValue : gostring) : gostring :=
  match environ key with
  | [] => defaultValue
  | value => value
  end.

(** [getAIConfig]: the API key, the URL and the model name. *)
Definition getAIConfig (environ : gostring -> gostring)
  (requestedModel : gostring) : gostring * gostring * gostring :=
  let modelName :=
    match requestedModel with
    | [] => runes "qwen-plus"
    | _ => requestedModel
    end in
  (getEnv environ (runes "DASHSCOPE_API_KEY") [],
   runes "https://dashscope.aliyuncs.com/compatible-mode/v1/chat/completions",
   modelName).

(** The two defaults that both handlers apply to the request. *)
Definition withDefaults (oreq : OpenAIRequest) : OpenAIRequest :=
  let oreq :=
    if float64_isZero (OpenAIRequest_Temperature oreq)
    then {| OpenAIRequest_Model := OpenAIRequest_Model oreq;
            OpenAIRequest_Messages := OpenAIRequest_Messages oreq;
            OpenAIRequest_MaxTokens := OpenAIRequest_MaxTokens oreq;
            OpenAIRequest_Temperature := QArith_base.Qmake 7 10;
            OpenAIRequest_Stream := OpenAIRequest_Stream oreq |}
    else oreq in
  if OpenAIRequest_MaxTokens oreq =? 0
  then {| OpenAIRequest_Model := OpenAIRequest_Model oreq;
          OpenAIRequest_Messages := OpenAIRequest_Messages oreq;
          OpenAIRequest_MaxTokens := 2000;
          OpenAIRequest_Temperature := OpenAIRequest_Temperature oreq;
          OpenAIRequest_Stream := OpenAIRequest_Stream oreq |}
  else oreq.

(** The request that [handleAIChat] builds from the decoded body, and
    [None] where it answers with an error because no API key is
    configured. *)
Definition chatRequest (environ : gostring -> gostring) (aiReq : AIRequest)
  : option OpenAIRequest :=
  let messages := buildMessages aiReq in
  let '(apiKey, _, modelName) := getAIConfig environ (AIRequest_Model aiReq) in
  match apiKey with
  | [] => None
  | _ =>
    Some (withDefaults
            {| OpenAIRequest_Model := modelName;
               OpenAIRequest_Messages := messages;
               OpenAIRequest_MaxTokens := AIRequest_MaxTokens aiReq;
               OpenAIRequest_Temperature := AIRequest_Temperature aiReq;
               OpenAIRequest_Stream := false |})
  end.

(** The same of [handleAIChatStream], which has called
    [PrepareRAGResponse] before; [rag] is what that returned. *)
Definition streamRequestOf (environ : gostring -> gostring)
  (rag : result gostring) (aiReq : AIRequest) : option OpenAIRequest :=
  let streamMessages :=
    match rag with
    | Err _ => buildMessages aiReq
    | Ok finalPrompt =>
      [{| Message_Role := runes "user"; Message_Text := finalPrompt |}]
    end in
  let '(apiKey, _, modelName) := getAIConfig environ (AIRequest_Model aiReq) in
  match apiKey with
  | [] => None
  | _ =>
    Some (withDefaults
            {| OpenAIRequest_Model := modelName;
               OpenAIRequest_Messages := streamMessages;
               OpenAIRequest_MaxTokens := AIRequest_MaxTokens aiReq;
               OpenAIRequest_Temperature := AIRequest_Temperature aiReq;
               OpenAIRequest_Stream := true |})
  end.

(** ** The discovery of the catalog ([discoverPropertyCatalog]) *)

(** What [json.Unmarshal] stores into an [interface{}]: nil, a bool, a
    [float64], a string, a [[]interface{}] or a
    [map[string]interface{}]. *)
#[warnings="-register-all"]
Inductive jvalue : Type :=
| JNull
| JBool (b : bool)
| JNumber (x : float64)
| JString (s : gostring)
| JArray (items : list jvalue)
| JObject (members : gmap gostring jvalue).

(** [s, _ := v.(string)] for the value of a map lookup: the string, or
    the empty string when the key is missing or holds something else. *)
Definition asString (v : option jvalue) : gostring :=
  match v with
  | Some (JString s) => s
  | _ => []
  end.

(** A row of the query on the boards table as [rows.Scan] leaves it:
    an error, or the id of the board and the JSON text of its card
    properties. *)
Inductive boardRow : Type :=
| BoardScanFailed (msg : gostring)
| BoardRow (boardID cardPropsJSON : gostring).

(** What the SQLite file answers to the query on the boards table. *)
Inductive boardsReply : Type :=
| BoardsOpenFailed (msg : gostring)
| BoardsQueryFailed (msg : gostring)
| Boards (rows : list boardRow).

(** The [propCatalog] while [discoverPropertyCatalog] fills it:
    [StatusPropOptions] is the Go map, in which a later status property
    of the same id replaces an earlier one. *)
Record foundCatalog : Type := {
  foundPersonPropIDs : list gostring;
  foundMultiPersonPropIDs : list gostring;
  foundStatusPropOptions : gmap gostring (gmap gostring gostring);
  foundDatePropIDs : list gostring
}.

Definition emptyCatalog : foundCatalog :=
  {| foundPersonPropIDs := []; foundMultiPersonPropIDs := [];
     foundStatusPropOptions := ∅; foundDatePropIDs := [] |}.

Section Discovery.
Context (U : UnicodeTables).
(** For [sr < tr] with [tr] above ASCII: whether the orbit of [sr] under
    [unicode.SimpleFold] reaches [tr] (the loop of [strings.EqualFold]
    for the general case, which reads the case-folding table). *)
Context (foldOrbit : rune -> rune -> bool).
(** [json.Unmarshal(cardPropsJSON, &cardProps)]; [None] when it returns
    an error.  A [null] element of the array is the nil map, in which
    every lookup misses, as in the empty one. *)
Context (json_Unmarshal : gostring -> option (list (gmap gostring jvalue))).

(** One step of [strings.EqualFold]: the two code points are equal, or
    an ASCII letter and its other case, or folded onto each other by the
    table. *)
Definition equalFoldRune (sr tr : rune) : bool :=
  if sr =? tr then true
  else
    let lo := if tr <? sr then tr else sr in
    let hi := if tr <? sr then sr else tr in
    if hi <? 128 then (65 <=? lo) && (lo <=? 90) && (hi =? lo + 32)
    else foldOrbit lo hi.

Fixpoint strings_EqualFold (s t : gostring) : bool :=
  match s, t with
  | [], [] => true
  | sr :: s', tr :: t' => equalFoldRune sr tr && strings_EqualFold s' t'
  | _, _ => false
  end.

(** The loop over the options of a status property: an option with a
    non-empty id and a non-empty value is stored under its upper-cased
    value, over an earlier one with the same upper-cased value. *)
Definition optionsOf (prop : gmap gostring jvalue) : gmap gostring gostring :=
  match prop !! runes "options" with
  | Some (JArray optsArr) =>
    List.fold_left
      (fun optsMap o =>
         match o with
         | JObject om =>
           let oid := asString (om !! runes "id") in
           let oval := asString (om !! runes "value") in
           match oid, oval with
           | _ :: _, _ :: _ => <[strings_ToUpper U oval := oid]> optsMap
           | _, _ => optsMap
           end
         | _ => optsMap
         end) optsArr ∅
  | _ => ∅
  end.

(** The body of the loop over the properties of a board. *)
Definition scanProp (cat : foundCatalog) (prop : gmap gostring jvalue)
  : foundCatalog :=
  match prop !! runes "id" with
  | None => cat
  | Some idIface =>
    let id := asString (Some idIface) in
    let typ := asString (prop !! runes "type") in
    if gostring_eqb typ (runes "person") then
      match id with
      | [] => cat
      | _ => {| foundPersonPropIDs := foundPersonPropIDs cat ++ [id];
                foundMultiPersonPropIDs := foundMultiPersonPropIDs cat;
                foundStatusPropOptions := foundStatusPropOptions cat;
                foundDatePropIDs := foundDatePropIDs cat |}
      end
    else if gostring_eqb typ (runes "multiPerson") then
      match id with
      | [] => cat
      | _ => {| foundPersonPropIDs := foundPersonPropIDs cat;
                foundMultiPersonPropIDs := foundMultiPersonPropIDs cat ++ [id];
                foundStatusPropOptions := foundStatusPropOptions cat;
                foundDatePropIDs := foundDatePropIDs cat |}
      end
    else if gostring_eqb typ (runes "select")
            || gostring_eqb typ (runes "multiSelect") then
      let name := asString (prop !! runes "name") in
      if strings_EqualFold name (runes "Status")
         || strings_EqualFold name (runes "状态") then
        let optsMap := optionsOf prop in
        match id with
        | [] => cat
        | _ =>
          if bool_decide (optsMap = ∅) then cat
          else {| foundPersonPropIDs := foundPersonPropIDs cat;
                  foundMultiPersonPropIDs := foundMultiPersonPropIDs cat;
                  foundStatusPropOptions :=
                    <[id := optsMap]> (foundStatusPropOptions cat);
                  foundDatePropIDs := foundDatePropIDs cat |}
        end
      else cat
    else if gostring_eqb typ (runes "date") then
      match id with
      | [] => cat
      | _ => {| foundPersonPropIDs := foundPersonPropIDs cat;
                foundMultiPersonPropIDs := foundMultiPersonPropIDs cat;
                foundStatusPropOptions := foundStatusPropOptions cat;
                foundDatePropIDs := foundDatePropIDs cat ++ [id] |}
      end
    else cat
  end.

(** The loop over the rows: a failed [Scan] ends the discovery with its
    error, a board whose properties do not decode is passed over. *)
Fixpoint scanBoards (rows : list boardRow) (cat : foundCatalog)
  : result foundCatalog :=
  match rows with
  | [] => Ok cat
  | BoardScanFailed msg :: _ => Err (ErrForeign msg)
  | BoardRow _ cardPropsJSON :: rest =>
    match json_Unmarshal cardPropsJSON with
    | None => scanBoards rest cat
    | Some cardProps => scanBoards rest (List.fold_left scanProp cardProps cat)
    end
  end.

(** [discoverPropertyCatalog], from the answer of the database on. *)
Definition discoverFrom (reply : boardsReply) : result foundCatalog :=
  match reply with
  | BoardsOpenFailed msg => Err (ErrForeign msg)
  | BoardsQueryFailed msg => Err (ErrForeign msg)
  | Boards rows => scanBoards rows emptyCatalog
  end.

End Discovery.

(** What holds of every catalog that the discovery builds: no property
    id in it is empty, a status property has at least one option, and an
    option has a non-empty id and stands under the upper-cased text of a
    non-empty value. *)
Definition wellFormed (U : UnicodeTables) (cat : foundCatalog) : Prop :=
  Forall (fun id => id <> []) (foundPersonPropIDs cat)
  /\ Forall (fun id => id <> []) (foundMultiPersonPropIDs cat)
  /\ Forall (fun id => id <> []) (foundDatePropIDs cat)
  /\ map_Forall
       (fun sid opts =>
          sid <> [] /\ opts <> ∅
          /\ map_Forall
               (fun key oid =>
                  oid <> []
                  /\ exists oval, oval <> [] /\ key = strings_ToUpper U oval)
               opts)
       (foundStatusPropOptions cat).

(** A [propCatalog] as the builders read it presents a catalog that was
    found: the same lists, and the status properties of the map in the
    order of some range over it. *)
Definition presents (c : propCatalog) (cat : foundCatalog) : Prop :=
  PersonPropIDs c = foundPersonPropIDs cat
  /\ MultiPersonPropIDs c = foundMultiPersonPropIDs cat
  /\ DatePropIDs c = foundDatePropIDs cat
  /\ StatusPropOptions c ≡ₚ map_to_list (foundStatusPropOptions cat).

(** A stand-in for the decoder of the card properties, to run examples
    with: the text [board1] decodes to a person property [a1] and a
    select property [s1] named STATUS with the option [o1] of value
    Done; nothing else decodes. *)
Definition sampleProps (text : gostring)
  : option (list (gmap gostring jvalue)) :=
  if gostring_eqb text (runes "board1")
  then Some
         [ {[ runes "id" := JString (runes "a1");
              runes "type" := JString (runes "person") ]};
           {[ runes "id" := JString (runes "s1");
              runes "type" := JString (runes "select");
              runes "name" := JString (runes "STATUS");
              runes "options" :=
                JArray [JObject {[ runes "id" := JString (runes "o1");
                                   runes "value" := JString (runes "Done") ]}]
           ]} ]
  else None.

(** What the discovery finds in a boards table with the board [board1]
    and a board that does not decode. *)
Definition sampleFound : foundCatalog :=
  {| foundPersonPropIDs := [runes "a1"];
     foundMultiPersonPropIDs := [];
     foundStatusPropOptions :=
       {[ runes "s1" := {[ runes "DONE" := runes "o1" ]} ]};
     foundDatePropIDs := [] |}.

(* ================================================================= *)
(** * Part II: properties *)
(* ================================================================= *)

(** ** Strings *)

Lemma HasPrefix_spec (s p : gostring) :
  strings_HasPrefix s p = true <-> exists r, s = p ++ r.
Proof.
  revert s. induction p as [|x p IH]; intros s; simpl.
  - split; [intros _; by exists s | done].
  - destruct s as [|c s].
    + split; [done | intros [r Hr]; discriminate].
    + rewrite andb_true_iff, Z.eqb_eq, IH. split.
      * intros [-> [r ->]]. by exists r.
      * intros [r Hr]. injection Hr as -> ->. eauto.
Qed.

Lemma HasPrefix_app (p r : gostring) : strings_HasPrefix (p ++ r) p = true.
Proof. apply HasPrefix_spec. by exists r. Qed.

Lemma Contains_spec (s sub : gostring) :
  strings_Contains s sub = true <-> contains sub s.
Proof.
  unfold contains. induction s as [|c s IH].
  - simpl. rewrite orb_false_r, HasPrefix_spec. split.
    + intros [r Hr]. by exists [], r.
    + intros [pre [post H]]. destruct pre; [by exists post | discriminate].
  - cbn [strings_Contains]. rewrite orb_true_iff, IH, HasPrefix_spec. split.
    + intros [[r Hr] | [pre [post H]]].
      * by exists [], r.
      * exists (c :: pre), post. by rewrite H.
    + intros [pre [post H]]. destruct pre as [|c' pre].
      * left. by exists post.
      * right. injection H as -> H. by exists pre, post.
Qed.

Lemma Contains_false (s sub : gostring) :
  strings_Contains s sub = false <-> ~ contains sub s.
Proof. rewrite <- Contains_spec. by destruct (strings_Contains s sub). Qed.

Lemma contains_map (f : rune -> rune) (sub s : gostring) :
  contains sub s -> contains (List.map f sub) (List.map f s).
Proof.
  intros [pre [post ->]]. exists (List.map f pre), (List.map f post).
  by rewrite !List.map_app.
Qed.

Lemma contains_rev (sub s : gostring) :
  contains sub s -> contains (List.rev sub) (List.rev s).
Proof.
  intros [pre [post ->]]. exists (List.rev post), (List.rev pre).
  by rewrite !List.rev_app_distr, <- app_assoc.
Qed.

(** Trimming takes nothing away from a substring that starts and ends
    with a code point the trimming keeps. *)
Lemma contains_trimLeft (f : rune -> bool) (c : rune) (sub s : gostring) :
  f c = false -> contains (c :: sub) s -> contains (c :: sub) (trimLeft f s).
Proof.
  intros Hc. induction s as [|x s IH]; intros [pre [post H]].
  - destruct pre; discriminate.
  - simpl. destruct (f x) eqn:Hx; [|by exists pre, post].
    apply IH. destruct pre as [|y pre].
    + injection H as -> _. congruence.
    + injection H as _ ->. by exists pre, post.
Qed.

Lemma contains_trimRight (f : rune -> bool) (c : rune) (sub s : gostring) :
  f c = false ->
  contains (sub ++ [c]) s -> contains (sub ++ [c]) (trimRight f s).
Proof.
  intros Hc H. unfold trimRight.
  apply contains_rev in H. rewrite List.rev_app_distr in H. simpl in H.
  apply (contains_trimLeft f) in H; [|done].
  apply contains_rev in H. simpl in H.
  by rewrite List.rev_involutive in H.
Qed.

Lemma contains_TrimSpace (sub s : gostring) :
  sub <> [] ->
  List.forallb (fun c => negb (unicode_IsSpace c)) sub = true ->
  contains sub s -> contains sub (strings_TrimSpace s).
Proof.
  intros Hne Hsp H. unfold strings_TrimSpace.
  destruct sub as [|c sub]; [done|].
  assert (Hc : unicode_IsSpace c = false).
  { simpl in Hsp. apply andb_true_iff in Hsp as [Hsp _].
    by apply negb_true_iff in Hsp. }
  apply (contains_trimLeft unicode_IsSpace) in H; [|done].
  destruct (exists_last (l := c :: sub)) as [sub' [d Hd]]; [done|].
  rewrite Hd in *.
  apply contains_trimRight; [|done].
  rewrite List.forallb_app in Hsp. apply andb_true_iff in Hsp as [_ Hsp].
  simpl in Hsp. rewrite andb_true_r in Hsp. by apply negb_true_iff in Hsp.
Qed.

Lemma ToUpper_app (U : UnicodeTables) (a b : gostring) :
  strings_ToUpper U (a ++ b) = strings_ToUpper U a ++ strings_ToUpper U b.
Proof. apply List.map_app. Qed.

Lemma ToLower_app (U : UnicodeTables) (a b : gostring) :
  strings_ToLower U (a ++ b) = strings_ToLower U a ++ strings_ToLower U b.
Proof. apply List.map_app. Qed.

(** ** The word-boundary pattern *)

Lemma lastOr_cons (prev : option rune) (c : rune) (pre : gostring) :
  lastOr prev (c :: pre) = lastOr (Some c) pre.
Proof.
  unfold lastOr. destruct pre as [|y pre]; [done|].
  rewrite last_cons_cons. destruct (last (y :: pre)) eqn:E; [done|].
  by apply last_None in E.
Qed.

Lemma isKeyword_inv (kw : gostring) :
  isKeyword kw = true ->
  exists k kw', kw = k :: kw' /\ isWordChar k = true
                /\ (exists l, last kw = Some l /\ isWordChar l = true).
Proof.
  destruct kw as [|k kw']; [done|]. intros H. simpl in H.
  exists k, kw'. split; [done|].
  apply andb_true_iff in H as [Hk Hkw]. split; [done|].
  destruct (exists_last (l := k :: kw')) as [init [l Hl]]; [done|].
  exists l. rewrite Hl, last_snoc. split; [done|].
  assert (H : List.forallb isWordChar (k :: kw') = true)
    by (simpl; by rewrite Hk, Hkw).
  rewrite Hl, List.forallb_app in H. apply andb_true_iff in H as [_ H].
  simpl in H. by rewrite andb_true_r in H.
Qed.

Lemma matchHere_keyword (prev : option rune) (kw post : gostring) :
  isKeyword kw = true ->
  matchHere prev (kw ++ post) kw
  = negb (isWordAt prev) && negb (isWordAt (head post)).
Proof.
  intros Hkw. destruct (isKeyword_inv kw Hkw) as (k & kw' & -> & Hk & l & Hl & Hlw).
  unfold matchHere. rewrite HasPrefix_app, Hl.
  rewrite List.skipn_app, List.skipn_all, Nat.sub_diag. simpl.
  unfold wordBoundary. simpl. rewrite Hk, Hlw, drop_0.
  by destruct (isWordAt prev), (isWordAt (head post)).
Qed.

Lemma matchHere_prefix (prev : option rune) (s kw : gostring) :
  matchHere prev s kw = true -> exists post, s = kw ++ post.
Proof.
  unfold matchHere. intros H.
  apply andb_true_iff in H as [H _]. apply andb_true_iff in H as [_ H].
  by apply HasPrefix_spec.
Qed.

Lemma matchFrom_spec (kw : gostring) (s : gostring) (prev : option rune) :
  isKeyword kw = true ->
  matchFrom prev s kw = true
  <-> exists pre post,
        s = pre ++ kw ++ post
        /\ isWordAt (lastOr prev pre) = false
        /\ isWordAt (head post) = false.
Proof.
  intros Hkw. revert prev. induction s as [|c s IH]; intros prev.
  - cbn [matchFrom]. rewrite orb_false_r. split.
    + intros H. destruct (matchHere_prefix _ _ _ H) as [post Hp].
      rewrite Hp, matchHere_keyword in H by done.
      apply andb_true_iff in H as [H1 H2].
      exists [], post. by rewrite (negb_true_iff _), (negb_true_iff _) in *.
    + intros (pre & post & H & H1 & H2).
      destruct pre as [|x pre]; [|discriminate]. simpl in H.
      rewrite H, matchHere_keyword by done. unfold lastOr in H1. simpl in H1.
      by rewrite H1, H2.
  - cbn [matchFrom]. rewrite orb_true_iff, IH. split.
    + intros [H | (pre & post & H & H1 & H2)].
      * destruct (matchHere_prefix _ _ _ H) as [post Hp].
        rewrite Hp, matchHere_keyword in H by done.
        apply andb_true_iff in H as [H1 H2].
        exists [], post. by rewrite (negb_true_iff _), (negb_true_iff _) in *.
      * exists (c :: pre), post. rewrite H. split; [done|]. split; [|done].
        by rewrite lastOr_cons.
    + intros (pre & post & H & H1 & H2). destruct pre as [|x pre].
      * left. simpl in H. rewrite H, matchHere_keyword by done.
        unfold lastOr in H1. simpl in H1. by rewrite H1, H2.
      * right. injection H as -> H. exists pre, post. split; [done|].
        split; [|done]. by rewrite lastOr_cons in H1.
Qed.

Lemma wordMatch_spec (kw s : gostring) :
  isKeyword kw = true ->
  regexp_wordMatch kw s = true <-> wholeWord kw s.
Proof.
  intros Hkw. unfold regexp_wordMatch, wholeWord.
  rewrite matchFrom_spec by done. unfold lastOr.
  split; intros (pre & post & H & H1 & H2); exists pre, post;
    (split; [done|]); (split; [|done]); by destruct (last pre).
Qed.

Lemma wordMatch_false (kw s : gostring) :
  isKeyword kw = true ->
  regexp_wordMatch kw s = false <-> ~ wholeWord kw s.
Proof.
  intros Hkw. rewrite <- wordMatch_spec by done.
  by destruct (regexp_wordMatch kw s).
Qed.

Lemma forbiddenKeywords_keywords (kw : gostring) :
  kw ∈ forbiddenKeywords -> isKeyword kw = true.
Proof.
  intros H. unfold forbiddenKeywords in H.
  repeat (apply elem_of_cons in H as [-> | H]; [by vm_compute|]).
  by apply elem_of_nil in H.
Qed.
(** ** The validator *)

Lemma find_first {A : Type} (f : A -> bool) (before : list A) (x : A)
  (after : list A) :
  (forall y, y ∈ before -> f y = false) -> f x = true ->
  List.find f (before ++ x :: after) = Some x.
Proof.
  induction before as [|y before IH]; intros Hb Hx; simpl.
  - by rewrite Hx.
  - rewrite (Hb y) by left. apply IH; [|done].
    intros z Hz. apply Hb. by right.
Qed.

Lemma find_none_iff {A : Type} (f : A -> bool) (l : list A) :
  List.find f l = None <-> forall y, y ∈ l -> f y = false.
Proof.
  induction l as [|x l IH]; simpl.
  - split; [intros _ y Hy; by apply elem_of_nil in Hy | done].
  - destruct (f x) eqn:Hx.
    + split; [done|]. intros H. rewrite (H x) in Hx by left. done.
    + rewrite IH. split.
      * intros H y Hy. apply elem_of_cons in Hy as [-> | Hy]; auto.
      * intros H y Hy. apply H. by right.
Qed.

Lemma validate_nonempty (U : UnicodeTables) (s : gostring) :
  s <> [] ->
  validateReadOnlySQL U s
  = if negb (strings_HasPrefix (upperTrimmed U s) (runes "SELECT"))
    then Some (ErrGeneratedSQLNotSelect s)
    else match List.find (fun kw => regexp_wordMatch kw (upperTrimmed U s))
                         forbiddenKeywords with
         | Some kw => Some (ErrGeneratedSQLForbidden kw)
         | None =>
           match List.find (fun kw => strings_Contains (upperTrimmed U s) kw)
                           forbiddenChars with
           | Some kw => Some (ErrGeneratedSQLChars kw)
           | None => None
           end
         end.
Proof. by destruct s. Qed.

Lemma asciiUpper_ToUpper (U : UnicodeTables) (c : rune) :
  c <= 127 -> unicode_ToUpper U c = asciiUpper c.
Proof.
  intros H. unfold unicode_ToUpper, asciiUpper.
  by rewrite (proj2 (Z.leb_le _ _) H).
Qed.

(** The forbidden character sequences survive trimming and
    upper-casing. *)
Lemma forbiddenChars_upperTrimmed (U : UnicodeTables) (c s : gostring) :
  c ∈ forbiddenChars -> contains c s -> contains c (upperTrimmed U s).
Proof.
  intros Hc H. unfold upperTrimmed.
  assert (Hfix : strings_ToUpper U c = c /\ c <> []
                 /\ List.forallb (fun c => negb (unicode_IsSpace c)) c = true).
  { unfold forbiddenChars in Hc.
    repeat (apply elem_of_cons in Hc as [-> | Hc]; [by vm_compute|]).
    by apply elem_of_nil in Hc. }
  destruct Hfix as (Hup & Hne & Hsp).
  rewrite <- Hup. apply contains_map. by apply contains_TrimSpace.
Qed.

Lemma trimLeft_app_keep (f : rune -> bool) (pre rest : gostring) (c : rune) :
  f c = false -> trimLeft f (pre ++ c :: rest) = trimLeft f pre ++ c :: rest.
Proof.
  intros Hc. induction pre as [|x pre IH]; simpl.
  - by rewrite Hc.
  - by destruct (f x).
Qed.

Lemma trimRight_app_keep (f : rune -> bool) (a post : gostring) (c : rune) :
  f c = false -> trimRight f (a ++ c :: post) = a ++ c :: trimRight f post.
Proof.
  intros Hc. unfold trimRight.
  rewrite List.rev_app_distr. simpl. rewrite <- app_assoc. simpl.
  rewrite trimLeft_app_keep by done.
  rewrite List.rev_app_distr. simpl.
  by rewrite List.rev_involutive, <- app_assoc.
Qed.

Lemma last_rev (l : gostring) : last (List.rev l) = head l.
Proof. destruct l as [|x l]; [done|]. simpl. by rewrite last_snoc. Qed.

Lemma head_rev (l : gostring) : head (List.rev l) = last l.
Proof. by rewrite <- (List.rev_involutive l) at 2; rewrite last_rev. Qed.

Lemma trimLeft_last (f : rune -> bool) (s : gostring) :
  trimLeft f s = [] \/ last (trimLeft f s) = last s.
Proof.
  induction s as [|x s IH]; simpl; [by left|].
  destruct (f x); [|by right].
  destruct IH as [IH | IH]; [by left|].
  destruct s as [|y s]; [by left | right].
  by rewrite IH, last_cons_cons.
Qed.

Lemma trimRight_head (f : rune -> bool) (s : gostring) :
  trimRight f s = [] \/ head (trimRight f s) = head s.
Proof.
  unfold trimRight. destruct (trimLeft_last f (List.rev s)) as [H | H].
  - left. by rewrite H.
  - right. by rewrite head_rev, H, last_rev.
Qed.

Lemma last_map (f : rune -> rune) (l : gostring) :
  last (List.map f l) = option_map f (last l).
Proof.
  induction l as [|x l IH]; [done|]. destruct l as [|y l]; [done|].
  change (List.map f (x :: y :: l)) with (f x :: f y :: List.map f l).
  rewrite !last_cons_cons. exact IH.
Qed.

Lemma head_map (f : rune -> rune) (l : gostring) :
  head (List.map f l) = option_map f (head l).
Proof. by destruct l. Qed.

Lemma wordChar_ascii (c : rune) :
  isWordChar c = true -> c <= 127 /\ unicode_IsSpace c = false.
Proof.
  unfold isWordChar, unicode_IsSpace. intros H. split.
  - repeat (apply orb_true_iff in H as [H | H]);
      try apply andb_true_iff in H as [H1 H2]; lia.
  - repeat (apply orb_true_iff in H as [H | H]);
      try apply andb_true_iff in H as [H1 H2];
      repeat (apply orb_false_iff; split); try apply andb_false_iff; lia.
Qed.

Lemma asciiUpper_wordChar (c : rune) :
  isWordChar (asciiUpper c) = true -> isWordChar c = true.
Proof.
  unfold asciiUpper. destruct ((97 <=? c) && (c <=? 122)) eqn:E; [|done].
  intros _. unfold isWordChar. rewrite E. by rewrite !orb_true_r.
Qed.

Lemma plainBoundary_upper (U : UnicodeTables) (o : option rune) :
  plainBoundary o = true ->
  isWordAt (option_map (unicode_ToUpper U) o) = false.
Proof.
  destruct o as [c|]; [|done]. simpl. intros H.
  apply andb_true_iff in H as [H1 H2]. apply Z.leb_le in H1.
  rewrite asciiUpper_ToUpper by done. apply negb_true_iff in H2.
  unfold asciiUpper. destruct ((97 <=? c) && (c <=? 122)) eqn:E; [|done].
  unfold isWordChar in H2. rewrite E in H2. by rewrite !orb_true_r in H2.
Qed.

(** A keyword written in any mix of ASCII upper and lower case, between
    plain boundaries of the given statement, is a whole word of the text
    the validator looks at. *)
Lemma wholeWord_raw (U : UnicodeTables) (kw s pre w post : gostring) :
  isKeyword kw = true ->
  s = pre ++ w ++ post ->
  List.map asciiUpper w = kw ->
  plainBoundary (last pre) = true ->
  plainBoundary (head post) = true ->
  wholeWord kw (upperTrimmed U s).
Proof.
  intros Hkw -> Hw Hpre Hpost.
  assert (Hall : Forall (fun c => isWordChar c = true) w).
  { assert (Hf : List.forallb isWordChar kw = true)
      by (destruct kw; [done | exact Hkw]).
    rewrite <- Hw, List.forallb_forall in Hf.
    apply Forall_forall. intros c Hc. apply asciiUpper_wordChar, Hf.
    apply List.in_map. by apply list_elem_of_In. }
  assert (Hup : strings_ToUpper U w = kw).
  { rewrite <- Hw. unfold strings_ToUpper. apply List.map_ext_in.
    intros c Hc. apply asciiUpper_ToUpper.
    apply list_elem_of_In in Hc.
    rewrite Forall_forall in Hall. by apply wordChar_ascii, Hall. }
  destruct w as [|c w']; [by subst|].
  destruct (exists_last (l := c :: w')) as [init [d Hd]]; [done|].
  assert (Hc : unicode_IsSpace c = false).
  { apply Forall_cons in Hall as [Hc _]. by apply wordChar_ascii. }
  assert (Hdsp : unicode_IsSpace d = false).
  { rewrite Hd in Hall. apply Forall_app in Hall as [_ Hall].
    apply Forall_cons in Hall as [Hx _]. by apply wordChar_ascii. }
  unfold upperTrimmed, strings_TrimSpace.
  change ((c :: w') ++ post) with (c :: (w' ++ post)).
  rewrite trimLeft_app_keep by done.
  change (c :: w' ++ post) with ((c :: w') ++ post).
  rewrite Hd, <- !app_assoc. simpl.
  rewrite (app_assoc _ init), trimRight_app_keep by done.
  rewrite <- app_assoc.
  change (init ++ d :: ?x) with (init ++ [d] ++ x).
  rewrite (app_assoc init), <- Hd.
  rewrite !ToUpper_app, Hup.
  exists (strings_ToUpper U (trimLeft unicode_IsSpace pre)),
         (strings_ToUpper U (trimRight unicode_IsSpace post)).
  split; [done|]. unfold strings_ToUpper. rewrite last_map, head_map. split.
  - destruct (trimLeft_last unicode_IsSpace pre) as [-> | ->]; [done|].
    by apply plainBoundary_upper.
  - destruct (trimRight_head unicode_IsSpace post) as [-> | ->]; [done|].
    by apply plainBoundary_upper.
Qed.

Lemma find_some_first {A : Type} (f : A -> bool) (l : list A) (x : A) :
  List.find f l = Some x ->
  exists before after,
    l = before ++ x :: after /\ f x = true
    /\ forall y, y ∈ before -> f y = false.
Proof.
  induction l as [|y l IH]; [done|]. simpl. destruct (f y) eqn:Hy.
  - intros [= ->]. exists [], l. split; [done|]. split; [done|].
    intros z Hz. by apply elem_of_nil in Hz.
  - intros H. destruct (IH H) as (before & after & -> & Hx & Hb).
    exists (y :: before), after. split; [done|]. split; [done|].
    intros z Hz. apply elem_of_cons in Hz as [-> | Hz]; auto.
Qed.

(** What [validateReadOnlySQL] returns once the statement is known to
    be non-empty and to start with SELECT. *)
Lemma validate_select (U : UnicodeTables) (s : gostring) :
  s <> [] ->
  strings_HasPrefix (upperTrimmed U s) (runes "SELECT") = true ->
  validateReadOnlySQL U s
  = match List.find (fun kw => regexp_wordMatch kw (upperTrimmed U s))
                    forbiddenKeywords with
    | Some kw => Some (ErrGeneratedSQLForbidden kw)
    | None =>
      match List.find (fun kw => strings_Contains (upperTrimmed U s) kw)
                      forbiddenChars with
      | Some kw => Some (ErrGeneratedSQLChars kw)
      | None => None
      end
    end.
Proof. intros Hne Hp. by rewrite validate_nonempty, Hp. Qed.

Lemma keywords_none (up : gostring) :
  List.find (fun kw => regexp_wordMatch kw up) forbiddenKeywords = None
  <-> forall kw, kw ∈ forbiddenKeywords -> ~ wholeWord kw up.
Proof.
  rewrite find_none_iff. split; intros H kw Hkw.
  - apply wordMatch_false; [by apply forbiddenKeywords_keywords | auto].
  - apply wordMatch_false; [by apply forbiddenKeywords_keywords | auto].
Qed.

Lemma chars_none (up : gostring) :
  List.find (fun c => strings_Contains up c) forbiddenChars = None
  <-> forall c, c ∈ forbiddenChars -> ~ contains c up.
Proof.
  rewrite find_none_iff. split; intros H c Hc; apply Contains_false; auto.
Qed.

(** The keyword the validator names is the first of its list that
    stands in the text as a whole word. *)
Lemma validate_keyword (U : UnicodeTables) (s : gostring) :
  s <> [] ->
  strings_HasPrefix (upperTrimmed U s) (runes "SELECT") = true ->
  forall kw, kw ∈ forbiddenKeywords -> wholeWord kw (upperTrimmed U s) ->
  exists before kw' after,
    forbiddenKeywords = before ++ kw' :: after
    /\ wholeWord kw' (upperTrimmed U s)
    /\ (forall k, k ∈ before -> ~ wholeWord k (upperTrimmed U s))
    /\ validateReadOnlySQL U s = Some (ErrGeneratedSQLForbidden kw').
Proof.
  intros Hne Hp kw Hkw Hw. rewrite validate_select by done.
  destruct (List.find _ forbiddenKeywords) as [kw'|] eqn:Hf.
  - destruct (find_some_first _ _ _ Hf) as (before & after & Hl & Hm & Hb).
    assert (Hin : forall k, k ∈ before -> k ∈ forbiddenKeywords).
    { intros k Hk. rewrite Hl. apply elem_of_app. by left. }
    exists before, kw', after. split; [done|]. split.
    + apply wordMatch_spec; [|done]. apply forbiddenKeywords_keywords.
      rewrite Hl. apply elem_of_app. right. by left.
    + split; [|done]. intros k Hk.
      apply wordMatch_false; [by apply forbiddenKeywords_keywords, Hin | auto].
  - exfalso. by apply (proj1 (keywords_none _) Hf kw).
Qed.

Lemma validate_chars (U : UnicodeTables) (s : gostring) :
  s <> [] ->
  strings_HasPrefix (upperTrimmed U s) (runes "SELECT") = true ->
  (forall kw, kw ∈ forbiddenKeywords -> ~ wholeWord kw (upperTrimmed U s)) ->
  forall c, c ∈ forbiddenChars -> contains c (upperTrimmed U s) ->
  exists before c' after,
    forbiddenChars = before ++ c' :: after
    /\ contains c' (upperTrimmed U s)
    /\ (forall k, k ∈ before -> ~ contains k (upperTrimmed U s))
    /\ validateReadOnlySQL U s = Some (ErrGeneratedSQLChars c').
Proof.
  intros Hne Hp Hkw c Hc Hw. rewrite validate_select by done.
  rewrite (proj2 (keywords_none _) Hkw).
  destruct (List.find _ forbiddenChars) as [c'|] eqn:Hf.
  - destruct (find_some_first _ _ _ Hf) as (before & after & Hl & Hm & Hb).
    exists before, c', after. split; [done|]. split; [by apply Contains_spec|].
    split; [|done]. intros k Hk. apply Contains_false. auto.
  - exfalso. by apply (proj1 (chars_none _) Hf c).
Qed.

Lemma validate_None (U : UnicodeTables) (s : gostring) :
  validateReadOnlySQL U s = None
  <-> s <> []
      /\ strings_HasPrefix (upperTrimmed U s) (runes "SELECT") = true
      /\ (forall kw, kw ∈ forbiddenKeywords ->
                     ~ wholeWord kw (upperTrimmed U s))
      /\ (forall c, c ∈ forbiddenChars -> ~ contains c (upperTrimmed U s)).
Proof.
  split.
  - intros H. assert (Hne : s <> []) by (by intros ->).
    destruct (strings_HasPrefix (upperTrimmed U s) (runes "SELECT")) eqn:Hp;
      [|by rewrite validate_nonempty, Hp in H].
    rewrite validate_select in H by done.
    destruct (List.find _ forbiddenKeywords) eqn:Hk; [done|].
    destruct (List.find _ forbiddenChars) eqn:Hc; [done|].
    split; [done|]. split; [done|].
    split; [by apply keywords_none | by apply chars_none].
  - intros (Hne & Hp & Hk & Hc). rewrite validate_select by done.
    by rewrite (proj2 (keywords_none _) Hk), (proj2 (chars_none _) Hc).
Qed.

(** C1. [validateReadOnlySQL] returns the empty-statement error on the
    empty string; the not-a-SELECT error when the trimmed, upper-cased
    text does not start with SELECT; the forbidden-keyword error naming
    the first of DELETE, UPDATE, DROP, INSERT, TRUNCATE, ALTER that stands
    in that text as a whole word; the forbidden-character error for the
    first of [;], [--], [/*] that the text contains; each rule only when
    the rules before it pass.  It returns nil exactly when all four rules
    pass.  A keyword in any mix of ASCII case, between plain boundaries
    of the given statement, and a forbidden character sequence anywhere
    in the given statement, always yield an error.  The statement
    [SELECT id, title FROM blocks WHERE type='card'] is accepted. *)
Theorem validateReadOnlySQL_rules (U : UnicodeTables) (sqlText : gostring) :
  let up := upperTrimmed U sqlText in
  let verdict := validateReadOnlySQL U sqlText in
  (sqlText = [] -> verdict = Some ErrGeneratedSQLEmpty)
  /\ (sqlText <> [] -> strings_HasPrefix up (runes "SELECT") = false ->
      verdict = Some (ErrGeneratedSQLNotSelect sqlText))
  /\ (forall before kw after,
        forbiddenKeywords = before ++ kw :: after ->
        sqlText <> [] -> strings_HasPrefix up (runes "SELECT") = true ->
        (forall k, k ∈ before -> ~ wholeWord k up) ->
        wholeWord kw up ->
        verdict = Some (ErrGeneratedSQLForbidden kw))
  /\ (forall before c after,
        forbiddenChars = before ++ c :: after ->
        sqlText <> [] -> strings_HasPrefix up (runes "SELECT") = true ->
        (forall kw, kw ∈ forbiddenKeywords -> ~ wholeWord kw up) ->
        (forall k, k ∈ before -> ~ contains k up) ->
        contains c up ->
        verdict = Some (ErrGeneratedSQLChars c))
  /\ (verdict = None <->
      sqlText <> [] /\ strings_HasPrefix up (runes "SELECT") = true
      /\ (forall kw, kw ∈ forbiddenKeywords -> ~ wholeWord kw up)
      /\ (forall c, c ∈ forbiddenChars -> ~ contains c up))
  /\ (forall kw pre w post,
        kw ∈ forbiddenKeywords ->
        sqlText = pre ++ w ++ post -> List.map asciiUpper w = kw ->
        plainBoundary (last pre) = true ->
        plainBoundary (head post) = true ->
        wholeWord kw up /\ verdict <> None)
  /\ (forall c,
        c ∈ forbiddenChars -> contains c sqlText ->
        contains c up /\ verdict <> None)
  /\ validateReadOnlySQL U
       (runes "SELECT id, title FROM blocks WHERE type='card'") = None.
Proof.
  intros up verdict. subst up verdict.
  split; [by intros ->|].
  split; [intros Hne Hp; by rewrite validate_nonempty, Hp|].
  split.
  { intros before kw after Hl Hne Hp Hb Hw. rewrite validate_select by done.
    rewrite Hl, (find_first _ before kw after); [done| |].
    - intros k Hk. apply wordMatch_false; [|auto].
      apply forbiddenKeywords_keywords. rewrite Hl. apply elem_of_app. by left.
    - apply wordMatch_spec; [|done]. apply forbiddenKeywords_keywords.
      rewrite Hl. apply elem_of_app. right. by left. }
  split.
  { intros before c after Hl Hne Hp Hk Hb Hc. rewrite validate_select by done.
    rewrite (proj2 (keywords_none _) Hk).
    rewrite Hl, (find_first _ before c after); [done| |].
    - intros k Hk'. apply Contains_false. auto.
    - by apply Contains_spec. }
  split; [apply validate_None|].
  split.
  { intros kw pre w post Hkw Hs Hw Hpre Hpost.
    assert (Hword : wholeWord kw (upperTrimmed U sqlText)).
    { apply (wholeWord_raw U kw sqlText pre w post); try done.
      by apply forbiddenKeywords_keywords. }
    split; [done|]. intros HN. apply validate_None in HN as (_ & _ & HN & _).
    by apply (HN kw). }
  split.
  { intros c Hc Hs.
    assert (Hin : contains c (upperTrimmed U sqlText))
      by (by apply forbiddenChars_upperTrimmed).
    split; [done|]. intros HN. apply validate_None in HN as (_ & _ & _ & HN).
    by apply (HN c). }
  by vm_compute.
Qed.

(** C1, counterexample.  In [SELECT 1 FROM t WHERE a='ſDROP'] the
    keyword DROP stands as a whole word, between the long s, which is no
    word character, and the quote.  [strings.ToUpper] turns the long s
    into the letter S, so the text that the validator searches reads
    [SDROP], where DROP follows a word character: no rule fires and the
    statement is accepted. *)
Lemma validator_accepts_keyword_after_long_s :
  wholeWord (runes "DROP") (runes "SELECT 1 FROM t WHERE a='ſDROP'")
  /\ upperTrimmed longSTables (runes "SELECT 1 FROM t WHERE a='ſDROP'")
     = runes "SELECT 1 FROM T WHERE A='SDROP'"
  /\ validateReadOnlySQL longSTables
       (runes "SELECT 1 FROM t WHERE a='ſDROP'") = None.
Proof.
  split; [|split; vm_compute; reflexivity].
  exists (runes "SELECT 1 FROM t WHERE a='ſ"), (runes "'").
  vm_compute. repeat split; reflexivity.
Qed.

(** ** The intent classifier *)

Lemma asciiLower_ToLower (U : UnicodeTables) (c : rune) :
  c <= 127 -> unicode_ToLower U c = asciiLower c.
Proof.
  intros H. unfold unicode_ToLower, asciiLower.
  by rewrite (proj2 (Z.leb_le _ _) H).
Qed.

Lemma asciiLower_wordChar (c : rune) :
  isWordChar (asciiLower c) = true -> isWordChar c = true.
Proof.
  unfold asciiLower. destruct ((65 <=? c) && (c <=? 90)) eqn:E; [|done].
  intros _. unfold isWordChar. rewrite E. by rewrite !orb_true_r.
Qed.

(** A token of word characters, in any mix of ASCII case, is still
    there after trimming and lower-casing. *)
Lemma contains_lowerTrimmed (U : UnicodeTables) (token w s : gostring) :
  isKeyword token = true ->
  List.map asciiLower w = token ->
  contains w s ->
  contains token (strings_ToLower U (strings_TrimSpace s)).
Proof.
  intros Htok Hw Hin.
  assert (Hall : forall c, c ∈ w -> isWordChar c = true).
  { assert (Hf : List.forallb isWordChar token = true)
      by (destruct token; [done | exact Htok]).
    rewrite <- Hw, List.forallb_forall in Hf.
    intros c Hc. apply asciiLower_wordChar, Hf.
    apply List.in_map. by apply list_elem_of_In. }
  assert (Hlow : strings_ToLower U w = token).
  { rewrite <- Hw. unfold strings_ToLower. apply List.map_ext_in.
    intros c Hc. apply asciiLower_ToLower.
    apply list_elem_of_In in Hc. by apply wordChar_ascii, Hall. }
  rewrite <- Hlow. apply contains_map, contains_TrimSpace; [| |done].
  - intros ->. by subst.
  - apply List.forallb_forall. intros c Hc. apply negb_true_iff.
    apply list_elem_of_In in Hc. by apply wordChar_ascii, Hall.
Qed.

Lemma ToLower_cjk (U : UnicodeTables) (s : gostring) :
  cjkStable U ->
  List.forallb (fun r => (19968 <=? r) && (r <=? 40959)) s = true ->
  strings_ToLower U s = s.
Proof.
  intros HU Hs. unfold strings_ToLower.
  rewrite <- (List.map_id s) at 2. apply List.map_ext_in.
  intros r Hr. rewrite List.forallb_forall in Hs.
  specialize (Hs r Hr). apply andb_true_iff in Hs as [H1 H2].
  unfold unicode_ToLower.
  destruct (r <=? 127) eqn:E; [lia|]. apply HU. lia.
Qed.

(** A run of ideographs in the question is still there after trimming
    and lower-casing. *)
Lemma contains_cjk (U : UnicodeTables) (sub s : gostring) :
  cjkStable U -> sub <> [] ->
  List.forallb (fun r => (19968 <=? r) && (r <=? 40959)) sub = true ->
  contains sub s ->
  contains sub (strings_ToLower U (strings_TrimSpace s)).
Proof.
  intros HU Hne Hs Hin. rewrite <- (ToLower_cjk U sub) by done.
  apply contains_map, contains_TrimSpace; [done| |done].
  apply List.forallb_forall. intros c Hc. rewrite List.forallb_forall in Hs.
  specialize (Hs c Hc). apply andb_true_iff in Hs as [H1 H2].
  apply negb_true_iff. unfold unicode_IsSpace.
  repeat (apply orb_false_iff; split); try apply andb_false_iff; lia.
Qed.

Lemma classifyIntent_keyword (U : UnicodeTables) (E : Env)
  (question : gostring) (t : list event) :
  matchesKeywordRule U question = true ->
  classifyIntent U E question t = (Ok intentQueryData, t).
Proof.
  unfold matchesKeywordRule, classifyIntent. intros H.
  apply orb_true_iff in H as [H | H]; rewrite H; [done|].
  by destruct (isMyTasks _).
Qed.

Lemma callQwenInternal_trace (E : Env)
  (prompt : gostring) (t : list event) :
  snd (callQwenInternal E prompt t) = t ++ [CallQwen prompt].
Proof.
  unfold callQwenInternal, bind, emit, history, ret. simpl.
  destruct (strings_TrimSpace _); [done|].
  destruct (qwen E _ _ _) as [msg | code body choices]; [done|].
  destruct (negb _); [done|]. by destruct choices as [[|content rest]|].
Qed.

(** C5. A question that matches a keyword rule of the classifier is
    classified as query_data and the trace is left as it was: the LLM is
    not called.  Every question that contains 我的任务 matches the first
    rule. *)
Theorem classifyIntent_keyword_rules (U : UnicodeTables) (E : Env)
  (question : gostring) (t : list event) :
  (matchesKeywordRule U question = true ->
   classifyIntent U E question t = (Ok intentQueryData, t)
   /\ llmCalls (snd (classifyIntent U E question t)) = llmCalls t)
  /\ (cjkStable U -> contains (runes "我的任务") question ->
      matchesKeywordRule U question = true
      /\ classifyIntent U E question t = (Ok intentQueryData, t)).
Proof.
  split.
  - intros H. by rewrite classifyIntent_keyword.
  - intros HU Hin.
    assert (Hq : matchesKeywordRule U question = true).
    { unfold matchesKeywordRule, isMyTasks.
      assert (Hc : strings_Contains
                     (strings_ToLower U (strings_TrimSpace question))
                     (runes "我的任务") = true).
      { apply Contains_spec, contains_cjk; try done. }
      rewrite Hc. by rewrite orb_true_r. }
    split; [done|]. by apply classifyIntent_keyword.
Qed.

Lemma llmCalls_snoc_call (t : list event) (prompt : gostring) :
  llmCalls (t ++ [CallQwen prompt]) = S (llmCalls t).
Proof.
  unfold llmCalls. rewrite List.filter_app, List.length_app. simpl. lia.
Qed.

Lemma classifyIntent_llm (U : UnicodeTables) (E : Env)
  (question : gostring) (t : list event) :
  matchesKeywordRule U question = false ->
  classifyIntent U E question t
  = (match fst (callQwenInternal E (classifyPrompt question) t) with
     | Err e => Err e
     | Ok out =>
       if strings_Contains (strings_ToLower U (strings_TrimSpace out))
                           intentQueryData
       then Ok intentQueryData else Ok intentChat
     end,
     t ++ [CallQwen (classifyPrompt question)]).
Proof.
  unfold matchesKeywordRule, classifyIntent. intros H.
  apply orb_false_iff in H as [H1 H2]. rewrite H1, H2.
  unfold bind at 1.
  pose proof (callQwenInternal_trace E (classifyPrompt question) t) as Ht.
  destruct (callQwenInternal E (classifyPrompt question) t) as [[out|e] t'].
  - simpl in *. subst t'.
    destruct (strings_Contains _ intentQueryData); [done|].
    by destruct (strings_Contains _ intentChat).
  - simpl in *. by subst t'.
Qed.

(** C6. A question that matches no keyword rule costs exactly one call
    of the LLM.  An error of that call is the error of the classifier.
    Otherwise the answer is trimmed and lower-cased: if it then contains
    query_data the intent is query_data; if not, the intent is chat,
    whether the answer contains chat or neither token, and no error is
    returned.  The tokens are found in any mix of ASCII case. *)
Theorem classifyIntent_llm_fallback (U : UnicodeTables) (E : Env)
  (question : gostring) (t : list event) :
  matchesKeywordRule U question = false ->
  let call := fst (callQwenInternal E (classifyPrompt question) t) in
  let intent := fst (classifyIntent U E question t) in
  snd (classifyIntent U E question t)
  = t ++ [CallQwen (classifyPrompt question)]
  /\ llmCalls (snd (classifyIntent U E question t)) = S (llmCalls t)
  /\ (forall e, call = Err e -> intent = Err e)
  /\ (forall out, call = Ok out ->
      let ans := strings_ToLower U (strings_TrimSpace out) in
      (contains intentQueryData ans -> intent = Ok intentQueryData)
      /\ (~ contains intentQueryData ans -> contains intentChat ans ->
          intent = Ok intentChat)
      /\ (~ contains intentQueryData ans -> ~ contains intentChat ans ->
          intent = Ok intentChat)
      /\ (forall w, List.map asciiLower w = intentQueryData ->
                    contains w out -> intent = Ok intentQueryData)
      /\ (forall w, List.map asciiLower w = intentChat ->
                    contains w out ->
                    contains intentChat ans
                    /\ exists i, intent = Ok i)).
Proof.
  intros H call intent. subst call intent.
  rewrite (classifyIntent_llm U E question t H). cbn [fst snd].
  split; [done|]. split; [apply llmCalls_snoc_call|].
  split; [by intros e ->|].
  intros out ->.
  split; [intros Hc; apply Contains_spec in Hc; by rewrite Hc|].
  split; [intros Hc _; apply Contains_false in Hc; by rewrite Hc|].
  split; [intros Hc _; apply Contains_false in Hc; by rewrite Hc|].
  split.
  - intros w Hw Hin.
    assert (Hc : contains intentQueryData
                   (strings_ToLower U (strings_TrimSpace out)))
      by (by apply (contains_lowerTrimmed U intentQueryData w)).
    apply Contains_spec in Hc. by rewrite Hc.
  - intros w Hw Hin. split.
    + by apply (contains_lowerTrimmed U intentChat w).
    + destruct (strings_Contains _ intentQueryData); eauto.
Qed.

(** ** The errors of the serializer *)

Lemma jsonValue_errors (v : value) (e : error) :
  jsonValue v = Err e -> exists msg, e = ErrForeign msg.
Proof.
  destruct v as [|i|s|f|bs|b|t]; cbn [jsonValue]; try discriminate.
  - destruct f as [|n|n digits dp]; cbn [jsonFloat].
    + intros [= <-]. eauto.
    + intros [= <-]. eauto.
    + destruct digits; [discriminate|].
      destruct (_ || _); discriminate.
  - unfold jsonTime.
    destruct (negb (_ =? 45)); [intros [= <-]; eauto|].
    destruct (List.rev _) as [|m2 [|m1 [|x [|h2 [|h1 [|c r]]]]]];
      try discriminate.
    destruct (_ && _); [intros [= <-]; eauto|discriminate].
Qed.

Lemma encodeAll_errors {A : Type} (enc : A -> result gostring)
  (l : list A) (e : error) :
  (forall x e', enc x = Err e' -> exists msg, e' = ErrForeign msg) ->
  encodeAll enc l = Err e -> exists msg, e = ErrForeign msg.
Proof.
  intros Henc. induction l as [|x l IH]; cbn [encodeAll]; [discriminate|].
  destruct (enc x) as [s|e'] eqn:Hx.
  - destruct (encodeAll enc l) as [ss|e'']; [discriminate|].
    intros [= <-]. apply IH. reflexivity.
  - intros [= <-]. eapply Henc, Hx.
Qed.

Lemma jsonMember_errors (kv : gostring * value) (e : error) :
  jsonMember kv = Err e -> exists msg, e = ErrForeign msg.
Proof.
  unfold jsonMember. destruct (jsonValue (snd kv)) as [s|e'] eqn:Hv;
    [discriminate|].
  intros [= <-]. eapply jsonValue_errors, Hv.
Qed.

Lemma jsonObject_errors (m : gmap gostring value) (e : error) :
  jsonObject m = Err e -> exists msg, e = ErrForeign msg.
Proof.
  unfold jsonObject.
  destruct (encodeAll jsonMember _) as [ss|e'] eqn:Hm; [discriminate|].
  intros [= <-]. eapply encodeAll_errors, Hm. apply jsonMember_errors.
Qed.

Lemma json_Marshal_errors (rows : list (gmap gostring value)) (e : error) :
  json_Marshal rows = Err e -> exists msg, e = ErrForeign msg.
Proof.
  unfold json_Marshal.
  destruct (encodeAll jsonObject rows) as [ss|e'] eqn:Hm; [discriminate|].
  intros [= <-]. eapply encodeAll_errors, Hm. apply jsonObject_errors.
Qed.

(** ** No unknown intent *)

Lemma callQwenInternal_known (E : Env) (prompt : gostring) (t : list event) :
  fst (callQwenInternal E prompt t) <> Err ErrUnknownIntent.
Proof.
  unfold callQwenInternal, bind, emit, history, ret. simpl.
  destruct (strings_TrimSpace _); [done|].
  destruct (qwen E _ _ _) as [msg | code body choices]; [done|].
  destruct (negb _); [done|]. by destruct choices as [[|content rest]|].
Qed.

Lemma validate_known (U : UnicodeTables) (s : gostring) :
  validateReadOnlySQL U s <> Some ErrUnknownIntent.
Proof.
  destruct s as [|c s]; [done|]. rewrite validate_nonempty by done.
  destruct (negb _); [done|].
  destruct (List.find _ forbiddenKeywords); [done|].
  by destruct (List.find _ forbiddenChars).
Qed.

Lemma validated_spec (U : UnicodeTables) (s : gostring) (t : list event) :
  validated U s t
  = (match validateReadOnlySQL U s with
     | Some err => Err err
     | None => Ok s
     end, t ++ [Validate s (validateReadOnlySQL U s)]).
Proof.
  unfold validated, bind, emit, ret.
  by destruct (validateReadOnlySQL U s).
Qed.

Lemma validated_known (U : UnicodeTables) (s : gostring) (t : list event) :
  fst (validated U s t) <> Err ErrUnknownIntent.
Proof.
  rewrite validated_spec. simpl.
  pose proof (validate_known U s) as H.
  destruct (validateReadOnlySQL U s) as [e|]; [|done].
  intros [= ->]. done.
Qed.

Lemma generateSQL_known (U : UnicodeTables) (E : Env)
  (schema userID question : gostring) (t : list event) :
  fst (generateSQL U E schema userID question t) <> Err ErrUnknownIntent.
Proof.
  unfold generateSQL, bind at 1.
  destruct (discoverPropertyCatalog E t) as [c t1].
  repeat (match goal with
          | |- context [if ?b then _ else _] =>
            destruct b; [apply validated_known|]
          end).
  unfold bind.
  pose proof (callQwenInternal_known E
                (generatePrompt userID schema question) t1) as H.
  destruct (callQwenInternal E _ t1) as [[out|e] t2]; simpl in *.
  - apply validated_known.
  - done.
Qed.

Lemma executeQuery_known (U : UnicodeTables) (E : Env)
  (query : gostring) (t : list event) :
  fst (executeQuery U E query t) <> Err ErrUnknownIntent.
Proof.
  unfold executeQuery, bind, emit, history, ret. simpl.
  destruct (negb _); [done|].
  destruct (sqlite E _ _ _) as [m|m|m|cols rows [|m|m]]; try done.
  destruct (json_Marshal _) as [data|e] eqn:Hm; [done|].
  destruct (json_Marshal_errors _ _ Hm) as [msg ->]. done.
Qed.

Lemma classifyIntent_values (U : UnicodeTables) (E : Env)
  (question : gostring) (t : list event) (intent : gostring) :
  fst (classifyIntent U E question t) = Ok intent ->
  intent = intentChat \/ intent = intentQueryData.
Proof.
  destruct (matchesKeywordRule U question) eqn:H.
  - rewrite classifyIntent_keyword by done. intros [= <-]. by right.
  - rewrite classifyIntent_llm by done. cbn [fst].
    destruct (fst (callQwenInternal E _ t)) as [out|e]; [|done].
    destruct (strings_Contains _ _); intros [= <-]; [by right | by left].
Qed.

Lemma classifyIntent_known (U : UnicodeTables) (E : Env)
  (question : gostring) (t : list event) :
  fst (classifyIntent U E question t) <> Err ErrUnknownIntent.
Proof.
  destruct (matchesKeywordRule U question) eqn:H.
  - by rewrite classifyIntent_keyword.
  - rewrite classifyIntent_llm by done. cbn [fst].
    pose proof (callQwenInternal_known E (classifyPrompt question) t) as Hk.
    destruct (fst (callQwenInternal E _ t)) as [out|e]; [|done].
    by destruct (strings_Contains _ _).
Qed.

(** C10. When [classifyIntent] returns no error its result is chat or
    query_data, and [PrepareRAGResponse] never returns
    [ErrUnknownIntent]: the branch that would return it is not taken,
    and no error that is passed on from a callee is this one. *)
Theorem classifyIntent_two_values (U : UnicodeTables) (E : Env)
  (userID question : gostring) (t : list event) :
  (forall intent,
     fst (classifyIntent U E question t) = Ok intent ->
     intent = intentChat \/ intent = intentQueryData)
  /\ (forall intent,
        fst (classifyIntent U E question t) = Ok intent ->
        gostring_eqb intent intentChat = false ->
        negb (gostring_eqb intent intentQueryData) = false)
  /\ fst (PrepareRAGResponse U E userID question t) <> Err ErrUnknownIntent.
Proof.
  split; [apply classifyIntent_values|]. split.
  { intros intent Hi Hc.
    destruct (classifyIntent_values U E question t intent Hi) as [-> | ->];
      [by vm_compute in Hc | by vm_compute]. }
  unfold PrepareRAGResponse, bind at 1.
  pose proof (classifyIntent_values U E question t) as Hv.
  pose proof (classifyIntent_known U E question t) as Hk.
  destruct (classifyIntent U E question t) as [[intent|e] t1]; simpl in *;
    [|done].
  destruct (Hv intent eq_refl) as [-> | ->].
  { by vm_compute. }
  change (gostring_eqb intentQueryData intentChat) with false.
  change (gostring_eqb intentQueryData intentQueryData) with true.
  cbn [negb]. unfold bind at 1.
  pose proof (generateSQL_known U E ragSchemaDDL userID question t1) as Hg.
  destruct (generateSQL U E ragSchemaDDL userID question t1)
    as [[sqlText|e] t2]; simpl in *; [|done].
  unfold bind at 1.
  pose proof (executeQuery_known U E sqlText t2) as Hx.
  destruct (executeQuery U E sqlText t2) as [[contextJSON|e] t3];
    simpl in *; [|done].
  unfold bind, ret.
  destruct (gostring_eqb _ _); [|done].
  destruct (executeQuery U E fallbackSQL t3) as [[fb|e] t4]; done.
Qed.

(** ** Clean texts and delimiters *)

(** An occurrence of a pattern in [x ++ d :: y] that does not contain
    [d] lies in [x] or in [y]. *)
Lemma split_at_separator (x y pre pat post : gostring) (d : rune) :
  d ∉ pat -> pat <> [] ->
  x ++ d :: y = pre ++ pat ++ post ->
  (exists post', x = pre ++ pat ++ post' /\ post = post' ++ d :: y)
  \/ (exists pre', pre = x ++ d :: pre' /\ y = pre' ++ pat ++ post).
Proof.
  intros Hd Hne H. apply app_eq_inv in H as [[k [Hx Hk]] | [k [Hp Hk]]].
  - (* x = pre ++ k,  pat ++ post = k ++ d :: y *)
    apply app_eq_inv in Hk as [[k' [Hpat Hy]] | [k' [Hk' Hpost]]].
    + destruct k' as [|z k'].
      * left. exists []. rewrite app_nil_r in Hpat. simpl in Hy.
        subst. by rewrite app_nil_r.
      * injection Hy as <- _. exfalso. apply Hd. rewrite Hpat.
        apply elem_of_app. right. by left.
    + left. exists k'. by subst.
  - (* pre = x ++ k,  d :: y = k ++ pat ++ post *)
    destruct k as [|z k].
    + simpl in Hk. destruct pat as [|p pat]; [done|].
      injection Hk as -> _. exfalso. apply Hd. by left.
    + injection Hk as <- Hy. right. exists k. by subst.
Qed.

Lemma isDelim_nonword (d : rune) : isDelim d = true -> isWordChar d = false.
Proof.
  unfold isDelim. intros H. apply andb_true_iff in H as [H _].
  apply andb_true_iff in H as [_ H]. by apply negb_true_iff.
Qed.

Lemma isDelim_not_in_keyword (d : rune) (kw : gostring) :
  isDelim d = true -> isKeyword kw = true -> d ∉ kw.
Proof.
  intros Hd Hkw Hin. apply isDelim_nonword in Hd.
  assert (Hf : List.forallb isWordChar kw = true)
    by (destruct kw; [done | exact Hkw]).
  rewrite List.forallb_forall in Hf.
  apply list_elem_of_In in Hin. rewrite (Hf d Hin) in Hd. done.
Qed.

Lemma isDelim_not_in_chars (d : rune) (c : gostring) :
  isDelim d = true -> c ∈ forbiddenChars -> (d ∉ c) /\ c <> [].
Proof.
  unfold isDelim. intros Hd Hc.
  apply andb_true_iff in Hd as [_ Hd]. apply negb_true_iff in Hd.
  repeat (apply orb_false_iff in Hd as [Hd ?]).
  unfold forbiddenChars in Hc.
  repeat (apply elem_of_cons in Hc as [-> | Hc]);
    try (by apply elem_of_nil in Hc);
    (split; [|done]); vm_compute;
    intros Hin; repeat (apply elem_of_cons in Hin as [-> | Hin]);
    try (by apply elem_of_nil in Hin); lia.
Qed.

Lemma wholeWord_separator (kw x y : gostring) (d : rune) :
  isKeyword kw = true -> isDelim d = true ->
  wholeWord kw (x ++ d :: y) -> wholeWord kw x \/ wholeWord kw y.
Proof.
  intros Hkw Hd (pre & post & H & Hpre & Hpost).
  apply split_at_separator in H as [[post' [Hx Hp]] | [pre' [Hp Hy]]].
  - left. exists pre, post'. split; [done|]. split; [done|].
    destruct post' as [|z post']; [done|]. by subst.
  - right. exists pre', post. split; [done|]. split; [|done].
    destruct pre' as [|z pre']; [done|].
    by rewrite Hp, last_app_cons, last_cons_cons in Hpre.
  - by apply isDelim_not_in_keyword.
  - by destruct kw.
Qed.

Lemma contains_separator (c x y : gostring) (d : rune) :
  d ∉ c -> c <> [] ->
  contains c (x ++ d :: y) -> contains c x \/ contains c y.
Proof.
  intros Hd Hne (pre & post & H).
  apply split_at_separator in H as [[post' [Hx Hp]] | [pre' [Hp Hy]]];
    try done.
  - left. by exists pre, post'.
  - right. by exists pre', post.
Qed.

(** Two clean texts joined by a delimiter are a clean text. *)
Lemma clean_separator (x y : gostring) (d : rune) :
  isDelim d = true -> clean x -> clean y -> clean (x ++ d :: y).
Proof.
  intros Hd [Hx1 Hx2] [Hy1 Hy2]. split.
  - intros kw Hkw Hw.
    apply wholeWord_separator in Hw as [Hw | Hw]; try done.
    + by apply (Hx1 kw).
    + by apply (Hy1 kw).
    + by apply forbiddenKeywords_keywords.
  - intros c Hc Hin. destruct (isDelim_not_in_chars d c Hd Hc) as [Hn Hne].
    apply contains_separator in Hin as [Hin | Hin]; try done.
    + by apply (Hx2 c).
    + by apply (Hy2 c).
Qed.

Lemma wholeWord_snoc (kw x : gostring) (d : rune) :
  isWordChar d = false -> wholeWord kw x -> wholeWord kw (x ++ [d]).
Proof.
  intros Hd (pre & post & -> & Hpre & Hpost).
  exists pre, (post ++ [d]). rewrite <- !app_assoc. split; [done|].
  split; [done|]. by destruct post.
Qed.

Lemma wholeWord_cons (kw y : gostring) (d : rune) :
  isWordChar d = false -> wholeWord kw y -> wholeWord kw (d :: y).
Proof.
  intros Hd (pre & post & -> & Hpre & Hpost).
  exists (d :: pre), post. split; [done|]. split; [|done].
  destruct pre as [|z pre]; [done|]. by rewrite last_cons_cons.
Qed.

Lemma clean_snoc_inv (x : gostring) (d : rune) :
  isDelim d = true -> clean (x ++ [d]) -> clean x.
Proof.
  intros Hd [H1 H2]. split.
  - intros kw Hkw Hw. apply (H1 kw Hkw).
    by apply wholeWord_snoc; [apply isDelim_nonword|].
  - intros c Hc [pre [post ->]]. apply (H2 c Hc).
    exists pre, (post ++ [d]). by rewrite <- !app_assoc.
Qed.

Lemma clean_cons_inv (y : gostring) (d : rune) :
  isDelim d = true -> clean (d :: y) -> clean y.
Proof.
  intros Hd [H1 H2]. split.
  - intros kw Hkw Hw. apply (H1 kw Hkw).
    by apply wholeWord_cons; [apply isDelim_nonword|].
  - intros c Hc [pre [post ->]]. apply (H2 c Hc).
    by exists (d :: pre), post.
Qed.

Lemma isDelim_ToUpper (U : UnicodeTables) (d : rune) :
  isDelim d = true -> unicode_ToUpper U d = d.
Proof.
  intros H. pose proof (isDelim_nonword d H) as Hw.
  unfold isDelim in H. apply andb_true_iff in H as [H _].
  apply andb_true_iff in H as [H _]. apply Z.leb_le in H.
  rewrite asciiUpper_ToUpper by done. unfold asciiUpper.
  destruct ((97 <=? d) && (d <=? 122)) eqn:E; [|done].
  unfold isWordChar in Hw. rewrite E in Hw. by rewrite !orb_true_r in Hw.
Qed.

(** A piece that ends with a delimiter can be followed by any clean
    piece; a piece that starts with one can follow any clean piece. *)
Lemma cleanU_app_end (U : UnicodeTables) (x y : gostring) :
  endDelim x = true -> cleanU U x -> cleanU U y -> cleanU U (x ++ y).
Proof.
  unfold endDelim, cleanU. intros Hd Hx Hy.
  destruct (last x) as [d|] eqn:Hl; [|done].
  apply last_Some in Hl as [x' ->].
  rewrite <- app_assoc. simpl. rewrite ToUpper_app in *. simpl in *.
  rewrite isDelim_ToUpper in * by done.
  apply clean_separator; [done| |done]. by apply (clean_snoc_inv _ d).
Qed.

Lemma cleanU_app_start (U : UnicodeTables) (x y : gostring) :
  startDelim y = true -> cleanU U x -> cleanU U y -> cleanU U (x ++ y).
Proof.
  unfold startDelim, cleanU. intros Hd Hx Hy.
  destruct y as [|d y]; [done|]. simpl in Hd.
  rewrite ToUpper_app. simpl in *. rewrite isDelim_ToUpper in * by done.
  apply clean_separator; [done|done|]. by apply (clean_cons_inv _ d).
Qed.

Lemma startDelim_app (x y : gostring) :
  startDelim x = true -> startDelim (x ++ y) = true.
Proof. by destruct x. Qed.

Lemma endDelim_app (x y : gostring) :
  endDelim y = true -> endDelim (x ++ y) = true.
Proof.
  unfold endDelim. destruct (last y) as [d|] eqn:Hl; [|done].
  apply last_Some in Hl as [y' ->]. by rewrite app_assoc, last_snoc.
Qed.

Lemma cleanb_clean (up : gostring) : cleanb up = true -> clean up.
Proof.
  unfold cleanb. intros H. apply andb_true_iff in H as [H1 H2].
  rewrite List.forallb_forall in H1, H2. split.
  - intros kw Hkw. apply wordMatch_false; [by apply forbiddenKeywords_keywords|].
    apply negb_true_iff, H1. by apply list_elem_of_In.
  - intros c Hc. apply Contains_false, negb_true_iff, H2.
    by apply list_elem_of_In.
Qed.

Lemma clean_cleanb (up : gostring) : clean up -> cleanb up = true.
Proof.
  intros [H1 H2]. unfold cleanb. apply andb_true_iff.
  split; apply List.forallb_forall; intros z Hz;
    apply list_elem_of_In in Hz; apply negb_true_iff.
  - apply wordMatch_false; [by apply forbiddenKeywords_keywords | auto].
  - apply Contains_false. auto.
Qed.

(** A literal of the source, all ASCII, is clean when the validator's
    scans of its upper-cased text find nothing. *)
Lemma cleanU_literal (U : UnicodeTables) (s : gostring) :
  List.forallb (fun c => c <=? 127) s = true ->
  cleanb (List.map asciiUpper s) = true -> cleanU U s.
Proof.
  intros Ha Hc. unfold cleanU.
  replace (strings_ToUpper U s) with (List.map asciiUpper s).
  - by apply cleanb_clean.
  - unfold strings_ToUpper. apply List.map_ext_in. intros c Hin.
    rewrite List.forallb_forall in Ha. symmetry.
    apply asciiUpper_ToUpper, Z.leb_le, Ha, Hin.
Qed.

Lemma cleanU_Join (U : UnicodeTables) (parts : list gostring)
  (sep : gostring) :
  startDelim sep = true -> endDelim sep = true -> cleanU U sep ->
  Forall (cleanU U) parts -> cleanU U [] ->
  cleanU U (strings_Join parts sep).
Proof.
  intros Hs He Hsep Hparts Hnil.
  induction Hparts as [|e rest He' Hrest IH]; [done|].
  destruct rest as [|e' rest]; [done|].
  change (strings_Join (e :: e' :: rest) sep)
    with (e ++ sep ++ strings_Join (e' :: rest) sep).
  apply cleanU_app_start; [by apply startDelim_app | done |].
  by apply cleanU_app_end.
Qed.

Lemma cleanU_nil (U : UnicodeTables) : cleanU U [].
Proof. by apply cleanU_literal. Qed.

(** ** The clauses of the templates are clean *)

Ltac literal_fact := vm_compute; reflexivity.

Ltac clean_literal := apply cleanU_literal; literal_fact.

(** Splits a statement that is written as literal, identifier, literal,
    ... at the delimiters that end and start its literals. *)
Ltac clean_pieces :=
  repeat match goal with
         | |- cleanU _ (runes _ ++ _) =>
           apply cleanU_app_end; [literal_fact | clean_literal |]
         | |- cleanU _ (runes _) => clean_literal
         | |- cleanU _ (_ ++ _) =>
           apply cleanU_app_start; [literal_fact | assumption |]
         end.

Lemma clauseOK_nil (U : UnicodeTables) : clauseOK U [].
Proof. split; [apply cleanU_nil | by left]. Qed.

Lemma clauseOK_wrap (U : UnicodeTables) (parts : list gostring) :
  Forall (cleanU U) parts ->
  clauseOK U (runes " AND (" ++ strings_Join parts (runes " OR ")
              ++ runes ")").
Proof.
  intros H. split.
  - apply cleanU_app_end; [literal_fact | clean_literal |].
    apply cleanU_app_start; [literal_fact | | clean_literal].
    apply cleanU_Join; first [done | literal_fact | clean_literal].
  - right. rewrite app_assoc. by apply endDelim_app.
Qed.

Lemma clauseOK_app (U : UnicodeTables) (a b : gostring) :
  clauseOK U a -> clauseOK U b -> clauseOK U (a ++ b).
Proof.
  intros [Ha [-> | Ea]] [Hb Eb]; [done|]. split.
  - by apply cleanU_app_end.
  - destruct Eb as [-> | Eb].
    + right. by rewrite app_nil_r.
    + right. by apply endDelim_app.
Qed.

Lemma buildAssigneeClause_ok (U : UnicodeTables) (userID : gostring)
  (cat : option propCatalog) :
  cleanU U userID -> cleanCatalogOpt U cat ->
  clauseOK U (buildAssigneeClause userID cat).
Proof.
  intros Hu Hcat. destruct cat as [c|]; [|apply clauseOK_nil].
  destruct Hcat as (Hp & Hm & _ & _). unfold buildAssigneeClause.
  assert (Hparts : Forall (cleanU U)
    (List.map (fun pid =>
                 runes "json_extract(fields, '$.properties." ++ pid
                 ++ runes "') = '" ++ userID ++ runes "'")
              (PersonPropIDs c)
     ++ List.map (fun pid =>
                 runes "EXISTS (SELECT 1 FROM json_each(json_extract(fields, '$.properties."
                 ++ pid ++ runes "')) WHERE value = '" ++ userID
                 ++ runes "')")
              (MultiPersonPropIDs c))).
  { apply Forall_app. split; apply List.Forall_map.
    - eapply Forall_impl; [exact Hp|]. intros pid Hpid. cbv beta. clean_pieces.
    - eapply Forall_impl; [exact Hm|]. intros pid Hpid. cbv beta. clean_pieces. }
  destruct (PersonPropIDs c) as [|p ps] eqn:E1;
    destruct (MultiPersonPropIDs c) as [|m ms] eqn:E2;
    [apply clauseOK_nil | by apply clauseOK_wrap ..].
Qed.

Lemma synonymIDs_ok (U : UnicodeTables) (syn : list gostring)
  (opts : gmap gostring gostring) :
  map_Forall (fun _ oid => cleanU U oid) opts ->
  Forall (cleanU U) (synonymIDs U syn opts).
Proof.
  intros Hopts. unfold synonymIDs. induction syn as [|v syn IH]; [done|].
  cbn [List.flat_map]. apply Forall_app. split; [|done].
  destruct (opts !! strings_ToUpper U v) as [oid|] eqn:E; [|done].
  apply Forall_cons. split; [|done].
  pose proof (Hopts _ _ E) as Hoid. simpl in Hoid. clean_pieces.
Qed.

Lemma cleanU_idList (U : UnicodeTables) (ids : list gostring) :
  Forall (cleanU U) ids -> cleanU U (strings_Join ids (runes ",")).
Proof.
  intros H. apply cleanU_Join; first [done | literal_fact | clean_literal].
Qed.

Lemma buildStatusOpenClause_ok (U : UnicodeTables)
  (cat : option propCatalog) :
  cleanCatalogOpt U cat -> clauseOK U (buildStatusOpenClause U cat).
Proof.
  intros Hcat. destruct cat as [c|]; [|apply clauseOK_nil].
  destruct Hcat as (_ & _ & Hs & _). unfold buildStatusOpenClause.
  destruct (StatusPropOptions c) as [|entry entries] eqn:E;
    [apply clauseOK_nil|].
  apply clauseOK_wrap, List.Forall_map.
  eapply Forall_impl; [exact Hs|]. intros [sid opts] [Hsid Hopts].
  simpl in Hsid, Hopts.
  pose proof (synonymIDs_ok U doneSyn opts Hopts) as Hids.
  apply cleanU_idList in Hids as Hjoin.
  destruct (synonymIDs U doneSyn opts) as [|i ids]; clean_pieces.
Qed.

Lemma statusInParts_ok (U : UnicodeTables) (syn : list gostring)
  (entries : list (gostring * gmap gostring gostring)) :
  Forall (fun entry =>
            cleanU U (fst entry)
            /\ map_Forall (fun _ oid => cleanU U oid) (snd entry)) entries ->
  Forall (cleanU U) (statusInParts U syn entries).
Proof.
  intros Hs. unfold statusInParts.
  induction Hs as [|[sid opts] rest [Hsid Hopts] _ IH]; [done|].
  cbn [List.flat_map]. apply Forall_app. split; [|exact IH].
  simpl in Hsid, Hopts.
  pose proof (synonymIDs_ok U syn opts Hopts) as Hids.
  apply cleanU_idList in Hids as Hjoin.
  destruct (synonymIDs U syn opts) as [|i ids]; [done|].
  apply Forall_cons. split; [|done]. clean_pieces.
Qed.

Lemma statusInClause_ok (U : UnicodeTables) (syn : list gostring)
  (cat : option propCatalog) :
  cleanCatalogOpt U cat -> clauseOK U (statusInClause U syn cat).
Proof.
  intros Hcat. destruct cat as [c|]; [|apply clauseOK_nil].
  destruct Hcat as (_ & _ & Hs & _). unfold statusInClause.
  pose proof (statusInParts_ok U syn _ Hs) as Hparts.
  destruct (StatusPropOptions c) as [|entry entries];
    [apply clauseOK_nil|].
  destruct (statusInParts U syn (entry :: entries)) as [|p parts];
    [apply clauseOK_nil | by apply clauseOK_wrap].
Qed.

Lemma buildOverdueClause_ok (U : UnicodeTables) (cat : option propCatalog) :
  cleanCatalogOpt U cat -> clauseOK U (buildOverdueClause U cat).
Proof.
  intros Hcat. unfold buildOverdueClause.
  apply clauseOK_app; [|by apply buildStatusOpenClause_ok].
  destruct cat as [c|]; [|apply clauseOK_nil].
  destruct Hcat as (_ & _ & _ & Hd).
  destruct (DatePropIDs c) as [|did dids] eqn:E; [apply clauseOK_nil|].
  simpl List.map. cbv iota.
  match goal with
  | |- clauseOK _ (_ ++ strings_Join ?parts _ ++ _) =>
    apply (clauseOK_wrap U parts)
  end.
  change (Forall (cleanU U) (List.map (fun did =>
        runes "(json_extract(json_extract(fields, '$.properties." ++ did
        ++ runes "'), '$.from') IS NOT NULL AND json_extract(json_extract(fields, '$.properties."
        ++ did
        ++ runes "'), '$.from') < (strftime('%s','now')*1000))")
        (did :: dids))).
  apply List.Forall_map. eapply Forall_impl; [exact Hd|].
  intros d Hdid. cbv beta. clean_pieces.
Qed.

(** ** The template statements *)

Lemma TrimSpace_wrapped (a m b : gostring) :
  match head a with
  | Some c => negb (unicode_IsSpace c)
  | None => false
  end = true ->
  match last b with
  | Some c => negb (unicode_IsSpace c)
  | None => false
  end = true ->
  strings_TrimSpace (a ++ m ++ b) = a ++ m ++ b.
Proof.
  intros Ha Hb. destruct a as [|c a]; [done|]. simpl in Ha.
  destruct (last b) as [d|] eqn:Hl; [|done].
  apply last_Some in Hl as [b' ->].
  apply negb_true_iff in Ha, Hb.
  assert (E : (c :: a) ++ m ++ b' ++ [d] = (c :: a ++ m ++ b') ++ d :: [])
    by (simpl; by rewrite <- !app_assoc).
  rewrite E. unfold strings_TrimSpace.
  change ((c :: a ++ m ++ b') ++ [d]) with (c :: (a ++ m ++ b') ++ [d]) at 1.
  cbn [trimLeft]. rewrite Ha.
  change (c :: (a ++ m ++ b') ++ [d]) with ((c :: a ++ m ++ b') ++ d :: []).
  by rewrite trimRight_app_keep.
Qed.

(** A template statement, whatever clean clauses stand between its
    fixed start and its fixed end, passes the validator. *)
Lemma template_valid (U : UnicodeTables) (clauses : gostring) :
  clauseOK U clauses ->
  validateReadOnlySQL U (selectCards ++ clauses ++ orderLimit) = None.
Proof.
  intros [Hc He]. apply validate_None.
  assert (Htrim : upperTrimmed U (selectCards ++ clauses ++ orderLimit)
                  = strings_ToUpper U (selectCards ++ clauses ++ orderLimit)).
  { unfold upperTrimmed. by rewrite TrimSpace_wrapped by literal_fact. }
  rewrite Htrim. split; [by vm_compute|]. split.
  - rewrite ToUpper_app. by vm_compute.
  - change (cleanU U (selectCards ++ clauses ++ orderLimit)).
    apply cleanU_app_end; [literal_fact | clean_literal |].
    destruct He as [-> | He]; [clean_literal|].
    apply cleanU_app_end; [done | done | clean_literal].
Qed.

Lemma generateSQL_template (U : UnicodeTables) (E : Env)
  (schema userID question : gostring) (t : list event) :
  isTemplateQuestion U question = true ->
  exists clauses,
    (clauses = buildAssigneeClause userID (discovered E t)
     \/ clauses = buildAssigneeClause userID (discovered E t)
                  ++ buildStatusOpenClause U (discovered E t)
     \/ clauses = buildAssigneeClause userID (discovered E t)
                  ++ buildStatusDoneClause U (discovered E t)
     \/ clauses = buildAssigneeClause userID (discovered E t)
                  ++ buildStatusProgressClause U (discovered E t)
     \/ clauses = buildAssigneeClause userID (discovered E t)
                  ++ buildOverdueClause U (discovered E t))
    /\ generateSQL U E schema userID question t
       = validated U (selectCards ++ clauses ++ orderLimit)
                   (t ++ [DiscoverCatalog]).
Proof.
  unfold isTemplateQuestion, generateSQL, discovered. intros H.
  unfold bind at 1. unfold discoverPropertyCatalog, bind, emit, history, ret.
  set (cat := match catalog E (t ++ [DiscoverCatalog]) with
              | Ok cat => Some cat
              | Err _ => None
              end).
  set (q := strings_ToLower U (strings_TrimSpace question)) in *.
  destruct (isMyTasks q); [eexists; split; [by left | done]|].
  match type of H with
  | (false || ?b || _ || _ || _) = true => destruct b
  end; [eexists; split; [right; by left | by rewrite <- !app_assoc]|].
  match type of H with
  | (false || false || ?b || _ || _) = true => destruct b
  end; [eexists; split; [right; right; by left | by rewrite <- !app_assoc]|].
  match type of H with
  | (false || false || false || ?b || _) = true => destruct b
  end; [eexists; split; [right; right; right; by left
                        | by rewrite <- !app_assoc]|].
  simpl in H. rewrite H.
  eexists; split; [right; right; right; by right | by rewrite <- !app_assoc].
Qed.

(** C9, as amended.  When the user identity and every identifier of the
    catalog are clean (their upper-cased text has no forbidden keyword as
    a whole word and none of the forbidden character sequences), each of
    the five template statements passes [validateReadOnlySQL], and
    [generateSQL] returns the statement for every question that takes a
    template branch. *)
Theorem templates_pass_validation (U : UnicodeTables) (userID : gostring)
  (cat : option propCatalog) :
  cleanU U userID -> cleanCatalogOpt U cat ->
  validateReadOnlySQL U
    (selectCards ++ buildAssigneeClause userID cat ++ orderLimit) = None
  /\ validateReadOnlySQL U
       (selectCards ++ buildAssigneeClause userID cat
        ++ buildStatusOpenClause U cat ++ orderLimit) = None
  /\ validateReadOnlySQL U
       (selectCards ++ buildAssigneeClause userID cat
        ++ buildStatusDoneClause U cat ++ orderLimit) = None
  /\ validateReadOnlySQL U
       (selectCards ++ buildAssigneeClause userID cat
        ++ buildStatusProgressClause U cat ++ orderLimit) = None
  /\ validateReadOnlySQL U
       (selectCards ++ buildAssigneeClause userID cat
        ++ buildOverdueClause U cat ++ orderLimit) = None
  /\ (forall E schema question t,
        discovered E t = cat ->
        isTemplateQuestion U question = true ->
        exists sqlText,
          generateSQL U E schema userID question t
          = (Ok sqlText,
             t ++ [DiscoverCatalog] ++ [Validate sqlText None])).
Proof.
  intros Hu Hcat.
  pose proof (buildAssigneeClause_ok U userID cat Hu Hcat) as Ha.
  pose proof (buildStatusOpenClause_ok U cat Hcat) as Ho.
  pose proof (statusInClause_ok U doneSyn cat Hcat) as Hd.
  pose proof (statusInClause_ok U progSyn cat Hcat) as Hp.
  pose proof (buildOverdueClause_ok U cat Hcat) as Hv.
  split; [by apply template_valid|].
  split; [rewrite (app_assoc (buildAssigneeClause _ _));
          by apply template_valid, clauseOK_app|].
  split; [rewrite (app_assoc (buildAssigneeClause _ _));
          by apply template_valid, clauseOK_app|].
  split; [rewrite (app_assoc (buildAssigneeClause _ _));
          by apply template_valid, clauseOK_app|].
  split; [rewrite (app_assoc (buildAssigneeClause _ _));
          by apply template_valid, clauseOK_app|].
  intros E schema question t Hdisc Hq.
  destruct (generateSQL_template U E schema userID question t Hq)
    as (clauses & Hcl & ->).
  exists (selectCards ++ clauses ++ orderLimit).
  rewrite validated_spec.
  assert (Hok : clauseOK U clauses).
  { rewrite Hdisc in Hcl.
    destruct Hcl as [-> | [-> | [-> | [-> | ->]]]];
      [done | by apply clauseOK_app ..]. }
  rewrite (template_valid U clauses Hok). by rewrite <- app_assoc.
Qed.

Lemma asciiTables_cjkStable : cjkStable asciiTables.
Proof. by intros r _. Qed.

Lemma sampleCatalog_clean : cleanCatalog asciiTables sampleCatalog.
Proof.
  unfold cleanCatalog, sampleCatalog.
  cbn [PersonPropIDs MultiPersonPropIDs StatusPropOptions DatePropIDs].
  split; [|by repeat split].
  apply Forall_cons. split; [clean_literal | done].
Qed.

Lemma dropBlanks_app (a b : gostring) :
  dropBlanks (a ++ b) = dropBlanks a ++ dropBlanks b.
Proof. apply List.filter_app. Qed.

Lemma dropBlanks_after_comma :
  dropBlanks (runes "json_extract(fields, '$.properties.")
  = dropBlanks (runes "json_extract(fields,'$.properties.").
Proof. vm_compute. reflexivity. Qed.

(** C7. With exactly one person property [pid] and no multi-person
    property, [buildAssigneeClause] returns the one predicate
    [json_extract(fields, '$.properties.pid') = 'userID'], in parentheses
    after [AND]; up to blanks this is the predicate of the
    specification.  For the question 查询我的任务, the identity [u1] and a
    catalog with the person property [assignee], [generateSQL] takes the
    first template and returns the SELECT whose WHERE clause is
    [type='card' AND delete_at=0 AND (json_extract(fields,
    '$.properties.assignee') = 'u1')], validated. *)
Theorem assignee_clause_single_person (U : UnicodeTables) (E : Env)
  (userID pid : gostring) (cat : propCatalog) :
  (PersonPropIDs cat = [pid] -> MultiPersonPropIDs cat = [] ->
   buildAssigneeClause userID (Some cat)
   = runes " AND ("
     ++ (runes "json_extract(fields, '$.properties." ++ pid
         ++ runes "') = '" ++ userID ++ runes "'")
     ++ runes ")"
   /\ dropBlanks (runes "json_extract(fields, '$.properties." ++ pid
                  ++ runes "') = '" ++ userID ++ runes "'")
      = dropBlanks (runes "json_extract(fields,'$.properties." ++ pid
                    ++ runes "') = '" ++ userID ++ runes "'"))
  /\ (cjkStable U ->
      PersonPropIDs cat = [runes "assignee"] -> MultiPersonPropIDs cat = [] ->
      forall schema t,
        discovered E t = Some cat ->
        let sqlText :=
          runes "SELECT id, title, board_id, fields, update_at FROM blocks"
          ++ runes " WHERE type='card' AND delete_at=0 "
          ++ runes " AND (json_extract(fields, '$.properties.assignee') = 'u1')"
          ++ runes " ORDER BY update_at DESC LIMIT 50" in
        generateSQL U E schema (runes "u1") (runes "查询我的任务") t
        = (Ok sqlText, t ++ [DiscoverCatalog; Validate sqlText None])).
Proof.
  split.
  - intros Hp Hm. split.
    + unfold buildAssigneeClause. rewrite Hp, Hm.
      cbn [List.map app strings_Join]. reflexivity.
    + rewrite (dropBlanks_app (runes "json_extract(fields, '$.properties.")).
      rewrite (dropBlanks_app (runes "json_extract(fields,'$.properties.")).
      rewrite dropBlanks_after_comma. reflexivity.
  - intros HU Hp Hm schema t Hd sqlText.
    assert (Hq : strings_ToLower U (strings_TrimSpace (runes "查询我的任务"))
                 = runes "查询我的任务").
    { replace (strings_TrimSpace (runes "查询我的任务"))
        with (runes "查询我的任务") by (by vm_compute).
      by apply ToLower_cjk. }
    unfold generateSQL, bind at 1.
    unfold discoverPropertyCatalog, bind, emit, history, ret.
    unfold discovered in Hd. rewrite Hq.
    replace (isMyTasks (runes "查询我的任务")) with true by (by vm_compute).
    destruct (catalog E (t ++ [DiscoverCatalog])) as [c|e]; [|done].
    injection Hd as ->. rewrite validated_spec.
    unfold buildAssigneeClause. rewrite Hp, Hm.
    replace (selectCards ++ _ ++ orderLimit) with sqlText by (by vm_compute).
    replace (validateReadOnlySQL U sqlText) with (@None error)
      by (by vm_compute).
    by rewrite <- app_assoc.
Qed.

Lemma assignee_clause_single_person_witness :
  buildAssigneeClause (runes "u123")
    (Some {| PersonPropIDs := [runes "p1"]; MultiPersonPropIDs := [];
             StatusPropOptions := []; DatePropIDs := [] |})
  = runes " AND (json_extract(fields, '$.properties.p1') = 'u123')"
  /\ generateSQL asciiTables (sampleEnv (runes "chat") []) ragSchemaDDL
       (runes "u1") (runes "查询我的任务") []
     = (Ok (runes "SELECT id, title, board_id, fields, update_at FROM blocks WHERE type='card' AND delete_at=0  AND (json_extract(fields, '$.properties.assignee') = 'u1') ORDER BY update_at DESC LIMIT 50"),
        [DiscoverCatalog;
         Validate (runes "SELECT id, title, board_id, fields, update_at FROM blocks WHERE type='card' AND delete_at=0  AND (json_extract(fields, '$.properties.assignee') = 'u1') ORDER BY update_at DESC LIMIT 50") None]).
Proof.
  split.
  - destruct (assignee_clause_single_person asciiTables
                (sampleEnv (runes "chat") []) (runes "u123") (runes "p1")
                {| PersonPropIDs := [runes "p1"]; MultiPersonPropIDs := [];
                   StatusPropOptions := []; DatePropIDs := [] |})
      as [H _].
    destruct (H eq_refl eq_refl) as [H1 _]. rewrite H1.
    vm_compute. reflexivity.
  - destruct (assignee_clause_single_person asciiTables
                (sampleEnv (runes "chat") []) (runes "u1")
                (runes "assignee") sampleCatalog) as [_ H].
    rewrite (H asciiTables_cjkStable eq_refl eq_refl ragSchemaDDL []
               eq_refl).
    vm_compute. reflexivity.
Defined.

Lemma templates_pass_validation_witness :
  validateReadOnlySQL asciiTables
    (selectCards ++ buildAssigneeClause (runes "u1") (Some sampleCatalog)
     ++ orderLimit) = None
  /\ validateReadOnlySQL asciiTables
       (selectCards ++ buildAssigneeClause (runes "u1") (Some sampleCatalog)
        ++ buildOverdueClause asciiTables (Some sampleCatalog)
        ++ orderLimit) = None.
Proof.
  assert (Hu : cleanU asciiTables (runes "u1")) by clean_literal.
  destruct (templates_pass_validation asciiTables (runes "u1")
              (Some sampleCatalog) Hu sampleCatalog_clean)
    as (H1 & _ & _ & _ & H5 & _).
  exact (conj H1 H5).
Defined.

(** The claim of C9 as it was stated fails: with a clean catalog, an
    identity that contains [;] or the word [drop] makes the my-tasks
    template fail validation, and [generateSQL] returns that error. *)
Lemma templates_reject_unclean_userID :
  cleanCatalogOpt asciiTables (Some sampleCatalog)
  /\ discovered (sampleEnv (runes "chat") []) [] = Some sampleCatalog
  /\ isTemplateQuestion asciiTables (runes "我的任务") = true
  /\ validateReadOnlySQL asciiTables
       (selectCards ++ buildAssigneeClause (runes "u;1") (Some sampleCatalog)
        ++ orderLimit)
     = Some (ErrGeneratedSQLChars (runes ";"))
  /\ fst (generateSQL asciiTables (sampleEnv (runes "chat") []) ragSchemaDDL
            (runes "u;1") (runes "我的任务") [])
     = Err (ErrGeneratedSQLChars (runes ";"))
  /\ fst (generateSQL asciiTables (sampleEnv (runes "chat") []) ragSchemaDDL
            (runes "drop") (runes "我的任务") [])
     = Err (ErrGeneratedSQLForbidden (runes "DROP")).
Proof.
  split; [exact sampleCatalog_clean|].
  split; [reflexivity|].
  split; [vm_compute; reflexivity|].
  split; [vm_compute; reflexivity|].
  split; vm_compute; reflexivity.
Qed.

Lemma classifyIntent_keyword_rules_witness :
  classifyIntent asciiTables (sampleEnv (runes "chat") [])
    (runes "查询逾期任务") [] = (Ok intentQueryData, [])
  /\ classifyIntent asciiTables (sampleEnv (runes "chat") [])
       (runes "帮我看看我的任务 ") [] = (Ok intentQueryData, []).
Proof.
  destruct (classifyIntent_keyword_rules asciiTables
              (sampleEnv (runes "chat") []) (runes "查询逾期任务") [])
    as [H1 _].
  destruct (classifyIntent_keyword_rules asciiTables
              (sampleEnv (runes "chat") []) (runes "帮我看看我的任务 ") [])
    as [_ H2].
  assert (Hrule : matchesKeywordRule asciiTables (runes "查询逾期任务") = true)
    by (vm_compute; reflexivity).
  assert (Hin : contains (runes "我的任务") (runes "帮我看看我的任务 ")).
  { exists (runes "帮我看看"), (runes " "). vm_compute. reflexivity. }
  exact (conj (proj1 (H1 Hrule)) (proj2 (H2 asciiTables_cjkStable Hin))).
Defined.

Lemma classifyIntent_llm_fallback_witness :
  snd (classifyIntent asciiTables (sampleEnv (runes "maybe") [])
         (runes "hello") [])
  = [] ++ [CallQwen (classifyPrompt (runes "hello"))]
  /\ fst (classifyIntent asciiTables (sampleEnv (runes "maybe") [])
            (runes "hello") []) = Ok intentChat.
Proof.
  assert (Hq : matchesKeywordRule asciiTables (runes "hello") = false)
    by (vm_compute; reflexivity).
  pose proof (classifyIntent_llm_fallback asciiTables
                (sampleEnv (runes "maybe") []) (runes "hello") [] Hq) as H.
  cbv zeta in H. destruct H as (Ht & _ & _ & Hout). split; [exact Ht|].
  assert (Hcall : fst (callQwenInternal (sampleEnv (runes "maybe") [])
                         (classifyPrompt (runes "hello")) [])
                  = Ok (runes "maybe")) by (vm_compute; reflexivity).
  destruct (Hout (runes "maybe") Hcall) as (_ & _ & Hneither & _).
  apply Hneither; apply Contains_false; vm_compute; reflexivity.
Defined.

(** ** The trace of the pipeline *)

Lemma executeQuery_trace (U : UnicodeTables) (E : Env) (query : gostring)
  (t : list event) :
  snd (executeQuery U E query t) = t ++ [ExecuteQuery query].
Proof.
  unfold executeQuery, bind, emit, history, ret.
  destruct (negb _); [done|].
  destruct (sqlite E _ _ _) as [m|m|m|cols rows [|m|m]]; try done.
  destruct (json_Marshal _); done.
Qed.


(** [generateSQL] runs no query, and a statement it returns is the one
    it validated last, with the verdict nil. *)
Lemma generateSQL_trace (U : UnicodeTables) (E : Env)
  (schema userID question : gostring) (t : list event) :
  exists evs,
    snd (generateSQL U E schema userID question t) = t ++ evs
    /\ Forall notExecute evs
    /\ forall sqlText,
         fst (generateSQL U E schema userID question t) = Ok sqlText ->
         validateReadOnlySQL U sqlText = None
         /\ exists evs', evs = evs' ++ [Validate sqlText None].
Proof.
  assert (Hval : forall s evs0,
    Forall notExecute evs0 ->
    exists evs,
      snd (validated U s (t ++ evs0)) = t ++ evs
      /\ Forall notExecute evs
      /\ forall sqlText,
           fst (validated U s (t ++ evs0)) = Ok sqlText ->
           validateReadOnlySQL U sqlText = None
           /\ exists evs', evs = evs' ++ [Validate sqlText None]).
  { intros s evs0 H0. rewrite validated_spec. cbn [fst snd].
    exists (evs0 ++ [Validate s (validateReadOnlySQL U s)]).
    split; [by rewrite app_assoc|].
    split; [apply Forall_app; split; [done | by apply Forall_singleton]|].
    intros sqlText Hs.
    destruct (validateReadOnlySQL U s) as [e|] eqn:Hv; [done|].
    injection Hs as <-. split; [done|]. by exists evs0. }
  unfold generateSQL, bind at 1.
  unfold discoverPropertyCatalog, bind, emit, history, ret.
  assert (Hd : Forall notExecute [DiscoverCatalog])
    by (by apply Forall_singleton).
  repeat (match goal with
          | |- context [if ?b then _ else _] =>
            destruct b; [by apply Hval|]
          end).
  pose proof (callQwenInternal_trace E
                (generatePrompt userID schema question)
                (t ++ [DiscoverCatalog])) as Hc.
  destruct (callQwenInternal E _ (t ++ [DiscoverCatalog])) as [[out|e] t2];
    cbn [fst snd] in *; subst t2.
  - rewrite <- app_assoc. apply Hval.
    apply Forall_app. split; [done | by apply Forall_singleton].
  - eexists. rewrite <- app_assoc. split; [done|].
    split; [|done]. apply Forall_app. split; [done | by apply Forall_singleton].
Qed.








(** ** The fallback query *)

Lemma jsonObject_head (m : gmap gostring value) (text : gostring) :
  jsonObject m = Ok text -> exists rest, text = 123 :: rest.
Proof.
  unfold jsonObject. destruct (encodeAll jsonMember _); [|discriminate].
  intros [= <-]. eauto.
Qed.

Lemma encodeAll_cons {A : Type} (enc : A -> result gostring) (x : A)
  (l : list A) (texts : list gostring) :
  encodeAll enc (x :: l) = Ok texts ->
  exists s ss,
    texts = s :: ss /\ enc x = Ok s /\ encodeAll enc l = Ok ss.
Proof.
  cbn [encodeAll]. destruct (enc x) as [s|e]; [|discriminate].
  destruct (encodeAll enc l) as [ss|e]; [|discriminate].
  intros [= <-]. by exists s, ss.
Qed.

Lemma strings_Join_cons_head (x : gostring) (rest : list gostring)
  (sep : gostring) (c : rune) (x' : gostring) :
  x = c :: x' -> exists r, strings_Join (x :: rest) sep = c :: r.
Proof.
  intros ->. destruct rest as [|y rest]; [by exists x'|].
  by exists (x' ++ sep ++ strings_Join (y :: rest) sep).
Qed.

(** The serialized result is the empty list exactly when the query
    produced no row. *)
Lemma json_Marshal_empty (rows : list (gmap gostring value))
  (data : gostring) :
  json_Marshal rows = Ok data ->
  strings_TrimSpace data = [91; 93] <-> rows = [].
Proof.
  intros Hdata. split.
  - destruct rows as [|r rows]; [done|]. intros H. exfalso.
    unfold json_Marshal in Hdata.
    destruct (encodeAll jsonObject (r :: rows)) as [texts|e] eqn:Hall;
      [|discriminate Hdata].
    injection Hdata as <-.
    destruct (encodeAll_cons _ _ _ _ Hall) as (text & ss & -> & Hr & _).
    destruct (jsonObject_head r text Hr) as [rest ->].
    destruct (strings_Join_cons_head (123 :: rest) ss [44] 123 rest eq_refl)
      as [j Hj].
    rewrite Hj in H.
    change (91 :: (123 :: j) ++ [93]) with ([91] ++ (123 :: j) ++ [93]) in H.
    rewrite TrimSpace_wrapped in H by done. discriminate H.
  - intros ->. injection Hdata as <-. done.
Qed.

Lemma executeQuery_rows (U : UnicodeTables) (E : Env) (query : gostring)
  (t : list event) (contextJSON : gostring) :
  fst (executeQuery U E query t) = Ok contextJSON ->
  exists cols rows,
    sqlite E (t ++ [ExecuteQuery query]) (dsnOf (DBConfigString E)) query
    = Rows cols rows RowsDone
    /\ json_Marshal (materialize cols rows) = Ok contextJSON.
Proof.
  unfold executeQuery, bind, emit, history, ret.
  destruct (negb _); [done|].
  destruct (sqlite E _ _ _) as [m|m|m|cols rows [|m|m]]; try done.
  destruct (json_Marshal _) as [data|e] eqn:Hm; [|done].
  cbn [fst]. intros [= <-]. by exists cols, rows.
Qed.

Lemma fallbackSQL_text :
  fallbackSQL
  = runes "SELECT id, title, board_id, fields, update_at FROM blocks"
    ++ runes " WHERE type='card' AND delete_at=0"
    ++ runes " ORDER BY update_at DESC" ++ runes " LIMIT 50".
Proof. vm_compute. reflexivity. Qed.

Lemma fallbackSQL_template :
  dropBlanks fallbackSQL = dropBlanks (selectCards ++ [] ++ orderLimit).
Proof. vm_compute. reflexivity. Qed.

(** C4. When the serialized result of the primary query is the empty
    list (which is when the query produced no row), [PrepareRAGResponse]
    passes the fixed fallback statement to [executeQuery] next: cards
    that are not deleted, no clause on identity or status, newest first,
    at most 50.  If that call returns a result, the prompt is built from
    it; if it returns an error, the prompt is built from the empty
    primary result.  In both cases a prompt is returned and no error.
    The prompt built from a question and a result is the instructions
    and the four rules, the question between quotes, the result after
    the line that announces the data, and the line that asks for the
    answer. *)
Theorem fallback_on_empty_result (U : UnicodeTables) (E : Env)
  (userID question sqlText contextJSON : gostring)
  (t0 t1 t2 t3 : list event) :
  classifyIntent U E question t0 = (Ok intentQueryData, t1) ->
  generateSQL U E ragSchemaDDL userID question t1 = (Ok sqlText, t2) ->
  executeQuery U E sqlText t2 = (Ok contextJSON, t3) ->
  strings_TrimSpace contextJSON = runes "[]" ->
  snd (PrepareRAGResponse U E userID question t0)
  = t3 ++ [ExecuteQuery fallbackSQL]
  /\ (forall fbJSON,
        fst (executeQuery U E fallbackSQL t3) = Ok fbJSON ->
        fst (PrepareRAGResponse U E userID question t0)
        = Ok (buildFinalPrompt question fbJSON))
  /\ (forall err,
        fst (executeQuery U E fallbackSQL t3) = Err err ->
        fst (PrepareRAGResponse U E userID question t0)
        = Ok (buildFinalPrompt question contextJSON))
  /\ (exists prompt,
        fst (PrepareRAGResponse U E userID question t0) = Ok prompt)
  /\ (exists cols,
        sqlite E (t2 ++ [ExecuteQuery sqlText]) (dsnOf (DBConfigString E))
               sqlText = Rows cols [] RowsDone)
  /\ fallbackSQL
     = runes "SELECT id, title, board_id, fields, update_at FROM blocks"
       ++ runes " WHERE type='card' AND delete_at=0"
       ++ runes " ORDER BY update_at DESC" ++ runes " LIMIT 50"
  /\ dropBlanks fallbackSQL = dropBlanks (selectCards ++ [] ++ orderLimit)
  /\ (forall contextData,
        buildFinalPrompt question contextData
        = runes "你是一个 Focal Board 任务助手。请根据我提供的 JSON 实时数据，为用户生成一份简短、友好、易于阅读的中文任务总结。

"
          ++ runes "【重要规则】:
"
          ++ runes "1. **不要**复述或打印原始的 JSON 数据。
"
          ++ runes "2. **直接**开始你的总结性回答 (例如：'你好！根据你的任务情况...')。
"
          ++ runes "3. 使用表情符号 (✅, 🚀) 来组织你的回答。
"
          ++ runes "4. 如果数据中有逾期的任务，请明确指出。

"
          ++ runes "用户问题: " ++ [34]
          ++ question
          ++ [34] ++ runes "

实时数据 (JSON 格式):
"
          ++ contextData
          ++ runes "

你的回答 (请直接开始总结):
").
Proof.
  intros Hc Hg Hx Hempty.
  assert (Hrun : PrepareRAGResponse U E userID question t0
                 = (Ok (buildFinalPrompt question
                          match fst (executeQuery U E fallbackSQL t3) with
                          | Ok fbJSON => fbJSON
                          | Err _ => contextJSON
                          end),
                    t3 ++ [ExecuteQuery fallbackSQL])).
  { unfold PrepareRAGResponse, bind at 1. rewrite Hc. cbv beta iota.
    change (gostring_eqb intentQueryData intentChat) with false.
    change (gostring_eqb intentQueryData intentQueryData) with true.
    cbv beta iota. cbn [negb]. unfold bind at 1. rewrite Hg. cbv beta iota.
    unfold bind at 1. rewrite Hx. cbv beta iota.
    unfold gostring_eqb. rewrite Hempty.
    rewrite (bool_decide_eq_true_2 _ eq_refl).
    unfold bind, ret.
    pose proof (executeQuery_trace U E fallbackSQL t3) as Ht.
    destruct (executeQuery U E fallbackSQL t3) as [[fb|e] t4];
      cbn [fst snd] in *; by subst t4. }
  rewrite Hrun. cbn [fst snd]. split; [done|].
  split; [by intros fbJSON ->|]. split; [by intros err ->|].
  split; [eauto|]. split.
  - assert (Hx1 : fst (executeQuery U E sqlText t2) = Ok contextJSON)
      by (by rewrite Hx).
    destruct (executeQuery_rows U E sqlText t2 contextJSON Hx1)
      as (cols & rows & Hs & Hm).
    exists cols. rewrite Hs.
    apply (json_Marshal_empty _ _ Hm) in Hempty.
    destruct rows as [|r rows]; [done | discriminate Hempty].
  - split; [apply fallbackSQL_text|].
    split; [apply fallbackSQL_template|].
    intros contextData. reflexivity.
Qed.

Lemma fallback_on_empty_result_witness :
  fst (PrepareRAGResponse asciiTables oneCardEnv
         (runes "u1") (runes "我的任务") [])
  = Ok (runes "你是一个 Focal Board 任务助手。请根据我提供的 JSON 实时数据，为用户生成一份简短、友好、易于阅读的中文任务总结。

"
        ++ runes "【重要规则】:
"
        ++ runes "1. **不要**复述或打印原始的 JSON 数据。
"
        ++ runes "2. **直接**开始你的总结性回答 (例如：'你好！根据你的任务情况...')。
"
        ++ runes "3. 使用表情符号 (✅, 🚀) 来组织你的回答。
"
        ++ runes "4. 如果数据中有逾期的任务，请明确指出。

"
        ++ runes "用户问题: " ++ [34]
        ++ runes "我的任务"
        ++ [34] ++ runes "

实时数据 (JSON 格式):
"
        ++ [91; 123; 34] ++ runes "id" ++ [34; 58; 34] ++ runes "c1"
        ++ [34; 44; 34] ++ runes "n" ++ [34; 58] ++ runes "7}]"
        ++ runes "

你的回答 (请直接开始总结):
").
Proof.
  pose (sqlText := selectCards
                   ++ buildAssigneeClause (runes "u1") (Some sampleCatalog)
                   ++ orderLimit).
  pose (t2 := [DiscoverCatalog; Validate sqlText None]).
  pose (fbJSON := [91; 123; 34] ++ runes "id" ++ [34; 58; 34] ++ runes "c1"
                  ++ [34; 44; 34] ++ runes "n" ++ [34; 58] ++ runes "7}]").
  assert (Hc : classifyIntent asciiTables oneCardEnv (runes "我的任务") []
               = (Ok intentQueryData, []))
    by (vm_compute; reflexivity).
  assert (Hg : generateSQL asciiTables oneCardEnv ragSchemaDDL (runes "u1")
                 (runes "我的任务") [] = (Ok sqlText, t2))
    by (vm_compute; reflexivity).
  assert (Hx : executeQuery asciiTables oneCardEnv sqlText t2
               = (Ok (runes "[]"), t2 ++ [ExecuteQuery sqlText]))
    by (vm_compute; reflexivity).
  assert (Hempty : strings_TrimSpace (runes "[]") = runes "[]")
    by (vm_compute; reflexivity).
  assert (Hfb : fst (executeQuery asciiTables oneCardEnv fallbackSQL
                       (t2 ++ [ExecuteQuery sqlText])) = Ok fbJSON)
    by (vm_compute; reflexivity).
  destruct (fallback_on_empty_result asciiTables oneCardEnv (runes "u1")
              (runes "我的任务") sqlText (runes "[]") [] [] t2
              (t2 ++ [ExecuteQuery sqlText]) Hc Hg Hx Hempty)
    as (_ & Hok & _ & _ & _ & _ & _ & Hprompt).
  transitivity (Ok (buildFinalPrompt (runes "我的任务") fbJSON)).
  - exact (Hok fbJSON Hfb).
  - exact (f_equal Ok (Hprompt fbJSON)).
Defined.

(** ** The streaming relay *)

Section RelayProperties.
Context (json_Unmarshal : gostring -> option OpenAIResponse).

Lemma relayLoop_spec (lines : list gostring) (w : list AIStreamChunk) :
  relayLoop json_Unmarshal lines w
  = w ++ List.map textChunk
           (textDeltas (consumed (List.map (eventOf json_Unmarshal) lines))).
Proof.
  revert w. induction lines as [|line rest IH]; intros w.
  - simpl. by rewrite app_nil_r.
  - cbn [relayLoop List.map consumed].
    remember (eventOf json_Unmarshal line) as e eqn:He.
    unfold eventOf in He. unfold strings_TrimPrefix.
    destruct (strings_HasPrefix line dataPrefix) eqn:Hp.
    2:{ subst e. rewrite IH. reflexivity. }
    destruct (gostring_eqb _ doneMarker).
    { subst e. simpl. by rewrite app_nil_r. }
    destruct (json_Unmarshal _) as [[[|c0 cs] model]|].
    2:{ cbn [Choices Delta_Content FinishReason] in *.
        destruct (Delta_Content c0) as [|c s], (FinishReason c0) as [|f fs];
          subst e.
        - rewrite IH. reflexivity.
        - simpl. by rewrite app_nil_r.
        - rewrite IH, <- app_assoc. reflexivity.
        - reflexivity. }
    all: subst e; rewrite IH; reflexivity.
Qed.

Lemma relay_spec (resp : upstreamResponse) :
  relay json_Unmarshal resp
  = List.map textChunk
      (textDeltas (consumed (List.map (eventOf json_Unmarshal)
                               (bodyLines resp))))
    ++ [finalChunk].
Proof. unfold relay. by rewrite relayLoop_spec. Qed.

Lemma handleAIChatStream_reaches (rq : streamRequest)
  (resp : upstreamResponse) :
  reachesLoop rq resp ->
  handleAIChatStream json_Unmarshal rq
  = EventStream (relay json_Unmarshal resp).
Proof.
  intros (H1 & H2 & H3 & H4 & H5 & H6). unfold handleAIChatStream.
  rewrite H1, H2, H4, H5, H6. simpl.
  destruct (apiKey rq); [done | reflexivity].
Qed.

(** A run that does not reach the loop sends the error response, and
    no chunk at all. *)
Lemma handleAIChatStream_early_return (rq : streamRequest) :
  (forall resp, ~ reachesLoop rq resp) ->
  handleAIChatStream json_Unmarshal rq = ErrorResponse.
Proof.
  intros H. unfold handleAIChatStream.
  destruct (bodyRead rq) eqn:H1; [|done].
  destruct (bodyDecodes rq) eqn:H2; [|done].
  destruct (apiKey rq) as [|k ks] eqn:H3; [done|].
  destruct (requestBuilt rq) eqn:H4; [|done].
  destruct (upstream rq) as [resp|] eqn:H5; [|done].
  destruct (StatusCode resp =? 200) eqn:H6; [|done].
  exfalso. apply (H resp). unfold reachesLoop. rewrite H1, H2, H3, H4, H5.
  apply Z.eqb_eq in H6. by repeat split.
Qed.

Lemma consumed_no_terminator (evs : list upEvent) :
  List.forallb (fun e => negb (terminates e)) evs = true ->
  consumed evs = evs.
Proof.
  induction evs as [|e evs IH]; [done|]. simpl. intros H.
  apply andb_true_iff in H as [He Hevs]. apply negb_true_iff in He.
  rewrite He. by rewrite IH.
Qed.

Lemma consumed_at_terminator (pre : list upEvent) (e : upEvent)
  (rest : list upEvent) :
  List.forallb (fun e => negb (terminates e)) pre = true ->
  terminates e = true ->
  consumed (pre ++ e :: rest) = pre ++ [e].
Proof.
  intros Hpre He. induction pre as [|p pre IH]; simpl.
  - by rewrite He.
  - simpl in Hpre. apply andb_true_iff in Hpre as [Hp Hpre].
    apply negb_true_iff in Hp. rewrite Hp. by rewrite IH.
Qed.

Lemma textDeltas_chunks (evs : list upEvent) :
  Forall (fun c => Done c = false /\ Content c <> [])
         (List.map textChunk (textDeltas evs)).
Proof.
  induction evs as [|e evs IH]; [done|].
  unfold textDeltas. cbn [List.flat_map].
  destruct e as [| |[|c s] f]; try exact IH.
  cbn [app List.map]. apply Forall_cons. split; [|exact IH]. by split.
Qed.

Lemma count_done (chunks : list AIStreamChunk) :
  Forall (fun c => Done c = false /\ Content c <> []) chunks ->
  List.length (List.filter Done (chunks ++ [finalChunk])) = 1%nat.
Proof.
  intros H. rewrite List.filter_app, List.length_app.
  induction H as [|c chunks [Hc _] _ IH]; [done|].
  cbn [List.filter]. by rewrite Hc.
Qed.

(** C3. In every run of [handleAIChatStream] that reaches the loop, the
    events sent are: one chunk with [done = false] for every non-empty
    text delta among the upstream events that are read (those up to and
    including the first [[DONE]] marker or finish reason, or all of them
    when there is none), in the order of the upstream; then the one
    chunk with empty content and [done = true].  No other chunk has
    [done = true], and the outcome does not depend on whether the body
    ends or breaks.  Three text deltas followed by a finish reason give
    three chunks and the final one, whatever follows. *)
Theorem relay_emits_deltas_then_done (rq : streamRequest)
  (resp : upstreamResponse) :
  reachesLoop rq resp ->
  let evs := List.map (eventOf json_Unmarshal) (bodyLines resp) in
  let out := List.map textChunk (textDeltas (consumed evs)) ++ [finalChunk] in
  handleAIChatStream json_Unmarshal rq = EventStream out
  /\ last out = Some finalChunk
  /\ List.length (List.filter Done out) = 1%nat
  /\ Forall (fun c => Done c = false /\ Content c <> [])
            (List.map textChunk (textDeltas (consumed evs)))
  /\ (forall rq' resp',
        reachesLoop rq' resp' -> bodyLines resp' = bodyLines resp ->
        handleAIChatStream json_Unmarshal rq'
        = handleAIChatStream json_Unmarshal rq)
  /\ (List.forallb (fun e => negb (terminates e)) evs = true ->
      consumed evs = evs)
  /\ (forall pre e rest,
        evs = pre ++ e :: rest ->
        List.forallb (fun e => negb (terminates e)) pre = true ->
        terminates e = true ->
        consumed evs = pre ++ [e])
  /\ (forall c1 c2 c3 reason rest,
        evs = Delta c1 [] :: Delta c2 [] :: Delta c3 [] :: Delta [] reason
              :: rest ->
        c1 <> [] -> c2 <> [] -> c3 <> [] -> reason <> [] ->
        handleAIChatStream json_Unmarshal rq
        = EventStream [textChunk c1; textChunk c2; textChunk c3;
                       finalChunk]).
Proof.
  intros Hreach evs out.
  assert (Hout : handleAIChatStream json_Unmarshal rq = EventStream out).
  { rewrite (handleAIChatStream_reaches rq resp Hreach). by rewrite relay_spec. }
  split; [done|]. split; [apply last_snoc|].
  split; [apply count_done, textDeltas_chunks|].
  split; [apply textDeltas_chunks|]. split.
  { intros rq' resp' Hreach' Hlines.
    rewrite (handleAIChatStream_reaches rq' resp' Hreach'),
      (handleAIChatStream_reaches rq resp Hreach).
    by rewrite !relay_spec, Hlines. }
  split; [apply consumed_no_terminator|]. split.
  { intros pre e rest -> Hpre He. by apply consumed_at_terminator. }
  intros c1 c2 c3 reason rest Hevs H1 H2 H3 Hr. rewrite Hout.
  subst out. rewrite Hevs.
  destruct c1 as [|a1 c1], c2 as [|a2 c2], c3 as [|a3 c3],
    reason as [|r0 reason]; done.
Qed.

End RelayProperties.

Lemma sampleStream_reaches :
  reachesLoop sampleStream
    {| StatusCode := 200;
       bodyLines := [runes "data: c:Hel"; runes ": keep-alive";
                     runes "data: c:lo"; runes "data: {}";
                     runes "data: c:!"; runes "data: f:stop";
                     runes "data: c:late"];
       bodyEnd := ScanError (runes "connection reset") |}.
Proof. unfold reachesLoop. repeat split; try reflexivity. by vm_compute. Qed.

Lemma relay_emits_deltas_then_done_witness :
  handleAIChatStream sampleUnmarshal sampleStream
  = EventStream [textChunk (runes "Hel"); textChunk (runes "lo");
                 textChunk (runes "!"); finalChunk].
Proof.
  destruct (relay_emits_deltas_then_done sampleUnmarshal sampleStream _
              sampleStream_reaches) as (Hout & _).
  rewrite Hout. vm_compute. reflexivity.
Defined.

(** ** The validator and white space, letter case *)

Lemma trimLeft_all (f : rune -> bool) (a s : gostring) :
  Forall (fun c => f c = true) a -> trimLeft f (a ++ s) = trimLeft f s.
Proof.
  induction 1 as [|c a Hc _ IH]; [reflexivity|].
  cbn. rewrite Hc. exact IH.
Qed.

Lemma trimRight_all (f : rune -> bool) (s b : gostring) :
  Forall (fun c => f c = true) b -> trimRight f (s ++ b) = trimRight f s.
Proof.
  intros Hb. unfold trimRight. rewrite List.rev_app_distr.
  rewrite trimLeft_all; [reflexivity|].
  apply List.Forall_rev. exact Hb.
Qed.

Lemma trimLeft_app_cases (f : rune -> bool) (s b : gostring) :
  trimLeft f (s ++ b) = trimLeft f s ++ b
  \/ (trimLeft f s = [] /\ trimLeft f (s ++ b) = trimLeft f b).
Proof.
  induction s as [|c s IH]; [right; split; reflexivity|].
  cbn. destruct (f c); [exact IH|]. left. reflexivity.
Qed.

Lemma TrimSpace_padding (a s b : gostring) :
  Forall (fun c => unicode_IsSpace c = true) a ->
  Forall (fun c => unicode_IsSpace c = true) b ->
  strings_TrimSpace (a ++ s ++ b) = strings_TrimSpace s.
Proof.
  intros Ha Hb. unfold strings_TrimSpace.
  rewrite (trimLeft_all _ a (s ++ b) Ha).
  destruct (trimLeft_app_cases unicode_IsSpace s b) as [-> | [-> ->]].
  - apply trimRight_all. exact Hb.
  - pose proof (trimLeft_all unicode_IsSpace b [] Hb) as H.
    rewrite app_nil_r in H. rewrite H. reflexivity.
Qed.

Lemma trimLeft_map (f : rune -> bool) (g : rune -> rune) (s : gostring) :
  (forall c, f (g c) = f c) ->
  trimLeft f (List.map g s) = List.map g (trimLeft f s).
Proof.
  intros Hfg. induction s as [|c s IH]; [reflexivity|].
  cbn. rewrite Hfg. destruct (f c); [exact IH | reflexivity].
Qed.

Lemma trimRight_map (f : rune -> bool) (g : rune -> rune) (s : gostring) :
  (forall c, f (g c) = f c) ->
  trimRight f (List.map g s) = List.map g (trimRight f s).
Proof.
  intros Hfg. unfold trimRight.
  rewrite <- List.map_rev, (trimLeft_map f g _ Hfg), List.map_rev.
  reflexivity.
Qed.

Lemma IsSpace_asciiLower (c : rune) :
  unicode_IsSpace (asciiLower c) = unicode_IsSpace c.
Proof.
  unfold asciiLower.
  destruct ((65 <=? c) && (c <=? 90)) eqn:E; [|reflexivity].
  apply andb_true_iff in E as [E1 E2].
  apply Z.leb_le in E1. apply Z.leb_le in E2.
  unfold unicode_IsSpace.
  repeat match goal with
         | |- context [?a <=? ?b] =>
           first [ rewrite (proj2 (Z.leb_le a b)) by lia
                 | rewrite (proj2 (Z.leb_gt a b)) by lia ]
         | |- context [?a =? ?b] => rewrite (proj2 (Z.eqb_neq a b)) by lia
         end.
  reflexivity.
Qed.

Lemma ToUpper_asciiLower (U : UnicodeTables) (c : rune) :
  unicode_ToUpper U (asciiLower c) = unicode_ToUpper U c.
Proof.
  unfold asciiLower, unicode_ToUpper.
  destruct ((65 <=? c) && (c <=? 90)) eqn:E; [|reflexivity].
  apply andb_true_iff in E as [E1 E2].
  apply Z.leb_le in E1. apply Z.leb_le in E2.
  rewrite (proj2 (Z.leb_le (c + 32) 127)) by lia.
  rewrite (proj2 (Z.leb_le c 127)) by lia.
  rewrite (proj2 (Z.leb_le 97 (c + 32))) by lia.
  rewrite (proj2 (Z.leb_le (c + 32) 122)) by lia.
  rewrite (proj2 (Z.leb_gt 97 c)) by lia.
  cbn. lia.
Qed.

Lemma upperTrimmed_asciiLower (U : UnicodeTables) (s : gostring) :
  upperTrimmed U (List.map asciiLower s) = upperTrimmed U s.
Proof.
  unfold upperTrimmed, strings_TrimSpace.
  rewrite (trimLeft_map _ _ _ IsSpace_asciiLower).
  rewrite (trimRight_map _ _ _ IsSpace_asciiLower).
  unfold strings_ToUpper. rewrite List.map_map.
  apply List.map_ext. intros c. apply ToUpper_asciiLower.
Qed.

Lemma validate_None_upper (U : UnicodeTables) (s1 s2 : gostring) :
  upperTrimmed U s1 = upperTrimmed U s2 ->
  (s1 = [] <-> s2 = []) ->
  validateReadOnlySQL U s1 = None <-> validateReadOnlySQL U s2 = None.
Proof.
  intros Hup Hnil. rewrite !validate_None, Hup, Hnil. reflexivity.
Qed.

(** X1. Leading and trailing white space makes no difference to the
    validator: a statement padded with white space is accepted exactly
    when the statement itself is, and when the statement starts with
    SELECT the two verdicts are the same. *)
Theorem validator_ignores_padding (U : UnicodeTables) (a s b : gostring) :
  Forall (fun c => unicode_IsSpace c = true) a ->
  Forall (fun c => unicode_IsSpace c = true) b ->
  (validateReadOnlySQL U (a ++ s ++ b) = None
   <-> validateReadOnlySQL U s = None)
  /\ (strings_HasPrefix (upperTrimmed U s) (runes "SELECT") = true ->
      validateReadOnlySQL U (a ++ s ++ b) = validateReadOnlySQL U s).
Proof.
  intros Ha Hb.
  assert (Hup : upperTrimmed U (a ++ s ++ b) = upperTrimmed U s).
  { unfold upperTrimmed. rewrite (TrimSpace_padding a s b Ha Hb).
    reflexivity. }
  assert (Hne : strings_HasPrefix (upperTrimmed U s) (runes "SELECT") = true
                -> s <> [] /\ a ++ s ++ b <> []).
  { intros Hp. assert (s <> []) as Hs.
    { intros ->. vm_compute in Hp. discriminate Hp. }
    split; [exact Hs|]. destruct a; [|discriminate].
    destruct s; [congruence | discriminate]. }
  split.
  - rewrite !validate_None, Hup. split.
    + intros (_ & Hp & Hk & Hc). destruct (Hne Hp) as [Hs _]. auto.
    + intros (_ & Hp & Hk & Hc). destruct (Hne Hp) as [_ Hs]. auto.
  - intros Hp. destruct (Hne Hp) as [Hs Hs'].
    rewrite (validate_select U _ Hs'), (validate_select U _ Hs), ?Hup;
      [reflexivity | exact Hp | rewrite Hup; exact Hp].
Qed.

Lemma validator_ignores_padding_witness :
  validateReadOnlySQL asciiTables
    ([32; 10] ++ runes "select 1" ++ [9; 32; 13]) = None
  <-> validateReadOnlySQL asciiTables (runes "select 1") = None.
Proof.
  apply (validator_ignores_padding asciiTables [32; 10] (runes "select 1")
           [9; 32; 13]).
  - repeat constructor.
  - repeat constructor.
Defined.

(** X2. The validator does not look at the case of ASCII letters: two
    statements that differ in nothing else are read as the same
    upper-cased text, and one is accepted exactly when the other is. *)
Theorem validator_case_insensitive (U : UnicodeTables) (s1 s2 : gostring) :
  List.map asciiLower s1 = List.map asciiLower s2 ->
  upperTrimmed U s1 = upperTrimmed U s2
  /\ (validateReadOnlySQL U s1 = None <-> validateReadOnlySQL U s2 = None).
Proof.
  intros H.
  assert (Hup : upperTrimmed U s1 = upperTrimmed U s2).
  { rewrite <- (upperTrimmed_asciiLower U s1), H.
    apply upperTrimmed_asciiLower. }
  split; [exact Hup|].
  apply validate_None_upper; [exact Hup|].
  destruct s1, s2; try discriminate H; split; congruence.
Qed.

Lemma validator_case_insensitive_witness :
  validateReadOnlySQL asciiTables (runes "Select Id From Blocks") = None
  <-> validateReadOnlySQL asciiTables (runes "SELECT id FROM blocks") = None.
Proof.
  apply (validator_case_insensitive asciiTables
           (runes "Select Id From Blocks") (runes "SELECT id FROM blocks")).
  vm_compute. reflexivity.
Defined.
(** ** [extractSQL] *)

Lemma head_trimLeft (f : rune -> bool) (s : gostring) (c : rune) :
  head (trimLeft f s) = Some c -> f c = false.
Proof.
  induction s as [|d s IH]; [discriminate|].
  cbn. destruct (f d) eqn:E; [exact IH|].
  cbn. intros [= <-]. exact E.
Qed.

Lemma last_trimRight (f : rune -> bool) (s : gostring) (c : rune) :
  last (trimRight f s) = Some c -> f c = false.
Proof.
  unfold trimRight. rewrite last_rev. apply head_trimLeft.
Qed.

Lemma trimLeft_id (f : rune -> bool) (s : gostring) :
  match head s with
  | Some c => f c = false
  | None => True
  end -> trimLeft f s = s.
Proof.
  destruct s as [|c s]; [reflexivity|]. cbn. intros ->. reflexivity.
Qed.

Lemma trimRight_id (f : rune -> bool) (s : gostring) :
  match last s with
  | Some c => f c = false
  | None => True
  end -> trimRight f s = s.
Proof.
  intros H. unfold trimRight. rewrite trimLeft_id.
  - apply List.rev_involutive.
  - rewrite head_rev. exact H.
Qed.

Lemma trimLeft_idem (f : rune -> bool) (s : gostring) :
  trimLeft f (trimLeft f s) = trimLeft f s.
Proof.
  apply trimLeft_id. destruct (head (trimLeft f s)) as [c|] eqn:E; [|exact I].
  exact (head_trimLeft f s c E).
Qed.

Lemma trimRight_idem (f : rune -> bool) (s : gostring) :
  trimRight f (trimRight f s) = trimRight f s.
Proof.
  apply trimRight_id. destruct (last (trimRight f s)) as [c|] eqn:E; [|exact I].
  exact (last_trimRight f s c E).
Qed.

Lemma TrimSpace_idem (s : gostring) :
  strings_TrimSpace (strings_TrimSpace s) = strings_TrimSpace s.
Proof.
  unfold strings_TrimSpace.
  set (L := trimLeft unicode_IsSpace s).
  assert (HL : trimLeft unicode_IsSpace (trimRight unicode_IsSpace L)
               = trimRight unicode_IsSpace L).
  { apply trimLeft_id.
    destruct (trimRight_head unicode_IsSpace L) as [-> | ->]; [exact I|].
    destruct (head L) as [c|] eqn:E; [|exact I].
    exact (head_trimLeft unicode_IsSpace s c E). }
  rewrite HL. apply trimRight_idem.
Qed.

(** X3. When the answer of the model holds no fenced SQL block, what
    [extractSQL] returns does not end with a semicolon. *)
Theorem extractSQL_no_trailing_semicolon (U : UnicodeTables)
  (text : gostring) :
  findFenced text = None -> last (extractSQL U text) <> Some 59.
Proof.
  intros Hf H. unfold extractSQL in H. rewrite Hf in H.
  assert (Hcut : forall x, last (strings_TrimRight x (runes ";")) = Some 59
                           -> False).
  { intros x Hx. apply last_trimRight in Hx. vm_compute in Hx.
    discriminate Hx. }
  destruct (List.find _ _); exact (Hcut _ H).
Qed.

Lemma extractSQL_no_trailing_semicolon_witness :
  last (extractSQL asciiTables (runes "Sure: 
select id from blocks;;
")) <> Some 59.
Proof.
  apply (extractSQL_no_trailing_semicolon asciiTables).
  vm_compute. reflexivity.
Defined.

Lemma findFenced_no_backtick (s : gostring) :
  96 ∉ s -> findFenced s = None.
Proof.
  assert (Hp : fence ++ runes "sql" = [96; 96; 96; 115; 113; 108])
    by (vm_compute; reflexivity).
  induction s as [|c s IH]; intros Hs.
  - cbn [findFenced]. unfold fencedAt. rewrite Hp. reflexivity.
  - cbn [findFenced]. unfold fencedAt. rewrite Hp. cbn [strings_HasPrefix].
    assert ((c =? 96) = false) as ->.
    { apply Z.eqb_neq. intros ->. apply Hs. left. }
    cbn. apply IH. intros H. apply Hs. right. exact H.
Qed.

Lemma splitOn_no_separator (sep : rune) (s : gostring) :
  sep ∉ s -> splitOn sep s = [s].
Proof.
  induction s as [|c s IH]; intros Hs; [reflexivity|].
  cbn. assert ((c =? sep) = false) as ->.
  { apply Z.eqb_neq. intros ->. apply Hs. left. }
  rewrite IH; [reflexivity|]. intros H. apply Hs. right. exact H.
Qed.

Lemma semicolons_cut (k : nat) :
  Forall (fun c => existsb (Z.eqb c) (runes ";") = true) (replicate k 59).
Proof.
  induction k as [|k IH]; constructor; [|exact IH].
  vm_compute. reflexivity.
Qed.

Lemma last_not_semicolon (U : UnicodeTables) (s x : gostring) :
  validateReadOnlySQL U s = None -> (exists a b, s = a ++ x ++ b) ->
  match last x with
  | Some c => existsb (Z.eqb c) (runes ";") = false
  | None => True
  end.
Proof.
  intros Hv (a & b & Hs).
  destruct (last x) as [c|] eqn:E; [|exact I].
  destruct (existsb (Z.eqb c) (runes ";")) eqn:Ec; [|reflexivity].
  exfalso.
  assert (c = 59) as ->.
  { change (runes ";") with [59] in Ec. cbn in Ec.
    rewrite orb_false_r in Ec. apply Z.eqb_eq in Ec. exact Ec. }
  apply validate_None in Hv as (_ & _ & _ & Hc).
  apply (Hc (runes ";")).
  - left.
  - apply forbiddenChars_upperTrimmed; [left|].
    apply last_Some in E as [x' ->].
    exists (a ++ x'), b. rewrite Hs. change (runes ";") with [59].
    rewrite <- !app_assoc. reflexivity.
Qed.

Lemma upperTrimmed_select (U : UnicodeTables) (s : gostring) :
  strings_HasPrefix (upperTrimmed U s) (runes "SELECT") = true ->
  exists c L, trimLeft unicode_IsSpace s = c :: L
              /\ unicode_IsSpace c = false.
Proof.
  intros Hp. destruct (trimLeft unicode_IsSpace s) as [|c L] eqn:E.
  - unfold upperTrimmed, strings_TrimSpace in Hp. rewrite E in Hp.
    vm_compute in Hp. discriminate Hp.
  - exists c, L. split; [reflexivity|].
    apply (head_trimLeft unicode_IsSpace s). rewrite E. reflexivity.
Qed.

Lemma trimLeft_suffix (f : rune -> bool) (s : gostring) :
  exists a, s = a ++ trimLeft f s.
Proof.
  induction s as [|c s [a IH]]; [exists []; reflexivity|].
  cbn. destruct (f c).
  - exists (c :: a). cbn. rewrite <- IH. reflexivity.
  - exists []. reflexivity.
Qed.

Lemma trimRight_prefix (f : rune -> bool) (s : gostring) :
  exists b, s = trimRight f s ++ b.
Proof.
  unfold trimRight. destruct (trimLeft_suffix f (List.rev s)) as [a Ha].
  exists (List.rev a).
  rewrite <- List.rev_app_distr, <- Ha. symmetry. apply List.rev_involutive.
Qed.

Lemma TrimSpace_infix (s : gostring) :
  exists a b, s = a ++ strings_TrimSpace s ++ b.
Proof.
  unfold strings_TrimSpace.
  destruct (trimLeft_suffix unicode_IsSpace s) as [a Ha].
  destruct (trimRight_prefix unicode_IsSpace (trimLeft unicode_IsSpace s))
    as [b Hb].
  exists a, b. rewrite <- Hb. exact Ha.
Qed.

(** X4. Trailing semicolons do not cost an answer its statement: when
    the model answers with one line, without backticks, that the
    validator accepts, and puts any number of semicolons behind it,
    [extractSQL] returns a text that the validator reads as the same
    statement and accepts. *)
Theorem extractSQL_strips_semicolons (U : UnicodeTables) (s : gostring)
  (k : nat) :
  validateReadOnlySQL U s = None -> 10 ∉ s -> 96 ∉ s ->
  upperTrimmed U (extractSQL U (s ++ replicate k 59)) = upperTrimmed U s
  /\ validateReadOnlySQL U (extractSQL U (s ++ replicate k 59)) = None.
Proof.
  intros Hv Hnl Hbt.
  pose proof Hv as Hv'. apply validate_None in Hv' as (Hne & Hp & _ & _).
  destruct (upperTrimmed_select U s Hp) as (c & L & HL & Hc).
  set (x := s ++ replicate k 59).
  assert (Hx96 : 96 ∉ x).
  { unfold x. intros [H|H]%elem_of_app; [exact (Hbt H)|].
    apply elem_of_replicate in H as [H _]. discriminate H. }
  assert (Hx10 : 10 ∉ x).
  { unfold x. intros [H|H]%elem_of_app; [exact (Hnl H)|].
    apply elem_of_replicate in H as [H _]. discriminate H. }
  assert (HxL : trimLeft unicode_IsSpace x = (c :: L) ++ replicate k 59).
  { unfold x.
    destruct (trimLeft_app_cases unicode_IsSpace s (replicate k 59))
      as [-> | [H _]]; [rewrite HL; reflexivity|].
    rewrite HL in H. discriminate H. }
  assert (Hsel : strings_HasPrefix
                   (strings_ToUpper U (strings_TrimSpace x))
                   (runes "SELECT") = true
                 /\ exists r, strings_TrimRight (strings_TrimSpace x)
                                (runes ";") = r
                              /\ upperTrimmed U r = upperTrimmed U s
                              /\ r <> []).
  { unfold strings_TrimSpace at 1 2. rewrite HxL.
    destruct k as [|k].
    - cbn [replicate]. rewrite app_nil_r, <- HL.
      fold (strings_TrimSpace s). split; [exact Hp|].
      exists (strings_TrimSpace s). split; [|split].
      + apply trimRight_id.
        apply (last_not_semicolon U s _ Hv), TrimSpace_infix.
      + unfold upperTrimmed. rewrite TrimSpace_idem. reflexivity.
      + intros H. unfold upperTrimmed in Hp. rewrite H in Hp.
        vm_compute in Hp. discriminate Hp.
    - assert (Hkeep : trimRight unicode_IsSpace
                        ((c :: L) ++ replicate (S k) 59)
                      = (c :: L) ++ replicate (S k) 59).
      { apply trimRight_id. rewrite replicate_S_end, app_assoc, last_snoc.
        reflexivity. }
      rewrite Hkeep. split.
      + destruct (trimRight_prefix unicode_IsSpace (c :: L)) as [b Hb].
        unfold upperTrimmed, strings_TrimSpace in Hp. rewrite HL in Hp.
        apply HasPrefix_spec in Hp as [rest Hrest].
        apply HasPrefix_spec.
        exists (rest ++ strings_ToUpper U (b ++ replicate (S k) 59)).
        rewrite Hb at 1. rewrite <- app_assoc, ToUpper_app, Hrest.
        rewrite <- app_assoc. reflexivity.
      + exists (c :: L). split; [|split].
        * unfold strings_TrimRight.
          rewrite (trimRight_all _ _ _ (semicolons_cut (S k))).
          apply trimRight_id.
          apply (last_not_semicolon U s _ Hv).
          destruct (trimLeft_suffix unicode_IsSpace s) as [a Ha].
          exists a, []. rewrite app_nil_r, <- HL. exact Ha.
        * unfold upperTrimmed, strings_TrimSpace.
          rewrite <- HL, trimLeft_idem. reflexivity.
        * discriminate. }
  destruct Hsel as (Hsel & r & Hr & Hup & Hrne).
  assert (Hx : extractSQL U x = r).
  { unfold extractSQL. rewrite (findFenced_no_backtick x Hx96).
    rewrite (splitOn_no_separator 10 x Hx10). cbn [List.find].
    rewrite Hsel. exact Hr. }
  rewrite Hx. split; [exact Hup|].
  apply (validate_None_upper U r s Hup); [|exact Hv].
  split; [intros H; contradiction | intros H; contradiction].
Qed.

Lemma extractSQL_strips_semicolons_witness :
  validateReadOnlySQL asciiTables
    (extractSQL asciiTables
       (runes " select id from blocks " ++ replicate 2 59)) = None.
Proof.
  apply (extractSQL_strips_semicolons asciiTables
           (runes " select id from blocks ") 2).
  - vm_compute. reflexivity.
  - apply (bool_decide_unpack _). vm_compute. exact I.
  - apply (bool_decide_unpack _). vm_compute. exact I.
Defined.

(** ** The clause builders *)

Lemma contains_refl (s : gostring) : contains s s.
Proof. exists [], []. rewrite app_nil_r. reflexivity. Qed.

Lemma contains_app_l (x a b : gostring) : contains x a -> contains x (a ++ b).
Proof.
  intros (pre & post & ->). exists pre, (post ++ b).
  rewrite <- !app_assoc. reflexivity.
Qed.

Lemma contains_app_r (x a b : gostring) : contains x b -> contains x (a ++ b).
Proof.
  intros (pre & post & ->). exists (a ++ pre), post.
  rewrite <- !app_assoc. reflexivity.
Qed.

Lemma contains_Join (x : gostring) (parts : list gostring) (sep : gostring) :
  x ∈ parts -> contains x (strings_Join parts sep).
Proof.
  induction parts as [|e rest IH]; intros Hx.
  - apply elem_of_nil in Hx. contradiction.
  - apply elem_of_cons in Hx as [-> | Hx].
    + destruct rest as [|e' rest']; [apply contains_refl|].
      cbn [strings_Join]. apply contains_app_l, contains_refl.
    + destruct rest as [|e' rest'].
      * apply elem_of_nil in Hx. contradiction.
      * change (strings_Join (e :: e' :: rest') sep)
          with (e ++ sep ++ strings_Join (e' :: rest') sep).
        apply contains_app_r, contains_app_r, IH, Hx.
Qed.

Lemma wrapped_nonempty (parts : list gostring) :
  runes " AND (" ++ strings_Join parts (runes " OR ") ++ runes ")" <> [].
Proof.
  assert (exists r, runes " AND (" = 32 :: r) as [r ->]
    by (eexists; vm_compute; reflexivity).
  discriminate.
Qed.

(** X5. The assignee clause is absent exactly when the catalog has no
    person and no multi-person property; otherwise every person property
    is compared with the user id, and for every multi-person property the
    user id is looked for among its values. *)
Theorem buildAssigneeClause_every_property (userID : gostring)
  (c : propCatalog) :
  (buildAssigneeClause userID (Some c) = []
   <-> PersonPropIDs c = [] /\ MultiPersonPropIDs c = [])
  /\ (forall pid, pid ∈ PersonPropIDs c ->
        contains (runes "json_extract(fields, '$.properties." ++ pid
                  ++ runes "') = '" ++ userID ++ runes "'")
                 (buildAssigneeClause userID (Some c)))
  /\ (forall pid, pid ∈ MultiPersonPropIDs c ->
        contains (runes "EXISTS (SELECT 1 FROM json_each(json_extract(fields, '$.properties."
                  ++ pid ++ runes "')) WHERE value = '" ++ userID
                  ++ runes "')")
                 (buildAssigneeClause userID (Some c))).
Proof.
  unfold buildAssigneeClause.
  set (person := fun pid : gostring =>
         runes "json_extract(fields, '$.properties." ++ pid
         ++ runes "') = '" ++ userID ++ runes "'").
  set (multi := fun pid : gostring =>
         runes "EXISTS (SELECT 1 FROM json_each(json_extract(fields, '$.properties."
         ++ pid ++ runes "')) WHERE value = '" ++ userID ++ runes "')").
  assert (Hin : forall x,
            x ∈ List.map person (PersonPropIDs c)
                ++ List.map multi (MultiPersonPropIDs c) ->
            contains x (runes " AND ("
                        ++ strings_Join
                             (List.map person (PersonPropIDs c)
                              ++ List.map multi (MultiPersonPropIDs c))
                             (runes " OR ") ++ runes ")")).
  { intros x Hx. apply contains_app_r, contains_app_l, contains_Join, Hx. }
  assert (Hp : forall pid, pid ∈ PersonPropIDs c ->
            person pid ∈ List.map person (PersonPropIDs c)
                         ++ List.map multi (MultiPersonPropIDs c)).
  { intros pid H. apply elem_of_app. left.
    apply list_elem_of_fmap. exists pid. split; [reflexivity | exact H]. }
  assert (Hm : forall pid, pid ∈ MultiPersonPropIDs c ->
            multi pid ∈ List.map person (PersonPropIDs c)
                        ++ List.map multi (MultiPersonPropIDs c)).
  { intros pid H. apply elem_of_app. right.
    apply list_elem_of_fmap. exists pid. split; [reflexivity | exact H]. }
  destruct (PersonPropIDs c) as [|p ps] eqn:E1;
    destruct (MultiPersonPropIDs c) as [|m ms] eqn:E2.
  - split; [split; auto|]. split; intros pid H; apply elem_of_nil in H;
      contradiction.
  - split; [|split].
    + split; [intros H; exfalso; exact (wrapped_nonempty _ H)|].
      intros [_ H]. discriminate H.
    + intros pid H. apply elem_of_nil in H. contradiction.
    + intros pid H. apply Hin, Hm, H.
  - split; [|split].
    + split; [intros H; exfalso; exact (wrapped_nonempty _ H)|].
      intros [H _]. discriminate H.
    + intros pid H. apply Hin, Hp, H.
    + intros pid H. apply elem_of_nil in H. contradiction.
  - split; [|split].
    + split; [intros H; exfalso; exact (wrapped_nonempty _ H)|].
      intros [H _]. discriminate H.
    + intros pid H. apply Hin, Hp, H.
    + intros pid H. apply Hin, Hm, H.
Qed.

Lemma synonymIDs_nil (U : UnicodeTables) (syn : list gostring)
  (opts : gmap gostring gostring) :
  synonymIDs U syn opts = []
  <-> forall v, v ∈ syn -> opts !! strings_ToUpper U v = None.
Proof.
  unfold synonymIDs. induction syn as [|v syn IH].
  - split; [|reflexivity]. intros _ v H. apply elem_of_nil in H.
    contradiction.
  - cbn [List.flat_map]. split.
    + intros H. apply app_eq_nil in H as [H1 H2].
      intros w [Hw | Hw]%elem_of_cons.
      * subst w.
        destruct (opts !! strings_ToUpper U v); [discriminate H1|reflexivity].
      * apply IH; assumption.
    + intros H. rewrite (H v) by left. cbn [app].
      apply IH. intros w Hw. apply H. right. exact Hw.
Qed.

Lemma statusInParts_nil (U : UnicodeTables) (syn : list gostring)
  (entries : list (gostring * gmap gostring gostring)) :
  statusInParts U syn entries = []
  <-> forall sid opts, (sid, opts) ∈ entries -> synonymIDs U syn opts = [].
Proof.
  unfold statusInParts. induction entries as [|[sid opts] rest IH].
  - split; [|reflexivity]. intros _ s o H. apply elem_of_nil in H.
    contradiction.
  - cbn [List.flat_map]. split.
    + intros H. apply app_eq_nil in H as [H1 H2].
      intros s o [Hw | Hw]%elem_of_cons.
      * injection Hw as -> ->.
        destruct (synonymIDs U syn opts); [reflexivity | discriminate H1].
      * apply (proj1 IH H2 s o Hw).
    + intros H. rewrite (H sid opts) by left. cbn [app].
      apply IH. intros s o Hw. apply (H s o). right. exact Hw.
Qed.

Lemma statusInClause_nil (U : UnicodeTables) (syn : list gostring)
  (c : propCatalog) :
  statusInClause U syn (Some c) = []
  <-> forall sid opts v,
        (sid, opts) ∈ StatusPropOptions c -> v ∈ syn ->
        opts !! strings_ToUpper U v = None.
Proof.
  assert (Hparts : statusInClause U syn (Some c) = []
                   <-> statusInParts U syn (StatusPropOptions c) = []).
  { unfold statusInClause.
    destruct (StatusPropOptions c) as [|e es]; [split; reflexivity|].
    destruct (statusInParts U syn (e :: es)) as [|p ps];
      [split; reflexivity|].
    split; [intros H; exfalso; exact (wrapped_nonempty _ H)|].
    intros H. discriminate H. }
  rewrite Hparts, statusInParts_nil. split.
  - intros H sid opts v Hin Hv.
    exact (proj1 (synonymIDs_nil U syn opts) (H sid opts Hin) v Hv).
  - intros H sid opts Hin. apply synonymIDs_nil.
    intros v Hv. exact (H sid opts v Hin Hv).
Qed.

(** X6. The clause of the done template is absent exactly when no
    status property of the catalog has an option under one of the three
    done synonyms (upper-cased), and the same holds of the in-progress
    template and its synonyms: the statement then carries no status
    filter.  The clause of the open template is absent only when the
    catalog has no status property at all. *)
Theorem status_clauses_absent (U : UnicodeTables) (c : propCatalog) :
  (buildStatusDoneClause U (Some c) = []
   <-> forall sid opts v,
         (sid, opts) ∈ StatusPropOptions c -> v ∈ doneSyn ->
         opts !! strings_ToUpper U v = None)
  /\ (buildStatusProgressClause U (Some c) = []
      <-> forall sid opts v,
            (sid, opts) ∈ StatusPropOptions c -> v ∈ progSyn ->
            opts !! strings_ToUpper U v = None)
  /\ (buildStatusOpenClause U (Some c) = [] <-> StatusPropOptions c = []).
Proof.
  split; [apply statusInClause_nil|]. split; [apply statusInClause_nil|].
  unfold buildStatusOpenClause.
  destruct (StatusPropOptions c) as [|e es]; [split; reflexivity|].
  split; [intros H; exfalso; exact (wrapped_nonempty _ H)|].
  intros H. discriminate H.
Qed.

Lemma builders_noProperties (U : UnicodeTables) (userID : gostring)
  (cat : option propCatalog) :
  noProperties cat ->
  buildAssigneeClause userID cat = []
  /\ buildStatusOpenClause U cat = []
  /\ buildStatusDoneClause U cat = []
  /\ buildStatusProgressClause U cat = []
  /\ buildOverdueClause U cat = [].
Proof.
  destruct cat as [c|]; [|intros _; repeat split; reflexivity].
  intros (Hp & Hm & Hs & Hd).
  unfold buildOverdueClause, buildStatusDoneClause,
    buildStatusProgressClause, statusInClause, buildStatusOpenClause,
    buildAssigneeClause.
  rewrite Hp, Hm, Hs, Hd. repeat split; reflexivity.
Qed.

Lemma unfiltered_is_fallback :
  dropBlanks (selectCards ++ orderLimit) = dropBlanks fallbackSQL.
Proof. vm_compute. reflexivity. Qed.

(** X7. A failed discovery of the catalog is not an error of
    [generateSQL]: it goes on with the nil catalog.  With the nil
    catalog, or one that knows no property, every template question gets
    the same statement, the cards of everybody with no filter on the
    user or on the status, and this statement passes the validator. *)
Theorem generateSQL_without_catalog (U : UnicodeTables) (E : Env)
  (schema userID question : gostring) (t : list event) :
  noProperties (discovered E t) ->
  isTemplateQuestion U question = true ->
  generateSQL U E schema userID question t
  = (Ok (selectCards ++ orderLimit),
     t ++ [DiscoverCatalog; Validate (selectCards ++ orderLimit) None])
  /\ dropBlanks (selectCards ++ orderLimit) = dropBlanks fallbackSQL.
Proof.
  intros Hno Hq.
  destruct (builders_noProperties U userID _ Hno)
    as (Ha & Ho & Hd & Hp & Hv).
  split; [|exact unfiltered_is_fallback].
  destruct (generateSQL_template U E schema userID question t Hq)
    as (clauses & Hc & ->).
  assert (clauses = []) as ->.
  { rewrite Ha in Hc. rewrite Ho, Hd, Hp, Hv in Hc.
    destruct Hc as [-> | [-> | [-> | [-> | ->]]]]; reflexivity. }
  pose proof (template_valid U [] (clauseOK_nil U)) as Hvalid.
  rewrite (app_nil_l orderLimit) in Hvalid.
  rewrite (app_nil_l orderLimit).
  rewrite validated_spec, Hvalid, <- app_assoc. reflexivity.
Qed.

Lemma generateSQL_without_catalog_witness :
  fst (generateSQL asciiTables
         {| DBType := runes "sqlite3"; DBConfigString := [];
            DASHSCOPE_API_KEY := []; DASHSCOPE_MODEL := [];
            qwen := fun _ _ _ => QwenTransportError [];
            sqlite := fun _ _ _ => OpenFailed [];
            catalog := fun _ => Err (ErrForeign (runes "no such table")) |}
         ragSchemaDDL (runes "u1") (runes "我的任务") [])
  = Ok (selectCards ++ orderLimit).
Proof.
  destruct (generateSQL_without_catalog asciiTables
              {| DBType := runes "sqlite3"; DBConfigString := [];
                 DASHSCOPE_API_KEY := []; DASHSCOPE_MODEL := [];
                 qwen := fun _ _ _ => QwenTransportError [];
                 sqlite := fun _ _ _ => OpenFailed [];
                 catalog := fun _ => Err (ErrForeign (runes "no such table")) |}
              ragSchemaDDL (runes "u1") (runes "我的任务") [])
    as [H _].
  - exact I.
  - vm_compute. reflexivity.
  - rewrite H. reflexivity.
Defined.

(** ** The steps of [PrepareRAGResponse] *)

(** The pipeline, step by step, with the trace each step leaves. *)
Lemma PrepareRAGResponse_steps (U : UnicodeTables) (E : Env)
  (userID question : gostring) (t : list event) :
  PrepareRAGResponse U E userID question t
  = match classifyIntent U E question t with
    | (Err e, t1) => (Err e, t1)
    | (Ok intent, t1) =>
      if gostring_eqb intent intentChat then (Err ErrIntentIsChat, t1)
      else if negb (gostring_eqb intent intentQueryData)
      then (Err ErrUnknownIntent, t1)
      else
        match generateSQL U E ragSchemaDDL userID question t1 with
        | (Err e, t2) => (Err e, t2)
        | (Ok sqlText, t2) =>
          match executeQuery U E sqlText t2 with
          | (Err e, t3) => (Err e, t3)
          | (Ok contextJSON, t3) =>
            if gostring_eqb (strings_TrimSpace contextJSON) (runes "[]")
            then
              match executeQuery U E fallbackSQL t3 with
              | (Ok fbJSON, t4) => (Ok (buildFinalPrompt question fbJSON), t4)
              | (Err _, t4) => (Ok (buildFinalPrompt question contextJSON), t4)
              end
            else (Ok (buildFinalPrompt question contextJSON), t3)
          end
        end
    end.
Proof.
  unfold PrepareRAGResponse, ret, bind at 1.
  destruct (classifyIntent U E question t) as [[intent|e] t1];
    [|reflexivity].
  destruct (gostring_eqb intent intentChat); [reflexivity|].
  destruct (negb _); [reflexivity|].
  unfold bind at 1.
  destruct (generateSQL U E ragSchemaDDL userID question t1)
    as [[sqlText|e] t2]; [|reflexivity].
  unfold bind at 1.
  destruct (executeQuery U E sqlText t2) as [[contextJSON|e] t3];
    [|reflexivity].
  unfold bind at 1.
  destruct (gostring_eqb _ _); [|reflexivity].
  unfold bind at 1.
  destruct (executeQuery U E fallbackSQL t3) as [[fb|e] t4]; reflexivity.
Qed.

Lemma intent_values_differ :
  gostring_eqb intentChat intentChat = true
  /\ gostring_eqb intentQueryData intentChat = false
  /\ gostring_eqb intentQueryData intentQueryData = true.
Proof. vm_compute. repeat split; reflexivity. Qed.

Lemma PrepareRAGResponse_query_data (U : UnicodeTables) (E : Env)
  (userID question : gostring) (t t1 : list event) :
  classifyIntent U E question t = (Ok intentQueryData, t1) ->
  PrepareRAGResponse U E userID question t
  = match generateSQL U E ragSchemaDDL userID question t1 with
    | (Err e, t2) => (Err e, t2)
    | (Ok sqlText, t2) =>
      match executeQuery U E sqlText t2 with
      | (Err e, t3) => (Err e, t3)
      | (Ok contextJSON, t3) =>
        if gostring_eqb (strings_TrimSpace contextJSON) (runes "[]")
        then
          match executeQuery U E fallbackSQL t3 with
          | (Ok fbJSON, t4) => (Ok (buildFinalPrompt question fbJSON), t4)
          | (Err _, t4) => (Ok (buildFinalPrompt question contextJSON), t4)
          end
        else (Ok (buildFinalPrompt question contextJSON), t3)
      end
    end.
Proof.
  intros Hc. rewrite PrepareRAGResponse_steps, Hc.
  destruct intent_values_differ as (_ & -> & ->). reflexivity.
Qed.

(** [executeQuery] when the database answers with rows. *)
Lemma executeQuery_answer (U : UnicodeTables) (E : Env) (query : gostring)
  (t : list event) :
  executeQuery U E query t
  = (if negb (gostring_eqb (strings_ToLower U (DBType E)) (runes "sqlite3"))
     then Err ErrUnsupportedDBType
     else match sqlite E (t ++ [ExecuteQuery query])
                  (dsnOf (DBConfigString E)) query with
          | OpenFailed msg => Err (ErrForeign msg)
          | QueryFailed msg => Err (ErrForeign msg)
          | ColumnsFailed msg => Err (ErrForeign msg)
          | Rows cols rows RowsDone => json_Marshal (materialize cols rows)
          | Rows _ _ (ScanFailed msg) => Err (ErrForeign msg)
          | Rows _ _ (RowsFailed msg) => Err (ErrForeign msg)
          end,
     t ++ [ExecuteQuery query]).
Proof.
  unfold executeQuery, bind, emit, history, ret.
  destruct (negb _); [reflexivity|].
  destruct (sqlite E _ _ _) as [m|m|m|cols rows [|m|m]]; try reflexivity.
  destruct (json_Marshal _); reflexivity.
Qed.

Lemma materialize_nil_iff (cols : list gostring) (rows : list (list value)) :
  materialize cols rows = [] <-> rows = [].
Proof.
  unfold materialize. destruct rows; split; intros H;
    try reflexivity; discriminate H.
Qed.

(** X8. The fallback statement runs exactly when the first statement
    brought no row.  When the database answers the first statement with
    at least one row and [json.Marshal] serializes the rows, the run
    ends after that one query, and its prompt is the instructions, the
    question between quotes, the serialized rows after the line that
    announces the data, and the line that asks for the answer.  When
    [json.Marshal] fails on the rows (a REAL that is not finite, a time
    out of range), the run ends after that one query with the error of
    [json.Marshal] and no prompt.  When the database answers with no
    row, the fallback statement is the next and last query of the
    run. *)
Theorem fallback_exactly_on_no_rows (U : UnicodeTables) (E : Env)
  (userID question sqlText : gostring) (t t1 t2 : list event)
  (cols : list gostring) (rows : list (list value)) :
  classifyIntent U E question t = (Ok intentQueryData, t1) ->
  generateSQL U E ragSchemaDDL userID question t1 = (Ok sqlText, t2) ->
  strings_ToLower U (DBType E) = runes "sqlite3" ->
  sqlite E (t2 ++ [ExecuteQuery sqlText]) (dsnOf (DBConfigString E)) sqlText
  = Rows cols rows RowsDone ->
  (forall contextJSON,
     rows <> [] ->
     json_Marshal (materialize cols rows) = Ok contextJSON ->
     PrepareRAGResponse U E userID question t
     = (Ok (runes "你是一个 Focal Board 任务助手。请根据我提供的 JSON 实时数据，为用户生成一份简短、友好、易于阅读的中文任务总结。

"
           ++ runes "【重要规则】:
"
           ++ runes "1. **不要**复述或打印原始的 JSON 数据。
"
           ++ runes "2. **直接**开始你的总结性回答 (例如：'你好！根据你的任务情况...')。
"
           ++ runes "3. 使用表情符号 (✅, 🚀) 来组织你的回答。
"
           ++ runes "4. 如果数据中有逾期的任务，请明确指出。

"
           ++ runes "用户问题: " ++ [34]
           ++ question
           ++ [34] ++ runes "

实时数据 (JSON 格式):
"
           ++ contextJSON
           ++ runes "

你的回答 (请直接开始总结):
"),
        t2 ++ [ExecuteQuery sqlText]))
  /\ (forall e,
        json_Marshal (materialize cols rows) = Err e ->
        PrepareRAGResponse U E userID question t
        = (Err e, t2 ++ [ExecuteQuery sqlText]))
  /\ (rows = [] ->
      snd (PrepareRAGResponse U E userID question t)
      = t2 ++ [ExecuteQuery sqlText; ExecuteQuery fallbackSQL]).
Proof.
  intros Hc Hg Hdb Hrows.
  rewrite (PrepareRAGResponse_query_data U E userID question t t1 Hc), Hg.
  rewrite (executeQuery_answer U E sqlText t2), Hdb, Hrows.
  assert (Hsq : negb (gostring_eqb (runes "sqlite3") (runes "sqlite3"))
                = false) by (vm_compute; reflexivity).
  rewrite Hsq.
  assert (Hbr : runes "[]" = [91; 93]) by (vm_compute; reflexivity).
  rewrite Hbr. unfold gostring_eqb.
  split; [|split].
  - intros contextJSON Hne Hm. rewrite Hm.
    pose proof (json_Marshal_empty _ _ Hm) as Hempty.
    rewrite materialize_nil_iff in Hempty.
    rewrite bool_decide_eq_false_2; [reflexivity|].
    intros H. apply Hne, Hempty, H.
  - intros e ->. reflexivity.
  - intros Hnil.
    assert (Hm : json_Marshal (materialize cols rows) = Ok [91; 93])
      by (rewrite Hnil; reflexivity).
    rewrite Hm.
    rewrite bool_decide_eq_true_2 by (vm_compute; reflexivity).
    rewrite (executeQuery_answer U E fallbackSQL).
    destruct (if negb _ then _ else _); cbn [snd];
      rewrite <- app_assoc; reflexivity.
Qed.

Lemma fallback_exactly_on_no_rows_witness :
  PrepareRAGResponse asciiTables
    (sampleEnv (runes "chat") [[VText (runes "c1"); VInt 7]])
    (runes "u1") (runes "我的任务") []
  = (Ok (runes "你是一个 Focal Board 任务助手。请根据我提供的 JSON 实时数据，为用户生成一份简短、友好、易于阅读的中文任务总结。

"
           ++ runes "【重要规则】:
"
           ++ runes "1. **不要**复述或打印原始的 JSON 数据。
"
           ++ runes "2. **直接**开始你的总结性回答 (例如：'你好！根据你的任务情况...')。
"
           ++ runes "3. 使用表情符号 (✅, 🚀) 来组织你的回答。
"
           ++ runes "4. 如果数据中有逾期的任务，请明确指出。

"
           ++ runes "用户问题: " ++ [34]
           ++ runes "我的任务"
           ++ [34] ++ runes "

实时数据 (JSON 格式):
"
           ++ [91; 123; 34] ++ runes "id" ++ [34; 58; 34] ++ runes "c1"
           ++ [34; 44; 34] ++ runes "n" ++ [34; 58] ++ runes "7}]"
           ++ runes "

你的回答 (请直接开始总结):
"),
     snd (generateSQL asciiTables
            (sampleEnv (runes "chat") [[VText (runes "c1"); VInt 7]])
            ragSchemaDDL (runes "u1") (runes "我的任务") [])
     ++ [ExecuteQuery
           (runes "SELECT id, title, board_id, fields, update_at FROM blocks WHERE type='card' AND delete_at=0  AND (json_extract(fields, '$.properties.assignee') = 'u1') ORDER BY update_at DESC LIMIT 50")])
  /\ PrepareRAGResponse asciiTables
       (sampleEnv (runes "chat")
          [[VText (runes "c1"); VFloat (FloatInf false)]])
       (runes "u1") (runes "我的任务") []
     = (Err (ErrForeign (runes "json: unsupported value: +Inf")),
        snd (generateSQL asciiTables
               (sampleEnv (runes "chat")
                  [[VText (runes "c1"); VFloat (FloatInf false)]])
               ragSchemaDDL (runes "u1") (runes "我的任务") [])
        ++ [ExecuteQuery
              (runes "SELECT id, title, board_id, fields, update_at FROM blocks WHERE type='card' AND delete_at=0  AND (json_extract(fields, '$.properties.assignee') = 'u1') ORDER BY update_at DESC LIMIT 50")]).
Proof.
  split.
  - assert (Hc : classifyIntent asciiTables
                   (sampleEnv (runes "chat") [[VText (runes "c1"); VInt 7]])
                   (runes "我的任务") [] = (Ok intentQueryData, []))
      by (vm_compute; reflexivity).
    assert (Hg : generateSQL asciiTables
                   (sampleEnv (runes "chat") [[VText (runes "c1"); VInt 7]])
                   ragSchemaDDL (runes "u1") (runes "我的任务") []
                 = (Ok (runes "SELECT id, title, board_id, fields, update_at FROM blocks WHERE type='card' AND delete_at=0  AND (json_extract(fields, '$.properties.assignee') = 'u1') ORDER BY update_at DESC LIMIT 50"),
                    snd (generateSQL asciiTables
                           (sampleEnv (runes "chat")
                              [[VText (runes "c1"); VInt 7]])
                           ragSchemaDDL (runes "u1") (runes "我的任务") [])))
      by (vm_compute; reflexivity).
    assert (Hm : json_Marshal (materialize [runes "id"; runes "n"]
                                [[VText (runes "c1"); VInt 7]])
                 = Ok ([91; 123; 34] ++ runes "id" ++ [34; 58; 34] ++ runes "c1"
                       ++ [34; 44; 34] ++ runes "n" ++ [34; 58] ++ runes "7}]"))
      by (vm_compute; reflexivity).
    destruct (fallback_exactly_on_no_rows asciiTables _ _ _ _ _ _ _
                [runes "id"; runes "n"] [[VText (runes "c1"); VInt 7]] Hc Hg)
      as [H _].
    + vm_compute. reflexivity.
    + reflexivity.
    + exact (H _ ltac:(discriminate) Hm).
  - assert (Hc : classifyIntent asciiTables
                   (sampleEnv (runes "chat")
                      [[VText (runes "c1"); VFloat (FloatInf false)]])
                   (runes "我的任务") [] = (Ok intentQueryData, []))
      by (vm_compute; reflexivity).
    assert (Hg : generateSQL asciiTables
                   (sampleEnv (runes "chat")
                      [[VText (runes "c1"); VFloat (FloatInf false)]])
                   ragSchemaDDL (runes "u1") (runes "我的任务") []
                 = (Ok (runes "SELECT id, title, board_id, fields, update_at FROM blocks WHERE type='card' AND delete_at=0  AND (json_extract(fields, '$.properties.assignee') = 'u1') ORDER BY update_at DESC LIMIT 50"),
                    snd (generateSQL asciiTables
                           (sampleEnv (runes "chat")
                              [[VText (runes "c1"); VFloat (FloatInf false)]])
                           ragSchemaDDL (runes "u1") (runes "我的任务") [])))
      by (vm_compute; reflexivity).
    assert (Hm : json_Marshal (materialize [runes "id"; runes "n"]
                                [[VText (runes "c1"); VFloat (FloatInf false)]])
                 = Err (ErrForeign (runes "json: unsupported value: +Inf")))
      by (vm_compute; reflexivity).
    destruct (fallback_exactly_on_no_rows asciiTables _ _ _ _ _ _ _
                [runes "id"; runes "n"]
                [[VText (runes "c1"); VFloat (FloatInf false)]] Hc Hg)
      as (_ & H & _).
    + vm_compute. reflexivity.
    + reflexivity.
    + exact (H _ Hm).
Defined.

(** ** What a run of the pipeline calls, and how it fails *)

Lemma callQwenInternal_no_key (E : Env) (prompt : gostring)
  (t : list event) :
  strings_TrimSpace (DASHSCOPE_API_KEY E) = [] ->
  callQwenInternal E prompt t = (Err ErrAPIKeyNotSet, t ++ [CallQwen prompt]).
Proof.
  intros H. unfold callQwenInternal, bind, emit, history, ret.
  rewrite H. reflexivity.
Qed.

Lemma callQwenInternal_errors (E : Env) (prompt : gostring)
  (t : list event) (e : error) :
  fst (callQwenInternal E prompt t) = Err e ->
  isValidationError e = false /\ e <> ErrIntentIsChat
  /\ e <> ErrUnsupportedDBType.
Proof.
  unfold callQwenInternal, bind, emit, history, ret.
  destruct (strings_TrimSpace _);
    [intros [= <-]; repeat split; discriminate|].
  destruct (qwen E _ _ _) as [msg | code body choices];
    [intros [= <-]; repeat split; discriminate|].
  destruct (negb _); [intros [= <-]; repeat split; discriminate|].
  destruct choices as [[|content rest]|]; intros [= <-];
    repeat split; discriminate.
Qed.

Lemma validate_errors (U : UnicodeTables) (s : gostring) (e : error) :
  validateReadOnlySQL U s = Some e -> isValidationError e = true.
Proof.
  unfold validateReadOnlySQL. destruct s as [|c s]; [intros [= <-]; reflexivity|].
  destruct (negb _); [intros [= <-]; reflexivity|].
  destruct (List.find _ forbiddenKeywords); [intros [= <-]; reflexivity|].
  destruct (List.find _ forbiddenChars); [intros [= <-]; reflexivity|].
  discriminate.
Qed.

Lemma executeQuery_errors (U : UnicodeTables) (E : Env) (query : gostring)
  (t : list event) (e : error) :
  fst (executeQuery U E query t) = Err e ->
  isValidationError e = false /\ isLLMError e = false
  /\ e <> ErrIntentIsChat.
Proof.
  rewrite executeQuery_answer. cbn [fst].
  destruct (negb _); [intros [= <-]; repeat split; discriminate|].
  destruct (sqlite E _ _ _) as [m|m|m|cols rows [|m|m]];
    try (intros [= <-]; repeat split; discriminate).
  intros Hm. destruct (json_Marshal_errors _ _ Hm) as [msg ->].
  repeat split; discriminate.
Qed.

(** [classifyIntent] calls the LLM or leaves the trace alone; an error
    is one of [callQwenInternal]. *)
Lemma classifyIntent_events (U : UnicodeTables) (E : Env)
  (question : gostring) (t : list event) :
  (matchesKeywordRule U question = true
   /\ classifyIntent U E question t = (Ok intentQueryData, t))
  \/ (matchesKeywordRule U question = false
      /\ snd (classifyIntent U E question t)
         = t ++ [CallQwen (classifyPrompt question)]
      /\ forall e, fst (classifyIntent U E question t) = Err e ->
                   fst (callQwenInternal E (classifyPrompt question) t)
                   = Err e).
Proof.
  destruct (matchesKeywordRule U question) eqn:H.
  - left. split; [reflexivity|]. apply classifyIntent_keyword, H.
  - right. split; [reflexivity|].
    rewrite (classifyIntent_llm U E question t H). cbn [fst snd].
    split; [reflexivity|]. intros e.
    destruct (fst (callQwenInternal E (classifyPrompt question) t));
      [|intros H'; exact H'].
    destruct (strings_Contains _ _); discriminate.
Qed.

(** The branch of [generateSQL] that asks the model. *)
Lemma generateSQL_llm (U : UnicodeTables) (E : Env)
  (schema userID question : gostring) (t : list event) :
  isTemplateQuestion U question = false ->
  generateSQL U E schema userID question t
  = match callQwenInternal E (generatePrompt userID schema question)
            (t ++ [DiscoverCatalog]) with
    | (Err e, t') => (Err e, t')
    | (Ok out, t') => validated U (extractSQL U (strings_TrimSpace out)) t'
    end.
Proof.
  unfold isTemplateQuestion, generateSQL. intros H.
  unfold bind at 1.
  unfold discoverPropertyCatalog, bind at 1, emit, history, ret.
  cbv beta iota.
  set (q := strings_ToLower U (strings_TrimSpace question)) in *.
  apply orb_false_iff in H as [H H5]. apply orb_false_iff in H as [H H4].
  apply orb_false_iff in H as [H H3]. apply orb_false_iff in H as [H1 H2].
  rewrite H1, H2, H3, H4, H5.
  unfold bind, ret.
  destruct (callQwenInternal E _ _) as [[out|e] t']; reflexivity.
Qed.

(** What [generateSQL] adds to the trace: the discovery, then the
    validation of a template statement, or the call of the model and,
    when that succeeds, the validation of what was extracted from its
    answer.  An error it returns is the one of the model call or the
    verdict of the validator. *)
Lemma generateSQL_events (U : UnicodeTables) (E : Env)
  (schema userID question : gostring) (t : list event) :
  (isTemplateQuestion U question = true
   /\ exists s,
        generateSQL U E schema userID question t
        = (match validateReadOnlySQL U s with
           | Some e => Err e
           | None => Ok s
           end,
           t ++ [DiscoverCatalog; Validate s (validateReadOnlySQL U s)]))
  \/ (isTemplateQuestion U question = false
      /\ exists e,
           fst (callQwenInternal E (generatePrompt userID schema question)
                  (t ++ [DiscoverCatalog])) = Err e
           /\ generateSQL U E schema userID question t
              = (Err e,
                 t ++ [DiscoverCatalog;
                       CallQwen (generatePrompt userID schema question)]))
  \/ (isTemplateQuestion U question = false
      /\ exists out,
           fst (callQwenInternal E (generatePrompt userID schema question)
                  (t ++ [DiscoverCatalog])) = Ok out
           /\ generateSQL U E schema userID question t
              = (match validateReadOnlySQL U
                         (extractSQL U (strings_TrimSpace out)) with
                 | Some e => Err e
                 | None => Ok (extractSQL U (strings_TrimSpace out))
                 end,
                 t ++ [DiscoverCatalog;
                       CallQwen (generatePrompt userID schema question);
                       Validate (extractSQL U (strings_TrimSpace out))
                         (validateReadOnlySQL U
                            (extractSQL U (strings_TrimSpace out)))])).
Proof.
  destruct (isTemplateQuestion U question) eqn:Hq.
  - left. split; [reflexivity|].
    destruct (generateSQL_template U E schema userID question t Hq)
      as (clauses & _ & ->).
    exists (selectCards ++ clauses ++ orderLimit).
    rewrite validated_spec, <- app_assoc. reflexivity.
  - right. rewrite (generateSQL_llm U E schema userID question t Hq).
    pose proof (callQwenInternal_trace E
                  (generatePrompt userID schema question)
                  (t ++ [DiscoverCatalog])) as Ht.
    destruct (callQwenInternal E _ _) as [[out|e] t'];
      cbn [fst snd] in Ht |- *; subst t'.
    + right. split; [reflexivity|]. exists out. split; [reflexivity|].
      rewrite validated_spec, <- !app_assoc. reflexivity.
    + left. split; [reflexivity|]. exists e. split; [reflexivity|].
      rewrite <- app_assoc. reflexivity.
Qed.

(** An error of [generateSQL] is a verdict of the validator, with the
    validation as the last event, or an error of the model call. *)
Lemma generateSQL_failure (U : UnicodeTables) (E : Env)
  (schema userID question : gostring) (t t2 : list event) (e : error) :
  generateSQL U E schema userID question t = (Err e, t2) ->
  exists evs,
    t2 = t ++ evs /\ executions evs = 0%nat
    /\ e <> ErrIntentIsChat /\ e <> ErrUnsupportedDBType
    /\ (isValidationError e = true ->
        exists pre s, evs = pre ++ [Validate s (Some e)]
                      /\ validateReadOnlySQL U s = Some e).
Proof.
  intros Hg.
  destruct (generateSQL_events U E schema userID question t)
    as [(_ & s & H) | [(_ & e' & He & H) | (_ & out & _ & H)]];
    rewrite H in Hg.
  - destruct (validateReadOnlySQL U s) as [e'|] eqn:Hv; [|discriminate Hg].
    injection Hg as -> <-. eexists. split; [reflexivity|].
    pose proof (validate_errors U s e Hv) as Hk.
    split; [reflexivity|].
    split; [intros ->; discriminate Hk|].
    split; [intros ->; discriminate Hk|].
    intros _. exists [DiscoverCatalog], s. split; [reflexivity | exact Hv].
  - injection Hg as -> <-. eexists. split; [reflexivity|].
    destruct (callQwenInternal_errors E _ _ _ He) as (Hk & H1 & H2).
    split; [reflexivity|]. split; [exact H1|]. split; [exact H2|].
    intros Hk'. rewrite Hk in Hk'. discriminate Hk'.
  - destruct (validateReadOnlySQL U _) as [e'|] eqn:Hv; [|discriminate Hg].
    injection Hg as -> <-. eexists. split; [reflexivity|].
    pose proof (validate_errors U _ e Hv) as Hk.
    split; [reflexivity|].
    split; [intros ->; discriminate Hk|].
    split; [intros ->; discriminate Hk|].
    intros _. eexists [DiscoverCatalog; CallQwen _], _.
    split; [reflexivity | exact Hv].
Qed.

Lemma intent_values_neq : intentQueryData <> intentChat.
Proof.
  intros H. destruct intent_values_differ as (_ & Hd & _).
  unfold gostring_eqb in Hd. rewrite bool_decide_eq_true_2 in Hd by exact H.
  discriminate Hd.
Qed.

(** After the classifier said query_data the run does not end with
    [ErrIntentIsChat]. *)
Lemma query_data_not_chat (U : UnicodeTables) (E : Env)
  (userID question : gostring) (t t1 : list event) :
  classifyIntent U E question t = (Ok intentQueryData, t1) ->
  fst (PrepareRAGResponse U E userID question t) <> Err ErrIntentIsChat.
Proof.
  intros Hc. rewrite (PrepareRAGResponse_query_data U E userID question t t1 Hc).
  destruct (generateSQL U E ragSchemaDDL userID question t1)
    as [[sqlText|e] t2] eqn:Hg.
  - destruct (executeQuery U E sqlText t2) as [[ctx|e] t3] eqn:Hx.
    + destruct (gostring_eqb _ _); [|discriminate].
      destruct (executeQuery U E fallbackSQL t3) as [[fb|e] t4]; discriminate.
    + cbn [fst]. intros [= ->].
      pose proof (executeQuery_errors U E sqlText t2 ErrIntentIsChat) as H.
      rewrite Hx in H. destruct (H eq_refl) as (_ & _ & H'). congruence.
  - cbn [fst]. intros [= ->].
    destruct (generateSQL_failure U E _ _ _ _ _ _ Hg)
      as (evs & _ & _ & H & _). congruence.
Qed.

(** X9. The run ends with [ErrIntentIsChat] exactly when the classifier
    answers chat, and then it has done nothing but the one call of the
    model that classified the question: no discovery, no validation, no
    query. *)
Theorem chat_intent_stops_pipeline (U : UnicodeTables) (E : Env)
  (userID question : gostring) (t : list event) :
  (fst (PrepareRAGResponse U E userID question t) = Err ErrIntentIsChat
   <-> fst (classifyIntent U E question t) = Ok intentChat)
  /\ (fst (classifyIntent U E question t) = Ok intentChat ->
      PrepareRAGResponse U E userID question t
      = (Err ErrIntentIsChat, t ++ [CallQwen (classifyPrompt question)])).
Proof.
  assert (Hchat : fst (classifyIntent U E question t) = Ok intentChat ->
                  PrepareRAGResponse U E userID question t
                  = (Err ErrIntentIsChat,
                     t ++ [CallQwen (classifyPrompt question)])).
  { intros Hc.
    destruct (classifyIntent_events U E question t)
      as [(_ & Hk) | (_ & Ht & _)].
    - rewrite Hk in Hc. cbn [fst] in Hc.
      destruct (intent_values_neq
                  (f_equal (fun r => match r with
                                     | Ok a => a
                                     | Err _ => []
                                     end) Hc)).
    - rewrite PrepareRAGResponse_steps.
      destruct (classifyIntent U E question t) as [r t1].
      cbn [fst snd] in Hc, Ht. subst r t1.
      destruct intent_values_differ as (-> & _ & _). reflexivity. }
  split; [|exact Hchat]. split; [|intros Hc; rewrite (Hchat Hc); reflexivity].
  intros Hr.
  destruct (classifyIntent U E question t) as [[intent|e] t1] eqn:Hc.
  - destruct (classifyIntent_values U E question t intent) as [-> | ->];
      [rewrite Hc; reflexivity | reflexivity |].
    destruct (query_data_not_chat U E userID question t t1 Hc Hr).
  - rewrite PrepareRAGResponse_steps, Hc in Hr. cbn [fst] in Hr.
    injection Hr as ->.
    destruct (classifyIntent_events U E question t)
      as [(_ & Hk) | (_ & _ & He)].
    + rewrite Hk in Hc. discriminate Hc.
    + rewrite Hc in He.
      destruct (callQwenInternal_errors E _ _ _ (He _ eq_refl))
        as (_ & H & _). congruence.
Qed.

Lemma executions_app (a b : list event) :
  executions (a ++ b) = (executions a + executions b)%nat.
Proof. unfold executions. rewrite List.filter_app, length_app. reflexivity. Qed.

(** X10. A statement that the validator rejects is never run, and
    neither is anything after a failed call of the model: when the run
    ends with an error of the validator or of [callQwenInternal] (no API
    key, a status other than 200, no choice), no query was executed; and
    an error of the validator is the verdict of the validation that is
    the last event of the run. *)
Theorem failed_generation_runs_no_query (U : UnicodeTables) (E : Env)
  (userID question : gostring) (t : list event) (e : error) :
  fst (PrepareRAGResponse U E userID question t) = Err e ->
  isValidationError e || isLLMError e = true ->
  exists evs,
    snd (PrepareRAGResponse U E userID question t) = t ++ evs
    /\ executions evs = 0%nat
    /\ (isValidationError e = true ->
        exists pre s, evs = pre ++ [Validate s (Some e)]
                      /\ validateReadOnlySQL U s = Some e).
Proof.
  intros Hr Hk. rewrite PrepareRAGResponse_steps in Hr |- *.
  pose proof (classifyIntent_events U E question t) as Hev.
  destruct (classifyIntent U E question t) as [[intent|e1] t1] eqn:Hc.
  - assert (Ht1 : exists c, t1 = t ++ c /\ executions c = 0%nat).
    { destruct Hev as [(_ & [= _ <-]) | (_ & Ht & _)].
      - exists []. rewrite app_nil_r. split; reflexivity.
      - eexists. split; [exact Ht | reflexivity]. }
    destruct Ht1 as (c & -> & Hcx).
    destruct (gostring_eqb intent intentChat).
    { cbn [fst] in Hr. injection Hr as <-. discriminate Hk. }
    destruct (negb _).
    { cbn [fst] in Hr. injection Hr as <-. discriminate Hk. }
    destruct (generateSQL U E ragSchemaDDL userID question (t ++ c))
      as [[sqlText|e2] t2] eqn:Hg.
    + destruct (executeQuery U E sqlText t2) as [[ctx|e3] t3] eqn:Hx.
      * destruct (gostring_eqb _ _); [|discriminate Hr].
        destruct (executeQuery U E fallbackSQL t3) as [[fb|e4] t4];
          discriminate Hr.
      * cbn [fst] in Hr. injection Hr as ->.
        pose proof (executeQuery_errors U E sqlText t2 e) as H.
        rewrite Hx in H. destruct (H eq_refl) as (H1 & H2 & _).
        rewrite H1, H2 in Hk. discriminate Hk.
    + cbn [fst snd] in Hr |- *. injection Hr as ->.
      destruct (generateSQL_failure U E _ _ _ _ _ _ Hg)
        as (evs & -> & Hx & _ & _ & Hv).
      exists (c ++ evs). split; [rewrite app_assoc; reflexivity|].
      split; [rewrite executions_app, Hcx, Hx; reflexivity|].
      intros Hve. destruct (Hv Hve) as (pre & s & -> & Hs).
      exists (c ++ pre), s. split; [rewrite app_assoc; reflexivity | exact Hs].
  - cbn [fst snd] in Hr |- *. injection Hr as ->.
    destruct Hev as [(_ & [=]) | (_ & Ht & He)].
    cbn [fst snd] in Ht, He. subst t1.
    eexists. split; [reflexivity|]. split; [reflexivity|].
    intros Hve.
    destruct (callQwenInternal_errors E _ _ _ (He _ eq_refl)) as (H & _).
    rewrite H in Hve. discriminate Hve.
Qed.

Lemma failed_generation_runs_no_query_witness :
  exists evs,
    snd (PrepareRAGResponse asciiTables
           (sampleEnv (runes "DROP TABLE blocks") [])
           (runes "u1") (runes "查询任务") []) = [] ++ evs
    /\ executions evs = 0%nat.
Proof.
  destruct (failed_generation_runs_no_query asciiTables
              (sampleEnv (runes "DROP TABLE blocks") [])
              (runes "u1") (runes "查询任务") []
              (ErrGeneratedSQLNotSelect (runes "DROP TABLE blocks")))
    as (evs & H1 & H2 & _).
  - vm_compute. reflexivity.
  - reflexivity.
  - exists evs. split; [exact H1 | exact H2].
Defined.

Lemma llmCalls_app (a b : list event) :
  llmCalls (a ++ b) = (llmCalls a + llmCalls b)%nat.
Proof. unfold llmCalls. rewrite List.filter_app, length_app. reflexivity. Qed.

Lemma discoveries_app (a b : list event) :
  discoveries (a ++ b) = (discoveries a + discoveries b)%nat.
Proof.
  unfold discoveries. rewrite List.filter_app, length_app. reflexivity.
Qed.

Lemma validations_app (a b : list event) :
  validations (a ++ b) = (validations a + validations b)%nat.
Proof.
  unfold validations. rewrite List.filter_app, length_app. reflexivity.
Qed.

(** The events of a run, in three groups: those of the classifier,
    those of [generateSQL], and the queries. *)
Lemma PrepareRAGResponse_events (U : UnicodeTables) (E : Env)
  (userID question : gostring) (t : list event) :
  exists c g x,
    snd (PrepareRAGResponse U E userID question t) = t ++ c ++ g ++ x
    /\ (c = [] \/ exists p, c = [CallQwen p])
    /\ (g = [] \/ (exists s v, g = [DiscoverCatalog; Validate s v])
        \/ (exists p, g = [DiscoverCatalog; CallQwen p])
        \/ (exists p s v, g = [DiscoverCatalog; CallQwen p; Validate s v]))
    /\ (x = [] \/ (exists s, x = [ExecuteQuery s])
        \/ (exists s s', x = [ExecuteQuery s; ExecuteQuery s']))
    /\ (x <> [] -> exists pre s, g = pre ++ [Validate s None]).
Proof.
  rewrite PrepareRAGResponse_steps.
  pose proof (classifyIntent_events U E question t) as Hev.
  assert (Hc : exists c, snd (classifyIntent U E question t) = t ++ c
                         /\ (c = [] \/ exists p, c = [CallQwen p])).
  { destruct Hev as [(_ & ->) | (_ & -> & _)].
    - exists []. rewrite app_nil_r. split; [reflexivity | left; reflexivity].
    - eexists. split; [reflexivity|]. right. eexists. reflexivity. }
  destruct Hc as (c & Ht1 & Hshape).
  assert (Hstop : forall r : result gostring,
            exists c0 g x,
              snd (r, t ++ c) = t ++ c0 ++ g ++ x
              /\ (c0 = [] \/ exists p, c0 = [CallQwen p])
              /\ (g = [] \/ (exists s v, g = [DiscoverCatalog; Validate s v])
                  \/ (exists p, g = [DiscoverCatalog; CallQwen p])
                  \/ (exists p s v,
                        g = [DiscoverCatalog; CallQwen p; Validate s v]))
              /\ (x = [] \/ (exists s, x = [ExecuteQuery s])
                  \/ (exists s s', x = [ExecuteQuery s; ExecuteQuery s']))
              /\ (x <> [] -> exists pre s, g = pre ++ [Validate s None])).
  { intros r. exists c, [], []. rewrite !app_nil_r.
    split; [reflexivity|]. split; [exact Hshape|].
    split; [left; reflexivity|]. split; [left; reflexivity|].
    intros H. destruct (H eq_refl). }
  destruct (classifyIntent U E question t) as [[intent|e1] t1];
    cbn [snd] in Ht1; subst t1; [|apply Hstop].
  destruct (gostring_eqb intent intentChat); [apply Hstop|].
  destruct (negb _); [apply Hstop|].
  assert (Hg : exists g,
            snd (generateSQL U E ragSchemaDDL userID question (t ++ c))
            = (t ++ c) ++ g
            /\ ((exists s v, g = [DiscoverCatalog; Validate s v])
                \/ (exists p, g = [DiscoverCatalog; CallQwen p])
                \/ (exists p s v,
                      g = [DiscoverCatalog; CallQwen p; Validate s v]))).
  { destruct (generateSQL_events U E ragSchemaDDL userID question (t ++ c))
      as [(_ & s & ->) | [(_ & e & _ & ->) | (_ & out & _ & ->)]];
      eexists; (split; [reflexivity|]).
    - left. eexists _, _. reflexivity.
    - right. left. eexists. reflexivity.
    - right. right. eexists _, _, _. reflexivity. }
  destruct Hg as (g & Ht2 & Hgshape).
  assert (Hgne : forall sqlText,
            fst (generateSQL U E ragSchemaDDL userID question (t ++ c))
            = Ok sqlText ->
            exists pre s, g = pre ++ [Validate s None]).
  { intros sqlText Hok.
    destruct (generateSQL_trace U E ragSchemaDDL userID question (t ++ c))
      as (evs & Ht2' & _ & Hv).
    destruct (Hv sqlText Hok) as (_ & pre & ->).
    rewrite Ht2 in Ht2'. apply app_inv_head in Ht2'. subst g.
    exists pre, sqlText. reflexivity. }
  destruct (generateSQL U E ragSchemaDDL userID question (t ++ c))
    as [[sqlText|e2] t2]; cbn [fst snd] in Ht2, Hgne; subst t2.
  - rewrite (executeQuery_answer U E sqlText).
    destruct (if negb _ then _ else _) as [ctx|e3].
    + destruct (gostring_eqb _ _).
      * rewrite (executeQuery_answer U E fallbackSQL).
        exists c, g, [ExecuteQuery sqlText; ExecuteQuery fallbackSQL].
        split.
        { destruct (if negb _ then _ else _); cbn [snd];
            rewrite <- !app_assoc; reflexivity. }
        split; [exact Hshape|]. split; [right; exact Hgshape|].
        split; [right; right; eexists _, _; reflexivity|].
        intros _. exact (Hgne sqlText eq_refl).
      * exists c, g, [ExecuteQuery sqlText]. cbn [snd].
        split; [rewrite <- !app_assoc; reflexivity|].
        split; [exact Hshape|]. split; [right; exact Hgshape|].
        split; [right; left; eexists; reflexivity|].
        intros _. exact (Hgne sqlText eq_refl).
    + exists c, g, [ExecuteQuery sqlText]. cbn [snd].
      split; [rewrite <- !app_assoc; reflexivity|].
      split; [exact Hshape|]. split; [right; exact Hgshape|].
      split; [right; left; eexists; reflexivity|].
      intros _. exact (Hgne sqlText eq_refl).
  - exists c, g, []. cbn [snd]. rewrite app_nil_r.
    split; [rewrite <- !app_assoc; reflexivity|].
    split; [exact Hshape|]. split; [right; exact Hgshape|].
    split; [left; reflexivity|]. intros H. destruct (H eq_refl).
Qed.

(** X11. One request costs at most two calls of the model, one
    discovery of the catalog, one validation and two queries, and no
    query runs in a request that validated nothing. *)
Theorem pipeline_call_bounds (U : UnicodeTables) (E : Env)
  (userID question : gostring) (t : list event) :
  exists evs,
    snd (PrepareRAGResponse U E userID question t) = t ++ evs
    /\ (llmCalls evs <= 2)%nat
    /\ (discoveries evs <= 1)%nat
    /\ (validations evs <= 1)%nat
    /\ (executions evs <= 2)%nat
    /\ (validations evs = 0%nat -> executions evs = 0%nat).
Proof.
  destruct (PrepareRAGResponse_events U E userID question t)
    as (c & g & x & Ht & Hc & Hg & Hx & Hgx).
  exists (c ++ g ++ x). split; [exact Ht|].
  rewrite !llmCalls_app, !discoveries_app, !validations_app, !executions_app.
  assert (Hcn : (llmCalls c <= 1)%nat /\ discoveries c = 0%nat
                /\ validations c = 0%nat /\ executions c = 0%nat).
  { destruct Hc as [-> | [p ->]]; cbn; repeat split; lia. }
  assert (Hxn : llmCalls x = 0%nat /\ discoveries x = 0%nat
                /\ validations x = 0%nat /\ (executions x <= 2)%nat
                /\ (x = [] -> executions x = 0%nat)).
  { destruct Hx as [-> | [[s ->] | (s & s' & ->)]]; cbn; repeat split;
      try lia; discriminate. }
  assert (Hgn : (llmCalls g <= 1)%nat /\ (discoveries g <= 1)%nat
                /\ (validations g <= 1)%nat /\ executions g = 0%nat).
  { destruct Hg as [-> | [(s & v & ->) | [(p & ->) | (p & s & v & ->)]]];
      cbn; repeat split; lia. }
  assert (Hv : x <> [] -> (1 <= validations g)%nat).
  { intros Hne. destruct (Hgx Hne) as (pre & s & ->).
    rewrite validations_app. cbn. lia. }
  destruct Hcn as (Hc1 & Hc2 & Hc3 & Hc4).
  destruct Hxn as (Hx1 & Hx2 & Hx3 & Hx4 & Hx5).
  destruct Hgn as (Hg1 & Hg2 & Hg3 & Hg4).
  repeat split; try lia.
  intros H0. destruct x as [|ev x']; [rewrite (Hx5 eq_refl); lia|].
  assert (ev :: x' <> []) as Hne by discriminate.
  specialize (Hv Hne). lia.
Qed.

(** For a template question [generateSQL] looks at the environment
    through the discovery only. *)
Lemma generateSQL_template_env (U : UnicodeTables) (E E' : Env)
  (schema userID question : gostring) (t : list event) :
  isTemplateQuestion U question = true ->
  catalog E' = catalog E ->
  generateSQL U E' schema userID question t
  = generateSQL U E schema userID question t.
Proof.
  unfold isTemplateQuestion, generateSQL. intros H Hcat.
  unfold discoverPropertyCatalog, bind, emit, history, ret.
  rewrite Hcat.
  set (q := strings_ToLower U (strings_TrimSpace question)) in *.
  destruct (isMyTasks q); [reflexivity|].
  match type of H with
  | (false || ?b || _ || _ || _) = true => destruct b
  end; [reflexivity|].
  match type of H with
  | (false || false || ?b || _ || _) = true => destruct b
  end; [reflexivity|].
  match type of H with
  | (false || false || false || ?b || _) = true => destruct b
  end; [reflexivity|].
  cbn [orb] in H. rewrite H. reflexivity.
Qed.

Lemma executeQuery_env (U : UnicodeTables) (E E' : Env) (query : gostring)
  (t : list event) :
  DBType E' = DBType E -> DBConfigString E' = DBConfigString E ->
  sqlite E' = sqlite E ->
  executeQuery U E' query t = executeQuery U E query t.
Proof.
  intros H1 H2 H3. rewrite !executeQuery_answer, H1, H2, H3. reflexivity.
Qed.

(** X12. A question that a keyword rule of the classifier and a template
    of [generateSQL] both recognise (a question that passes the my-tasks
    rule is one)
    is answered without the model: the run calls it not once, and its
    result and trace are the same under any API key, model name and
    model endpoint. *)
Theorem template_run_needs_no_model (U : UnicodeTables) (E E' : Env)
  (userID question : gostring) (t : list event) :
  matchesKeywordRule U question = true ->
  isTemplateQuestion U question = true ->
  llmCalls (snd (PrepareRAGResponse U E userID question t)) = llmCalls t
  /\ (DBType E' = DBType E -> DBConfigString E' = DBConfigString E ->
      sqlite E' = sqlite E -> catalog E' = catalog E ->
      PrepareRAGResponse U E' userID question t
      = PrepareRAGResponse U E userID question t).
Proof.
  intros Hk Hq. split.
  - destruct (PrepareRAGResponse_events U E userID question t)
      as (c & g & x & Ht & _ & _ & Hx & _).
    rewrite (PrepareRAGResponse_query_data U E userID question t t
               (classifyIntent_keyword U E question t Hk)) in Ht |- *.
    destruct (generateSQL_events U E ragSchemaDDL userID question t)
      as [(_ & s & Hg) | [(Hq' & _) | (Hq' & _)]];
      [|rewrite Hq in Hq'; discriminate Hq' ..].
    rewrite Hg. clear Ht.
    destruct (validateReadOnlySQL U s) as [e|].
    { cbn [snd]. rewrite llmCalls_app. cbn. lia. }
    rewrite (executeQuery_answer U E s).
    destruct (if negb _ then _ else _) as [ctx|e].
    + destruct (gostring_eqb _ _).
      * rewrite (executeQuery_answer U E fallbackSQL).
        destruct (if negb _ then _ else _); cbn [snd];
          rewrite !llmCalls_app; cbn; lia.
      * cbn [snd]. rewrite !llmCalls_app. cbn. lia.
    + cbn [snd]. rewrite !llmCalls_app. cbn. lia.
  - intros H1 H2 H3 H4.
    rewrite (PrepareRAGResponse_query_data U E userID question t t
               (classifyIntent_keyword U E question t Hk)).
    rewrite (PrepareRAGResponse_query_data U E' userID question t t
               (classifyIntent_keyword U E' question t Hk)).
    rewrite (generateSQL_template_env U E E' _ _ _ _ Hq H4).
    destruct (generateSQL U E ragSchemaDDL userID question t)
      as [[sqlText|e] t2]; [|reflexivity].
    rewrite (executeQuery_env U E E' sqlText t2 H1 H2 H3).
    destruct (executeQuery U E sqlText t2) as [[ctx|e] t3]; [|reflexivity].
    destruct (gostring_eqb _ _); [|reflexivity].
    rewrite (executeQuery_env U E E' fallbackSQL t3 H1 H2 H3). reflexivity.
Qed.

Lemma template_run_needs_no_model_witness :
  llmCalls (snd (PrepareRAGResponse asciiTables oneCardEnv
                   (runes "u1") (runes "我的任务") [])) = llmCalls [].
Proof.
  apply (template_run_needs_no_model asciiTables oneCardEnv oneCardEnv
           (runes "u1") (runes "我的任务") []).
  - vm_compute. reflexivity.
  - vm_compute. reflexivity.
Defined.

(** X13. The pipeline answers on SQLite only.  With any other [DBType]
    (the comparison ignores case) no run returns a prompt; a run whose
    statement was generated ends with [ErrUnsupportedDBType] at its
    first query -- after the discovery of the catalog, which does not
    look at [DBType]. *)
Theorem pipeline_needs_sqlite3 (U : UnicodeTables) (E : Env)
  (userID question : gostring) (t : list event) :
  strings_ToLower U (DBType E) <> runes "sqlite3" ->
  (forall prompt,
     fst (PrepareRAGResponse U E userID question t) <> Ok prompt)
  /\ (forall t1 sqlText t2,
        classifyIntent U E question t = (Ok intentQueryData, t1) ->
        generateSQL U E ragSchemaDDL userID question t1 = (Ok sqlText, t2) ->
        PrepareRAGResponse U E userID question t
        = (Err ErrUnsupportedDBType, t2 ++ [ExecuteQuery sqlText])
        /\ exists evs, t2 = t1 ++ DiscoverCatalog :: evs).
Proof.
  intros Hdb.
  assert (Hx : forall query t0,
            executeQuery U E query t0
            = (Err ErrUnsupportedDBType, t0 ++ [ExecuteQuery query])).
  { intros query t0. rewrite executeQuery_answer. unfold gostring_eqb.
    rewrite bool_decide_eq_false_2 by exact Hdb. reflexivity. }
  split.
  - intros prompt. rewrite PrepareRAGResponse_steps.
    destruct (classifyIntent U E question t) as [[intent|e] t1];
      [|discriminate].
    destruct (gostring_eqb intent intentChat); [discriminate|].
    destruct (negb _); [discriminate|].
    destruct (generateSQL U E ragSchemaDDL userID question t1)
      as [[sqlText|e] t2]; [|discriminate].
    rewrite Hx. discriminate.
  - intros t1 sqlText t2 Hc Hg.
    rewrite (PrepareRAGResponse_query_data U E userID question t t1 Hc).
    rewrite Hg, Hx. split; [reflexivity|].
    destruct (generateSQL_events U E ragSchemaDDL userID question t1)
      as [(_ & s & H) | [(_ & e & _ & H) | (_ & out & _ & H)]];
      rewrite H in Hg; injection Hg as _ <-; eexists; reflexivity.
Qed.

Lemma pipeline_needs_sqlite3_witness :
  fst (PrepareRAGResponse asciiTables
         {| DBType := runes "postgres"; DBConfigString := [];
            DASHSCOPE_API_KEY := runes "sk-test"; DASHSCOPE_MODEL := [];
            qwen := fun _ _ _ => QwenResponse 200 [] (Some [runes "chat"]);
            sqlite := fun _ _ _ => Rows [runes "id"] [[VInt 1]] RowsDone;
            catalog := fun _ => Ok sampleCatalog |}
         (runes "u1") (runes "我的任务") [])
  <> Ok [].
Proof.
  apply (pipeline_needs_sqlite3 asciiTables
         {| DBType := runes "postgres"; DBConfigString := [];
            DASHSCOPE_API_KEY := runes "sk-test"; DASHSCOPE_MODEL := [];
            qwen := fun _ _ _ => QwenResponse 200 [] (Some [runes "chat"]);
            sqlite := fun _ _ _ => Rows [runes "id"] [[VInt 1]] RowsDone;
            catalog := fun _ => Ok sampleCatalog |}
         (runes "u1") (runes "我的任务") []).
  vm_compute. discriminate.
Defined.

(** X14. Without an API key (an empty or blank [DASHSCOPE_API_KEY])
    every question that needs the model fails with [ErrAPIKeyNotSet],
    and no query runs: a question outside the keyword rules fails in the
    classifier, one inside them but outside the templates fails in
    [generateSQL], after the discovery. *)
Theorem pipeline_without_api_key (U : UnicodeTables) (E : Env)
  (userID question : gostring) (t : list event) :
  strings_TrimSpace (DASHSCOPE_API_KEY E) = [] ->
  (matchesKeywordRule U question = false ->
   PrepareRAGResponse U E userID question t
   = (Err ErrAPIKeyNotSet, t ++ [CallQwen (classifyPrompt question)]))
  /\ (matchesKeywordRule U question = true ->
      isTemplateQuestion U question = false ->
      PrepareRAGResponse U E userID question t
      = (Err ErrAPIKeyNotSet,
         t ++ [DiscoverCatalog;
               CallQwen (generatePrompt userID ragSchemaDDL question)])).
Proof.
  intros Hkey. split.
  - intros Hk. rewrite PrepareRAGResponse_steps.
    rewrite (classifyIntent_llm U E question t Hk).
    rewrite (callQwenInternal_no_key E _ t Hkey). reflexivity.
  - intros Hk Hq.
    rewrite (PrepareRAGResponse_query_data U E userID question t t
               (classifyIntent_keyword U E question t Hk)).
    rewrite (generateSQL_llm U E _ _ _ _ Hq).
    rewrite (callQwenInternal_no_key E _ _ Hkey), <- app_assoc. reflexivity.
Qed.

Lemma pipeline_without_api_key_witness :
  PrepareRAGResponse asciiTables
    {| DBType := runes "sqlite3"; DBConfigString := [];
       DASHSCOPE_API_KEY := runes "  "; DASHSCOPE_MODEL := [];
       qwen := fun _ _ _ => QwenResponse 200 [] (Some [runes "query_data"]);
       sqlite := fun _ _ _ => Rows [runes "id"] [[VInt 1]] RowsDone;
       catalog := fun _ => Ok sampleCatalog |}
    (runes "u1") (runes "hello") []
  = (Err ErrAPIKeyNotSet, [] ++ [CallQwen (classifyPrompt (runes "hello"))]).
Proof.
  apply (pipeline_without_api_key asciiTables
    {| DBType := runes "sqlite3"; DBConfigString := [];
       DASHSCOPE_API_KEY := runes "  "; DASHSCOPE_MODEL := [];
       qwen := fun _ _ _ => QwenResponse 200 [] (Some [runes "query_data"]);
       sqlite := fun _ _ _ => Rows [runes "id"] [[VInt 1]] RowsDone;
       catalog := fun _ => Ok sampleCatalog |}
    (runes "u1") (runes "hello") []).
  - vm_compute. reflexivity.
  - vm_compute. reflexivity.
Defined.

(** ** The records of [executeQuery] *)

Lemma fillRow_absent (cols : list gostring) (values : list value)
  (rowMap : gmap gostring value) (col : gostring) :
  col ∉ cols -> fillRow cols values rowMap !! col = rowMap !! col.
Proof.
  revert values rowMap. induction cols as [|c cols IH]; intros values m Hc;
    [reflexivity|].
  apply not_elem_of_cons in Hc as [Hne Hc].
  cbn [fillRow]. rewrite (IH _ _ Hc). apply lookup_insert_ne. congruence.
Qed.

Lemma fillRow_last (cols : list gostring) (values : list value)
  (rowMap : gmap gostring value) (j : nat) (col : gostring) :
  cols !! j = Some col ->
  (forall j', (j < j')%nat -> cols !! j' <> Some col) ->
  fillRow cols values rowMap !! col = Some (List.nth j values VNull).
Proof.
  revert values rowMap j. induction cols as [|c cols IH];
    intros values m j Hj Hlast; [discriminate Hj|].
  cbn [fillRow]. destruct j as [|j].
  - injection Hj as ->.
    rewrite fillRow_absent.
    + rewrite lookup_insert_eq. destruct values; reflexivity.
    + intros Hin. apply list_elem_of_lookup in Hin as [k Hk].
      apply (Hlast (S k)); [lia | exact Hk].
  - rewrite (IH (List.tl values) _ j Hj).
    + destruct values; [destruct j|]; reflexivity.
    + intros j' Hlt. apply (Hlast (S j')). lia.
Qed.

(** X15. The result set of [executeQuery] has one record per row, in
    the order of the rows.  A record has exactly the column names as its
    keys, and under a column name it holds the value that was scanned
    for the last column of that name: of two columns with one name the
    earlier one is lost. *)
Theorem materialize_records (cols : list gostring)
  (rows : list (list value)) :
  List.length (materialize cols rows) = List.length rows
  /\ forall i values,
       rows !! i = Some values ->
       exists r,
         materialize cols rows !! i = Some r
         /\ (forall col, col ∉ cols -> r !! col = None)
         /\ (forall j col,
               cols !! j = Some col ->
               (forall j', (j < j')%nat -> cols !! j' <> Some col) ->
               r !! col = Some (List.nth j values VNull)).
Proof.
  unfold materialize. split; [apply List.length_map|].
  intros i values Hi. exists (fillRow cols values ∅).
  split; [|split].
  - change (List.map ?f rows) with (f <$> rows).
    rewrite list_lookup_fmap, Hi. reflexivity.
  - intros col Hc. rewrite (fillRow_absent _ _ _ _ Hc). apply lookup_empty.
  - intros j col Hj Hlast. apply fillRow_last; assumption.
Qed.

(** ** The serialization and its reader *)

Lemma hexValue_hexDigit (n : Z) :
  0 <= n < 16 -> hexValue (hexDigit n) = Some n.
Proof.
  intros Hn. unfold hexDigit, hexValue.
  destruct (n <? 10) eqn:E.
  - apply Z.ltb_lt in E.
    rewrite (proj2 (Z.leb_le 48 (48 + n))) by lia.
    rewrite (proj2 (Z.leb_le (48 + n) 57)) by lia.
    cbn [andb]. f_equal. lia.
  - apply Z.ltb_ge in E.
    rewrite (proj2 (Z.leb_le 48 (87 + n))) by lia.
    rewrite (proj2 (Z.leb_gt (87 + n) 57)) by lia.
    rewrite (proj2 (Z.leb_le 97 (87 + n))) by lia.
    rewrite (proj2 (Z.leb_le (87 + n) 102)) by lia.
    cbn [andb]. f_equal. lia.
Qed.

Lemma hex4_byte (r : rune) :
  0 <= r < 256 ->
  hex4 48 48 (hexDigit (r / 16)) (hexDigit (r mod 16)) = Some r.
Proof.
  intros Hr. unfold hex4.
  change (hexValue 48) with (Some 0).
  rewrite (hexValue_hexDigit (r / 16))
    by (split; [apply Z.div_pos; lia | apply Z.div_lt_upper_bound; lia]).
  rewrite (hexValue_hexDigit (r mod 16)) by (apply Z.mod_pos_bound; lia).
  f_equal. pose proof (Z.div_mod r 16). lia.
Qed.

Lemma readString_u (a b c d : rune) (s : gostring) :
  readString (92 :: 117 :: a :: b :: c :: d :: s)
  = match hex4 a b c d, readString s with
    | Some r, Some (str, rest) => Some (r :: str, rest)
    | _, _ => None
    end.
Proof. reflexivity. Qed.

Lemma readString_esc (e : rune) (s : gostring) :
  (e =? 117) = false ->
  readString (92 :: e :: s)
  = match unescape e, readString s with
    | Some r, Some (str, rest) => Some (r :: str, rest)
    | _, _ => None
    end.
Proof.
  intros He. cbn [readString]. change (92 =? 34) with false.
  change (92 =? 92) with true. cbv iota. rewrite He. reflexivity.
Qed.

Lemma readString_raw (c : rune) (s : gostring) :
  (c =? 34) = false -> (c =? 92) = false -> (c <? 32) = false ->
  readString (c :: s)
  = match readString s with
    | Some (str, rest) => Some (c :: str, rest)
    | None => None
    end.
Proof. intros H1 H2 H3. cbn [readString]. rewrite H1, H2, H3. reflexivity. Qed.

Lemma separators_escaped :
  runes "\u2028" = [92; 117; 50; 48; 50; 56]
  /\ runes "\u2029" = [92; 117; 50; 48; 50; 57].
Proof. vm_compute. split; reflexivity. Qed.

(** The reader undoes the escaping of one code point. *)
Lemma readString_escape (r : rune) (rest : gostring) :
  0 <= r ->
  readString (jsonEscape r ++ rest)
  = match readString rest with
    | Some (str, rest') => Some (r :: str, rest')
    | None => None
    end.
Proof.
  intros Hr. unfold jsonEscape.
  destruct ((r =? 34) || (r =? 92)) eqn:E1.
  { apply orb_true_iff in E1 as [E | E]; apply Z.eqb_eq in E; subst r;
      cbn [app]; rewrite readString_esc by reflexivity;
      destruct (readString rest) as [[str rest']|]; reflexivity. }
  apply orb_false_iff in E1 as [E34 E92].
  destruct (r =? 8) eqn:E8.
  { apply Z.eqb_eq in E8. subst r. cbn [app].
    rewrite readString_esc by reflexivity.
    destruct (readString rest) as [[str rest']|]; reflexivity. }
  destruct (r =? 12) eqn:E12.
  { apply Z.eqb_eq in E12. subst r. cbn [app].
    rewrite readString_esc by reflexivity.
    destruct (readString rest) as [[str rest']|]; reflexivity. }
  destruct (r =? 10) eqn:E10.
  { apply Z.eqb_eq in E10. subst r. cbn [app].
    rewrite readString_esc by reflexivity.
    destruct (readString rest) as [[str rest']|]; reflexivity. }
  destruct (r =? 13) eqn:E13.
  { apply Z.eqb_eq in E13. subst r. cbn [app].
    rewrite readString_esc by reflexivity.
    destruct (readString rest) as [[str rest']|]; reflexivity. }
  destruct (r =? 9) eqn:E9.
  { apply Z.eqb_eq in E9. subst r. cbn [app].
    rewrite readString_esc by reflexivity.
    destruct (readString rest) as [[str rest']|]; reflexivity. }
  destruct ((r <? 32) || (r =? 60) || (r =? 62) || (r =? 38)) eqn:E.
  { cbn [app]. rewrite readString_u, hex4_byte; [reflexivity|].
    repeat (apply orb_true_iff in E as [E | E]);
      [apply Z.ltb_lt in E | apply Z.eqb_eq in E ..]; lia. }
  repeat (apply orb_false_iff in E as [E ?]).
  destruct separators_escaped as [H28 H29].
  destruct (r =? 8232) eqn:E28.
  { apply Z.eqb_eq in E28. subst r. rewrite H28. cbn [app].
    rewrite readString_u. reflexivity. }
  destruct (r =? 8233) eqn:E29.
  { apply Z.eqb_eq in E29. subst r. rewrite H29. cbn [app].
    rewrite readString_u. reflexivity. }
  cbn [app]. apply readString_raw; assumption.
Qed.

Lemma readString_jsonString (s rest : gostring) :
  Forall (fun r => 0 <= r) s ->
  readString (List.flat_map jsonEscape s ++ 34 :: rest) = Some (s, rest).
Proof.
  induction 1 as [|r s Hr _ IH]; [reflexivity|].
  cbn [List.flat_map]. rewrite <- app_assoc.
  rewrite (readString_escape r _ Hr), IH. reflexivity.
Qed.

Lemma digitsOf_head (d : Decimal.uint) :
  d = Decimal.Nil
  \/ exists c tl, digitsOf d = c :: tl /\ 48 <= c <= 57.
Proof.
  destruct d; [left; reflexivity|..]; right; eexists _, _;
    (split; [reflexivity | lia]).
Qed.

Lemma digitOf_other (c : rune) :
  ~ (48 <= c <= 57) -> digitOf c = None.
Proof.
  intros Hc. unfold digitOf.
  repeat match goal with
         | |- context [c =? ?k] => rewrite (proj2 (Z.eqb_neq c k)) by lia
         end.
  reflexivity.
Qed.

Lemma readDigits_digitsOf (d : Decimal.uint) (rest : gostring) :
  endsNumber rest -> readDigits (digitsOf d ++ rest) = (d, rest).
Proof.
  intros Hrest. induction d; cbn [digitsOf app readDigits];
    try (rewrite IHd; reflexivity).
  destruct rest as [|c rest]; [reflexivity|].
  cbn [readDigits]. rewrite (digitOf_other c Hrest). reflexivity.
Qed.

Lemma to_int_not_nil (i : Z) :
  Z.to_int i <> Decimal.Pos Decimal.Nil
  /\ Z.to_int i <> Decimal.Neg Decimal.Nil.
Proof.
  split; intros H; pose proof (DecimalZ.of_to i) as Hi; rewrite H in Hi;
    cbn in Hi; subst i; discriminate H.
Qed.

Lemma readInt_pos (c : rune) (s : gostring) :
  c <> 45 ->
  readInt (c :: s)
  = match readDigits (c :: s) with
    | (Decimal.Nil, _) => None
    | (d, rest) => Some (Z.of_uint d, rest)
    end.
Proof.
  intros Hc. unfold readInt. rewrite (proj2 (Z.eqb_neq c 45) Hc).
  cbv zeta iota. destruct (readDigits (c :: s)) as [[] rest]; reflexivity.
Qed.

Lemma readInt_neg (s : gostring) :
  readInt (45 :: s)
  = match readDigits s with
    | (Decimal.Nil, _) => None
    | (d, rest) => Some (- Z.of_uint d, rest)
    end.
Proof.
  unfold readInt. change (45 =? 45) with true. cbv zeta iota.
  destruct (readDigits s) as [[] rest]; reflexivity.
Qed.

Lemma readInt_AppendInt (i : Z) (rest : gostring) :
  endsNumber rest -> readInt (strconv_AppendInt i ++ rest) = Some (i, rest).
Proof.
  intros Hrest. unfold strconv_AppendInt.
  pose proof (DecimalZ.of_to i) as Hi.
  destruct (to_int_not_nil i) as [Hp Hn].
  destruct (Z.to_int i) as [d|d].
  - pose proof (readDigits_digitsOf d rest Hrest) as Hd.
    destruct (digitsOf_head d) as [-> | (c & tl & Hc & Hrange)]; [congruence|].
    rewrite Hc in Hd |- *. cbn [app] in Hd |- *.
    rewrite readInt_pos by lia. rewrite Hd.
    cbn in Hi. rewrite Hi.
    destruct d; [congruence | reflexivity ..].
  - cbn [app]. rewrite readInt_neg.
    rewrite (readDigits_digitsOf d rest Hrest).
    cbn in Hi. rewrite Hi.
    destruct d; [congruence | reflexivity ..].
Qed.

Lemma AppendInt_head (i : Z) :
  exists c tl, strconv_AppendInt i = c :: tl /\ (c = 45 \/ 48 <= c <= 57).
Proof.
  unfold strconv_AppendInt. destruct (to_int_not_nil i) as [Hp Hn].
  destruct (Z.to_int i) as [d|d].
  - destruct (digitsOf_head d) as [-> | (c & tl & Hd & Hc)]; [congruence|].
    exists c, tl. split; [exact Hd | right; exact Hc].
  - eexists _, _. split; [reflexivity | left; reflexivity].
Qed.

Lemma null_text : runes "null" = [110; 117; 108; 108].
Proof. vm_compute. reflexivity. Qed.

Lemma validString_nonneg (s : gostring) :
  validString s -> Forall (fun r => 0 <= r) s.
Proof.
  intros H. eapply Forall_impl; [exact H|]. intros r [Hr _]. lia.
Qed.

Lemma readValue_valueText (v : value) (rest : gostring) :
  scalarValue v -> endsNumber rest ->
  readValue (valueText v ++ rest) = Some (v, rest).
Proof.
  intros Hv Hrest.
  destruct v as [|i|s|f|bs|b|t]; try (exfalso; exact Hv);
    unfold valueText; cbn [jsonValue textOf].
  - rewrite null_text. unfold readValue. cbn [app].
    rewrite null_text. reflexivity.
  - pose proof (readInt_AppendInt i rest Hrest) as Hi.
    destruct (AppendInt_head i) as (c & tl & Hc & Hrange).
    rewrite Hc in Hi |- *. cbn [app] in Hi |- *.
    unfold readValue. rewrite null_text. cbn [strings_HasPrefix].
    rewrite (proj2 (Z.eqb_neq c 34)) by lia.
    rewrite (proj2 (Z.eqb_neq c 110)) by lia.
    cbn [andb]. rewrite Hi. reflexivity.
  - unfold jsonString. cbn [app]. unfold readValue.
    change (34 =? 34) with true. cbv iota.
    rewrite <- app_assoc. cbn [app].
    rewrite (readString_jsonString s rest (validString_nonneg s Hv)).
    reflexivity.
Qed.

Lemma skipSpace_keep (c : rune) (s : gostring) :
  isJsonSpace c = false -> skipSpace (c :: s) = c :: s.
Proof. intros H. unfold skipSpace. cbn [trimLeft]. rewrite H. reflexivity. Qed.

Lemma isJsonSpace_other (c : rune) :
  c <> 32 -> c <> 9 -> c <> 10 -> c <> 13 -> isJsonSpace c = false.
Proof.
  intros H1 H2 H3 H4. unfold isJsonSpace.
  rewrite (proj2 (Z.eqb_neq c 32) H1), (proj2 (Z.eqb_neq c 9) H2),
    (proj2 (Z.eqb_neq c 10) H3), (proj2 (Z.eqb_neq c 13) H4).
  reflexivity.
Qed.

Lemma valueText_head (v : value) :
  scalarValue v ->
  exists c tl, valueText v = c :: tl /\ isJsonSpace c = false.
Proof.
  intros Hv.
  destruct v as [|i|s|f|bs|b|t]; try (exfalso; exact Hv);
    unfold valueText; cbn [jsonValue textOf].
  - rewrite null_text. eexists _, _. split; reflexivity.
  - destruct (AppendInt_head i) as (c & tl & Hc & Hrange).
    exists c, tl. split; [exact Hc|]. apply isJsonSpace_other; lia.
  - unfold jsonString. eexists _, _. split; reflexivity.
Qed.

Lemma jsonValue_scalar (v : value) :
  scalarValue v -> jsonValue v = Ok (valueText v).
Proof.
  intros Hv. destruct v; try (exfalso; exact Hv); reflexivity.
Qed.

Lemma jsonMember_scalar (kv : gostring * value) :
  scalarValue (snd kv) ->
  jsonMember kv = Ok (memberText kv)
  /\ memberText kv = jsonString (fst kv) ++ 58 :: valueText (snd kv).
Proof.
  intros Hv. unfold memberText, jsonMember.
  rewrite (jsonValue_scalar _ Hv). split; reflexivity.
Qed.

Lemma memberText_text (k : gostring) (v : value) (tail : gostring) :
  scalarValue v ->
  memberText (k, v) ++ tail
  = 34 :: List.flat_map jsonEscape k ++ 34 :: 58 :: valueText v ++ tail.
Proof.
  intros Hv. destruct (jsonMember_scalar (k, v) Hv) as [_ ->].
  unfold jsonString. cbn [fst snd app].
  rewrite <- !app_assoc. reflexivity.
Qed.

Lemma afterMember_endsNumber (tail : gostring) :
  afterMember tail -> endsNumber tail /\ skipSpace tail = tail.
Proof.
  intros (c & tail' & -> & Hc). split.
  - cbn. lia.
  - apply skipSpace_keep, isJsonSpace_other; lia.
Qed.

(** One member, read up to the separator behind it. *)
Lemma readMember (k : gostring) (v : value) (tail : gostring) :
  validString k -> scalarValue v -> afterMember tail ->
  skipSpace (memberText (k, v) ++ tail)
  = 34 :: List.flat_map jsonEscape k ++ 34 :: 58 :: valueText v ++ tail
  /\ readString (List.flat_map jsonEscape k ++ 34 :: 58 :: valueText v ++ tail)
     = Some (k, 58 :: valueText v ++ tail)
  /\ skipSpace (58 :: valueText v ++ tail) = 58 :: valueText v ++ tail
  /\ readValue (skipSpace (valueText v ++ tail)) = Some (v, tail)
  /\ skipSpace tail = tail.
Proof.
  intros Hk Hv Htail.
  destruct (afterMember_endsNumber tail Htail) as [Hend Hskip].
  split; [|split; [|split; [|split]]].
  - rewrite (memberText_text k v tail Hv). apply skipSpace_keep. reflexivity.
  - apply readString_jsonString, validString_nonneg, Hk.
  - apply skipSpace_keep. reflexivity.
  - destruct (valueText_head v Hv) as (c & tl & Hc & Hsp).
    rewrite Hc. cbn [app]. rewrite (skipSpace_keep c _ Hsp).
    change (c :: tl ++ tail) with ((c :: tl) ++ tail). rewrite <- Hc.
    apply readValue_valueText; assumption.
  - exact Hskip.
Qed.

Lemma readMembers_more (fuel : nat) (k : gostring) (v : value)
  (tail : gostring) :
  validString k -> scalarValue v ->
  readMembers (S fuel) (memberText (k, v) ++ 44 :: tail)
  = match readMembers fuel tail with
    | Some (members, rest) => Some ((k, v) :: members, rest)
    | None => None
    end.
Proof.
  intros Hk Hv.
  destruct (readMember k v (44 :: tail) Hk Hv) as (H1 & H2 & H3 & H4 & H5).
  { eexists _, _. split; [reflexivity | left; reflexivity]. }
  cbn [readMembers]. rewrite H1. cbv beta iota. rewrite H2. cbv beta iota.
  rewrite H3. cbv beta iota. rewrite H4. cbv beta iota.
  rewrite H5. reflexivity.
Qed.

Lemma readMembers_last (fuel : nat) (k : gostring) (v : value)
  (rest : gostring) :
  validString k -> scalarValue v ->
  readMembers (S fuel) (memberText (k, v) ++ 125 :: rest)
  = Some ([(k, v)], rest).
Proof.
  intros Hk Hv.
  destruct (readMember k v (125 :: rest) Hk Hv) as (H1 & H2 & H3 & H4 & H5).
  { eexists _, _. split; [reflexivity | right; left; reflexivity]. }
  cbn [readMembers]. rewrite H1. cbv beta iota. rewrite H2. cbv beta iota.
  rewrite H3. cbv beta iota. rewrite H4. cbv beta iota.
  rewrite H5. reflexivity.
Qed.

Lemma strings_Join_cons (e e' : gostring) (rest : list gostring)
  (sep : gostring) :
  strings_Join (e :: e' :: rest) sep
  = e ++ sep ++ strings_Join (e' :: rest) sep.
Proof. reflexivity. Qed.

Lemma readMembers_Join (members : list (gostring * value)) (fuel : nat)
  (rest : gostring) :
  members <> [] -> (List.length members <= fuel)%nat ->
  Forall (fun kv => validString (fst kv) /\ scalarValue (snd kv)) members ->
  readMembers fuel
    (strings_Join (List.map memberText members) [44] ++ 125 :: rest)
  = Some (members, rest).
Proof.
  revert fuel. induction members as [|[k v] members IH];
    intros fuel Hne Hfuel Hvalid; [congruence|].
  apply Forall_cons in Hvalid as [[Hk Hv] Hvalid]. cbn [fst snd] in Hk, Hv.
  destruct fuel as [|fuel]; [cbn in Hfuel; lia|].
  destruct members as [|kv' members].
  - cbn [List.map strings_Join]. apply readMembers_last; assumption.
  - cbn [List.map]. rewrite strings_Join_cons, <- !app_assoc. cbn [app].
    rewrite (readMembers_more fuel k v _ Hk Hv).
    change (memberText kv' :: List.map memberText members)
      with (List.map memberText (kv' :: members)).
    rewrite IH; [reflexivity | discriminate | cbn in Hfuel |- *; lia
                | exact Hvalid].
Qed.

Lemma Join_length (xs : list gostring) (sep : gostring) :
  Forall (fun x => x <> []) xs ->
  (List.length xs <= List.length (strings_Join xs sep))%nat.
Proof.
  induction 1 as [|x xs Hx Hxs IH]; [reflexivity|].
  destruct xs as [|x' xs].
  - cbn. destruct x; [congruence | cbn; lia].
  - rewrite strings_Join_cons, !length_app.
    destruct x; [congruence|]. cbn [List.length] in IH |- *. lia.
Qed.

Lemma memberText_head (kv : gostring * value) :
  scalarValue (snd kv) -> exists r, memberText kv = 34 :: r.
Proof.
  intros Hv. destruct (jsonMember_scalar kv Hv) as [_ ->].
  unfold jsonString. eexists. reflexivity.
Qed.

Lemma encodeAll_texts {A : Type} (enc : A -> result gostring)
  (l : list A) :
  Forall (fun x => enc x = Ok (textOf (enc x))) l ->
  encodeAll enc l = Ok (List.map (fun x => textOf (enc x)) l).
Proof.
  induction 1 as [|x l Hx _ IH]; [reflexivity|].
  cbn [encodeAll List.map]. rewrite Hx, IH. reflexivity.
Qed.

Lemma recordOf_list_to_map (members : list (gostring * value)) :
  recordOf members = list_to_map (List.rev members).
Proof.
  unfold recordOf, list_to_map. symmetry.
  apply (List.fold_left_rev_right
           (fun (kv : gostring * value) (m : gmap gostring value) =>
              <[fst kv := snd kv]> m)).
Qed.

Lemma recordOf_sorted (m : gmap gostring value) :
  recordOf (merge_sort key_le (map_to_list m)) = m.
Proof.
  rewrite recordOf_list_to_map. symmetry. apply list_to_map_flip.
  rewrite <- (merge_sort_Permutation key_le (map_to_list m)) at 1.
  apply Permutation_rev.
Qed.

Lemma scalarRecord_members (m : gmap gostring value) :
  scalarRecord m ->
  Forall (fun kv => validString (fst kv) /\ scalarValue (snd kv))
         (merge_sort key_le (map_to_list m)).
Proof.
  intros Hm. rewrite (merge_sort_Permutation key_le (map_to_list m)).
  apply Forall_forall. intros [k v] Hkv.
  apply elem_of_map_to_list in Hkv. exact (Hm k v Hkv).
Qed.

Lemma readObject_members (s1 : gostring)
  (members : list (gostring * value)) (rest : gostring) :
  (exists r, s1 = 34 :: r) ->
  readMembers (List.length s1) s1 = Some (members, rest) ->
  readObject (123 :: s1) = Some (recordOf members, rest).
Proof.
  intros [r ->] H. unfold readObject.
  rewrite (skipSpace_keep 123) by reflexivity. cbv beta iota.
  rewrite (skipSpace_keep 34) by reflexivity. cbv beta iota.
  rewrite H. reflexivity.
Qed.

Lemma jsonObject_scalar (m : gmap gostring value) :
  scalarRecord m ->
  jsonObject m = Ok (objectText m)
  /\ objectText m
     = 123 :: strings_Join
                (List.map memberText (merge_sort key_le (map_to_list m)))
                [44] ++ [125].
Proof.
  intros Hm. unfold objectText, jsonObject.
  rewrite (encodeAll_texts jsonMember).
  - split; reflexivity.
  - eapply Forall_impl; [exact (scalarRecord_members m Hm)|].
    intros kv [_ Hv]. destruct (jsonMember_scalar kv Hv) as [H _].
    exact H.
Qed.

Lemma readObject_objectText (m : gmap gostring value) (tail : gostring) :
  scalarRecord m ->
  readObject (objectText m ++ tail) = Some (m, tail).
Proof.
  intros Hm. destruct (jsonObject_scalar m Hm) as [_ ->].
  pose proof (scalarRecord_members m Hm) as Hvalid.
  pose proof (recordOf_sorted m) as Hrec.
  pose proof (merge_sort_Permutation key_le (map_to_list m)) as Hperm.
  destruct (merge_sort key_le (map_to_list m)) as [|kv members] eqn:E.
  - apply Permutation_nil_l in Hperm. symmetry in Hperm.
    apply map_to_list_empty_iff in Hperm. subst m.
    cbn [List.map strings_Join app]. unfold readObject.
    rewrite (skipSpace_keep 123) by reflexivity. cbv beta iota.
    rewrite (skipSpace_keep 125) by reflexivity. reflexivity.
  - cbn [app]. rewrite <- app_assoc. cbn [app].
    rewrite <- Hrec. apply readObject_members.
    + destruct (memberText_head kv) as [r Hr].
      { apply Forall_cons in Hvalid as [[_ Hv] _]. exact Hv. }
      destruct (strings_Join_cons_head (memberText kv)
                  (List.map memberText members) [44] 34 r Hr) as [r' Hr'].
      cbn [List.map]. rewrite Hr'. eexists. reflexivity.
    + apply readMembers_Join; [discriminate | | exact Hvalid].
      rewrite length_app.
      pose proof (Join_length (List.map memberText (kv :: members)) [44])
        as Hlen.
      rewrite List.length_map in Hlen.
      assert (Forall (fun x : gostring => x <> [])
                     (List.map memberText (kv :: members))) as Hne.
      { apply List.Forall_map. eapply Forall_impl; [exact Hvalid|].
        intros x [_ Hv]. destruct (memberText_head x Hv) as [r ->].
        discriminate. }
      specialize (Hlen Hne). lia.
Qed.

Lemma objectText_text (m : gmap gostring value) :
  scalarRecord m -> exists r, objectText m = 123 :: r.
Proof.
  intros Hm. destruct (jsonObject_scalar m Hm) as [_ ->].
  eexists. reflexivity.
Qed.

Lemma readObjects_more (fuel : nat) (m : gmap gostring value)
  (tail : gostring) :
  scalarRecord m ->
  readObjects (S fuel) (objectText m ++ 44 :: tail)
  = match readObjects fuel tail with
    | Some (os, rest) => Some (m :: os, rest)
    | None => None
    end.
Proof.
  intros Hm. cbn [readObjects].
  rewrite (readObject_objectText m _ Hm).
  rewrite (skipSpace_keep 44) by reflexivity. reflexivity.
Qed.

Lemma readObjects_last (fuel : nat) (m : gmap gostring value)
  (rest : gostring) :
  scalarRecord m ->
  readObjects (S fuel) (objectText m ++ 93 :: rest) = Some ([m], rest).
Proof.
  intros Hm. cbn [readObjects].
  rewrite (readObject_objectText m _ Hm).
  rewrite (skipSpace_keep 93) by reflexivity. reflexivity.
Qed.

Lemma readObjects_Join (rs : list (gmap gostring value)) (fuel : nat)
  (rest : gostring) :
  rs <> [] -> (List.length rs <= fuel)%nat -> Forall scalarRecord rs ->
  readObjects fuel
    (strings_Join (List.map objectText rs) [44] ++ 93 :: rest)
  = Some (rs, rest).
Proof.
  revert fuel. induction rs as [|m rs IH]; intros fuel Hne Hfuel Hvalid;
    [congruence|].
  apply Forall_cons in Hvalid as [Hm Hvalid].
  destruct fuel as [|fuel]; [cbn in Hfuel; lia|].
  destruct rs as [|m' rs].
  - cbn [List.map strings_Join]. apply readObjects_last. exact Hm.
  - cbn [List.map]. rewrite strings_Join_cons, <- !app_assoc. cbn [app].
    rewrite (readObjects_more fuel m _ Hm).
    change (objectText m' :: List.map objectText rs)
      with (List.map objectText (m' :: rs)).
    rewrite IH; [reflexivity | discriminate | cbn in Hfuel |- *; lia
                | exact Hvalid].
Qed.

Lemma json_Marshal_scalar (rs : list (gmap gostring value)) :
  Forall scalarRecord rs ->
  json_Marshal rs
  = Ok (91 :: strings_Join (List.map objectText rs) [44] ++ [93]).
Proof.
  intros Hvalid. unfold json_Marshal.
  rewrite (encodeAll_texts jsonObject); [reflexivity|].
  eapply Forall_impl; [exact Hvalid|].
  intros m Hm. destruct (jsonObject_scalar m Hm) as [H _]. exact H.
Qed.

(** The reader gives back the records that were serialized. *)
Lemma json_Parse_Marshal (rs : list (gmap gostring value)) :
  Forall scalarRecord rs ->
  exists text, json_Marshal rs = Ok text /\ json_Parse text = Some rs.
Proof.
  intros Hvalid. rewrite (json_Marshal_scalar rs Hvalid).
  eexists. split; [reflexivity|]. unfold json_Parse.
  rewrite (skipSpace_keep 91) by reflexivity. cbv beta iota.
  destruct rs as [|m rs].
  - cbn [List.map strings_Join app].
    rewrite (skipSpace_keep 93) by reflexivity. reflexivity.
  - pose proof (readObjects_Join (m :: rs)
                  (List.length
                     (strings_Join (List.map objectText (m :: rs)) [44]
                      ++ [93])) []) as Hread.
    destruct (objectText_text m) as [r Hr].
    { apply Forall_cons in Hvalid as [Hm _]. exact Hm. }
    destruct (strings_Join_cons_head (objectText m)
                (List.map objectText rs) [44] 123 r Hr) as [r' Hr'].
    cbn [List.map] in Hread |- *. rewrite Hr' in Hread |- *.
    cbn [app] in Hread |- *.
    rewrite (skipSpace_keep 123) by reflexivity. cbv beta iota.
    rewrite Hread; [reflexivity | discriminate | | exact Hvalid].
    pose proof (Join_length (List.map objectText (m :: rs)) [44]) as Hlen.
    rewrite List.length_map in Hlen. cbn [List.map] in Hlen.
    rewrite Hr' in Hlen.
    assert (Forall (fun x : gostring => x <> [])
                   (objectText m :: List.map objectText rs)) as Hne.
    { change (objectText m :: List.map objectText rs)
        with (List.map objectText (m :: rs)).
      apply List.Forall_map. eapply Forall_impl; [exact Hvalid|].
      intros y Hy. destruct (objectText_text y Hy) as [r0 ->].
      discriminate. }
    specialize (Hlen Hne). cbn [List.length] in Hlen |- *.
    rewrite length_app. cbn [List.length]. lia.
Qed.

(** X16. On result sets whose values are NULL, INTEGER or TEXT, with
    column names and texts that are valid Unicode strings, the
    serialization does not fail and loses nothing: two such result sets
    with the same JSON text are the same sequence of records, each with
    the same keys and, under every key, the same value of the same kind
    (a text, an integer or null).  The values of the other kinds are
    left out: a BLOB is written as the same JSON string as the TEXT of
    its base64 form. *)
Theorem json_Marshal_injective (rs1 rs2 : list (gmap gostring value)) :
  Forall scalarRecord rs1 -> Forall scalarRecord rs2 ->
  (exists text, json_Marshal rs1 = Ok text)
  /\ (json_Marshal rs1 = json_Marshal rs2 -> rs1 = rs2).
Proof.
  intros H1 H2.
  destruct (json_Parse_Marshal rs1 H1) as (text1 & M1 & P1).
  destruct (json_Parse_Marshal rs2 H2) as (text2 & M2 & P2).
  split; [by exists text1|].
  intros Heq. rewrite M1, M2 in Heq. injection Heq as ->.
  rewrite P2 in P1. congruence.
Qed.

Lemma fillRow_valid (cols : list gostring) (values : list value)
  (rowMap : gmap gostring value) :
  Forall validString cols -> Forall scalarValue values ->
  scalarRecord rowMap -> scalarRecord (fillRow cols values rowMap).
Proof.
  intros Hcols. revert values rowMap.
  induction Hcols as [|col cols Hcol _ IH]; intros values m Hvalues Hm;
    [exact Hm|].
  cbn [fillRow]. apply IH.
  - destruct Hvalues; [constructor | assumption].
  - apply map_Forall_insert_2; [|exact Hm].
    split; [exact Hcol|]. destruct Hvalues; [exact I | assumption].
Qed.

(** The records of [executeQuery] hold NULL, INTEGER and TEXT values
    under valid names when the rows and the column names do. *)
Lemma materialize_valid (cols : list gostring) (rows : list (list value)) :
  Forall validString cols -> Forall (Forall scalarValue) rows ->
  Forall scalarRecord (materialize cols rows).
Proof.
  intros Hcols Hrows. unfold materialize. apply List.Forall_map.
  eapply Forall_impl; [exact Hrows|]. intros values Hvalues.
  apply fillRow_valid; [exact Hcols | exact Hvalues | apply map_Forall_empty].
Qed.

Lemma validString_literal (s : gostring) :
  bool_decide (Forall (fun r => 0 <= r <= 1114111
                                /\ ~ (55296 <= r <= 57343)) s) = true ->
  validString s.
Proof. intros H. apply bool_decide_eq_true in H. exact H. Qed.

(** C8. The serialization of [executeQuery] round-trips on the result
    sets of NULL, INTEGER and TEXT values: when the database answers
    with rows of such values under column names that are valid strings,
    [executeQuery] returns the text of [json.Marshal] and no error, and
    reading that text gives the records of the rows back, in the order
    of the rows, each with its keys and under every key the same value
    of the same kind (a text, an integer or null). *)
Theorem serialization_round_trip (U : UnicodeTables) (E : Env)
  (query : gostring) (t : list event)
  (cols : list gostring) (rows : list (list value)) :
  strings_ToLower U (DBType E) = runes "sqlite3" ->
  sqlite E (t ++ [ExecuteQuery query]) (dsnOf (DBConfigString E)) query
  = Rows cols rows RowsDone ->
  Forall validString cols ->
  Forall (Forall scalarValue) rows ->
  exists text,
    fst (executeQuery U E query t) = Ok text
    /\ json_Marshal (materialize cols rows) = Ok text
    /\ json_Parse text = Some (materialize cols rows)
    /\ List.length (materialize cols rows) = List.length rows.
Proof.
  intros Hdb Hrows Hcols Hvalues.
  destruct (json_Parse_Marshal (materialize cols rows)
              (materialize_valid cols rows Hcols Hvalues))
    as (text & Hm & Hp).
  exists text. rewrite (executeQuery_answer U E query t), Hdb, Hrows.
  assert (Hsq : negb (gostring_eqb (runes "sqlite3") (runes "sqlite3"))
                = false) by (vm_compute; reflexivity).
  rewrite Hsq. cbn [fst].
  split; [exact Hm|]. split; [exact Hm|]. split; [exact Hp|].
  unfold materialize. apply List.length_map.
Qed.

Lemma serialization_round_trip_witness :
  exists text,
    fst (executeQuery asciiTables
           (sampleEnv (runes "chat")
              [[VText (runes "c1"); VInt 7]; [VText (runes "c2"); VNull]])
           (runes "SELECT id, n FROM t") []) = Ok text
    /\ json_Marshal
         (materialize [runes "id"; runes "n"]
            [[VText (runes "c1"); VInt 7]; [VText (runes "c2"); VNull]])
       = Ok text
    /\ json_Parse text
       = Some (materialize [runes "id"; runes "n"]
                 [[VText (runes "c1"); VInt 7]; [VText (runes "c2"); VNull]])
    /\ List.length
         (materialize [runes "id"; runes "n"]
            [[VText (runes "c1"); VInt 7]; [VText (runes "c2"); VNull]])
       = List.length
           [[VText (runes "c1"); VInt 7]; [VText (runes "c2"); VNull]].
Proof.
  apply (serialization_round_trip asciiTables
           (sampleEnv (runes "chat")
              [[VText (runes "c1"); VInt 7]; [VText (runes "c2"); VNull]])
           (runes "SELECT id, n FROM t") []
           [runes "id"; runes "n"]
           [[VText (runes "c1"); VInt 7]; [VText (runes "c2"); VNull]]).
  - vm_compute. reflexivity.
  - reflexivity.
  - repeat first [ apply validString_literal; vm_compute; reflexivity
                 | exact I | apply Forall_nil | apply Forall_cons; split ].
  - repeat first [ apply validString_literal; vm_compute; reflexivity
                 | exact I | apply Forall_nil | apply Forall_cons; split ].
Defined.

(** C8, counterexample.  A BLOB is written as the JSON string of its
    base64 form: the bytes [hi] of a BLOB column and the text [aGk=] of a
    TEXT column give the same text, [[{"id":"aGk=","n":7}]], for two
    different result sets, and reading that text gives the record of the
    TEXT.  A REAL that is infinite is not written at all: [json.Marshal]
    fails, and so does [executeQuery]. *)
Lemma serialization_confuses_blob_and_text :
  fst (executeQuery asciiTables
         (sampleEnv (runes "chat") [[VBytes [104; 105]; VInt 7]])
         (runes "SELECT id, n FROM t") [])
  = Ok ([91; 123; 34] ++ runes "id" ++ [34; 58; 34] ++ runes "aGk="
        ++ [34; 44; 34] ++ runes "n" ++ [34; 58] ++ runes "7}]")
  /\ fst (executeQuery asciiTables
            (sampleEnv (runes "chat") [[VText (runes "aGk="); VInt 7]])
            (runes "SELECT id, n FROM t") [])
     = Ok ([91; 123; 34] ++ runes "id" ++ [34; 58; 34] ++ runes "aGk="
           ++ [34; 44; 34] ++ runes "n" ++ [34; 58] ++ runes "7}]")
  /\ materialize [runes "id"; runes "n"] [[VBytes [104; 105]; VInt 7]]
     <> materialize [runes "id"; runes "n"] [[VText (runes "aGk="); VInt 7]]
  /\ json_Parse ([91; 123; 34] ++ runes "id" ++ [34; 58; 34] ++ runes "aGk="
                 ++ [34; 44; 34] ++ runes "n" ++ [34; 58] ++ runes "7}]")
     = Some (materialize [runes "id"; runes "n"]
               [[VText (runes "aGk="); VInt 7]])
  /\ fst (executeQuery asciiTables
            (sampleEnv (runes "chat") [[VFloat (FloatInf false); VInt 7]])
            (runes "SELECT id, n FROM t") [])
     = Err (ErrForeign (runes "json: unsupported value: +Inf")).
Proof.
  split; [vm_compute; reflexivity|].
  split; [vm_compute; reflexivity|].
  split; [|split; vm_compute; reflexivity].
  intros H.
  apply (f_equal (fun rs => match rs with
                            | m :: _ => m !! [105; 100]
                            | [] => None
                            end)) in H.
  vm_compute in H. discriminate H.
Qed.

Lemma json_Marshal_injective_witness :
  materialize [runes "id"; runes "n"] [[VText (runes "c1"); VInt 7]]
  = materialize [runes "n"; runes "id"] [[VInt 7; VText (runes "c1")]].
Proof.
  apply json_Marshal_injective.
  - apply materialize_valid;
      repeat first [ apply validString_literal; vm_compute; reflexivity
                   | exact I | apply Forall_nil | apply Forall_cons; split ].
  - apply materialize_valid;
      repeat first [ apply validString_literal; vm_compute; reflexivity
                   | exact I | apply Forall_nil | apply Forall_cons; split ].
  - vm_compute. reflexivity.
Defined.

(** ** Lines that the relay passes over *)

Section RelaySkips.
Context (json_Unmarshal : gostring -> option OpenAIResponse).

Lemma relayLoop_skip (line : gostring) (rest : list gostring)
  (w : list AIStreamChunk) :
  skippedLine json_Unmarshal line ->
  relayLoop json_Unmarshal (line :: rest) w
  = relayLoop json_Unmarshal rest w.
Proof.
  unfold skippedLine. cbn [relayLoop].
  destruct (strings_HasPrefix line dataPrefix); [|reflexivity].
  intros [H | (Hd & H)]; [discriminate H|].
  unfold gostring_eqb. rewrite bool_decide_eq_false_2 by exact Hd.
  destruct (json_Unmarshal _) as [oresp|]; [|reflexivity].
  destruct H as [H | (o & Ho & Hc)]; [discriminate H|].
  injection Ho as <-. rewrite Hc. reflexivity.
Qed.

(** X17. The relay passes over every line that is no data line (a
    comment, an empty line, another field of the event stream), every
    data line that does not decode, and every event without choices:
    such a line, wherever it stands in the body, changes nothing in what
    is sent to the client. *)
Theorem relay_skips_lines (before : list gostring) (line : gostring)
  (after : list gostring) (w : list AIStreamChunk) :
  skippedLine json_Unmarshal line ->
  relayLoop json_Unmarshal (before ++ line :: after) w
  = relayLoop json_Unmarshal (before ++ after) w.
Proof.
  intros Hskip. revert w.
  induction before as [|l before IH]; intros w.
  - apply relayLoop_skip, Hskip.
  - cbn [app relayLoop].
    destruct (strings_HasPrefix l dataPrefix); [|apply IH].
    destruct (gostring_eqb _ _); [reflexivity|].
    destruct (json_Unmarshal _) as [oresp|]; [|apply IH].
    destruct (Choices oresp) as [|c0 cs]; [apply IH|].
    destruct (FinishReason c0); [apply IH | reflexivity].
Qed.

End RelaySkips.

Lemma relay_skips_lines_witness :
  relayLoop sampleUnmarshal
    ([runes "data: c:Hel"] ++ runes ": keep-alive" :: [runes "data: c:lo"]) []
  = relayLoop sampleUnmarshal
      ([runes "data: c:Hel"] ++ [runes "data: c:lo"]) [].
Proof.
  apply (relay_skips_lines sampleUnmarshal).
  left. vm_compute. reflexivity.
Defined.

(** ** The request to the endpoint *)

Lemma withDefaults_spec (oreq : OpenAIRequest) :
  OpenAIRequest_Model (withDefaults oreq) = OpenAIRequest_Model oreq
  /\ OpenAIRequest_Messages (withDefaults oreq) = OpenAIRequest_Messages oreq
  /\ OpenAIRequest_Stream (withDefaults oreq) = OpenAIRequest_Stream oreq
  /\ OpenAIRequest_MaxTokens (withDefaults oreq)
     = (if OpenAIRequest_MaxTokens oreq =? 0 then 2000
        else OpenAIRequest_MaxTokens oreq)
  /\ OpenAIRequest_Temperature (withDefaults oreq)
     = (if float64_isZero (OpenAIRequest_Temperature oreq)
        then QArith_base.Qmake 7 10
        else OpenAIRequest_Temperature oreq).
Proof.
  unfold withDefaults.
  destruct (float64_isZero (OpenAIRequest_Temperature oreq)) eqn:Et;
    cbn [OpenAIRequest_MaxTokens OpenAIRequest_Temperature
         OpenAIRequest_Model OpenAIRequest_Messages OpenAIRequest_Stream];
    destruct (OpenAIRequest_MaxTokens oreq =? 0) eqn:Em;
    cbn [OpenAIRequest_MaxTokens OpenAIRequest_Temperature
         OpenAIRequest_Model OpenAIRequest_Messages OpenAIRequest_Stream];
    rewrite ?Et, ?Em; repeat split; reflexivity.
Qed.

(** X18. What the streaming handler sends to the endpoint.  When the
    pipeline returned a prompt, the request carries that prompt as its
    only message, a user message: the history of the conversation is not
    sent.  When the pipeline failed, the request carries the history if
    the client sent one, else the single message if it is not empty,
    else no message at all. *)
Theorem stream_request_messages (environ : gostring -> gostring)
  (rag : result gostring) (aiReq : AIRequest) (oreq : OpenAIRequest) :
  streamRequestOf environ rag aiReq = Some oreq ->
  (forall finalPrompt,
     rag = Ok finalPrompt ->
     OpenAIRequest_Messages oreq
     = [{| Message_Role := runes "user"; Message_Text := finalPrompt |}])
  /\ (forall err,
        rag = Err err ->
        (AIRequest_Messages aiReq <> [] ->
         OpenAIRequest_Messages oreq = AIRequest_Messages aiReq)
        /\ (AIRequest_Messages aiReq = [] -> AIRequest_Message aiReq <> [] ->
            OpenAIRequest_Messages oreq
            = [{| Message_Role := runes "user";
                  Message_Text := AIRequest_Message aiReq |}])
        /\ (AIRequest_Messages aiReq = [] -> AIRequest_Message aiReq = [] ->
            OpenAIRequest_Messages oreq = [])).
Proof.
  unfold streamRequestOf, getAIConfig.
  destruct (getEnv environ _ _); [discriminate|].
  intros [= <-].
  destruct (withDefaults_spec
              {| OpenAIRequest_Model :=
                   match AIRequest_Model aiReq with
                   | [] => runes "qwen-plus"
                   | _ :: _ => AIRequest_Model aiReq
                   end;
                 OpenAIRequest_Messages :=
                   match rag with
                   | Ok finalPrompt =>
                     [{| Message_Role := runes "user";
                         Message_Text := finalPrompt |}]
                   | Err _ => buildMessages aiReq
                   end;
                 OpenAIRequest_MaxTokens := AIRequest_MaxTokens aiReq;
                 OpenAIRequest_Temperature := AIRequest_Temperature aiReq;
                 OpenAIRequest_Stream := true |}) as (_ & -> & _).
  cbn [OpenAIRequest_Messages]. split.
  - intros finalPrompt ->. reflexivity.
  - intros err ->. unfold buildMessages.
    destruct (AIRequest_Messages aiReq) as [|m ms].
    + destruct (AIRequest_Message aiReq) as [|c s].
      * repeat split; congruence.
      * repeat split; congruence.
    + repeat split; congruence.
Qed.

Lemma stream_request_messages_witness :
  OpenAIRequest_Messages
    (withDefaults
       {| OpenAIRequest_Model := runes "qwen-plus";
          OpenAIRequest_Messages :=
            [{| Message_Role := runes "user";
                Message_Text := runes "the prompt" |}];
          OpenAIRequest_MaxTokens := 0;
          OpenAIRequest_Temperature := QArith_base.Qmake 0 1;
          OpenAIRequest_Stream := true |})
  = [{| Message_Role := runes "user"; Message_Text := runes "the prompt" |}].
Proof.
  apply (stream_request_messages
           (fun _ => runes "sk-test") (Ok (runes "the prompt"))
           {| AIRequest_Message := runes "hello";
              AIRequest_Messages :=
                [{| Message_Role := runes "assistant";
                    Message_Text := runes "earlier" |}];
              AIRequest_Stream := true;
              AIRequest_Model := [];
              AIRequest_MaxTokens := 0;
              AIRequest_Temperature := QArith_base.Qmake 0 1 |}).
  - vm_compute. reflexivity.
  - reflexivity.
Defined.

Lemma getAIConfig_model (environ : gostring -> gostring)
  (requestedModel : gostring) :
  snd (getAIConfig environ requestedModel) <> []
  /\ (requestedModel <> [] ->
      snd (getAIConfig environ requestedModel) = requestedModel).
Proof.
  unfold getAIConfig. cbn [snd]. destruct requestedModel as [|c s].
  - split; [|congruence]. intros H. vm_compute in H. discriminate H.
  - split; [discriminate | reflexivity].
Qed.

Lemma getEnv_empty (environ : gostring -> gostring) (key : gostring) :
  getEnv environ key [] = [] <-> environ key = [].
Proof.
  unfold getEnv. destruct (environ key); split; congruence.
Qed.

(** X19. Both handlers refuse to call the endpoint exactly when the
    variable [DASHSCOPE_API_KEY] is empty or not set (a key of blanks
    passes).  A request that they do send never has an empty model name,
    a zero [max_tokens] or a zero [temperature]: where the client left
    the model out (the empty name), [qwen-plus] is sent, for a
    [max_tokens] of zero 2000 is sent, for a [temperature] of zero 0.7
    is sent, and what the client chose is sent unchanged.  [stream] is
    set by the streaming handler and by that one only. *)
Theorem requests_carry_defaults (environ : gostring -> gostring)
  (rag : result gostring) (aiReq : AIRequest) :
  (streamRequestOf environ rag aiReq = None
   <-> environ (runes "DASHSCOPE_API_KEY") = [])
  /\ (chatRequest environ aiReq = None
      <-> environ (runes "DASHSCOPE_API_KEY") = [])
  /\ (forall oreq,
        streamRequestOf environ rag aiReq = Some oreq ->
        OpenAIRequest_Stream oreq = true)
  /\ (forall oreq,
        chatRequest environ aiReq = Some oreq ->
        OpenAIRequest_Stream oreq = false
        /\ OpenAIRequest_Messages oreq = buildMessages aiReq)
  /\ (forall oreq,
        streamRequestOf environ rag aiReq = Some oreq
        \/ chatRequest environ aiReq = Some oreq ->
        OpenAIRequest_Model oreq <> []
        /\ OpenAIRequest_MaxTokens oreq <> 0
        /\ float64_isZero (OpenAIRequest_Temperature oreq) = false
        /\ (AIRequest_Model aiReq <> [] ->
            OpenAIRequest_Model oreq = AIRequest_Model aiReq)
        /\ (AIRequest_MaxTokens aiReq <> 0 ->
            OpenAIRequest_MaxTokens oreq = AIRequest_MaxTokens aiReq)
        /\ (float64_isZero (AIRequest_Temperature aiReq) = false ->
            OpenAIRequest_Temperature oreq = AIRequest_Temperature aiReq)
        /\ (AIRequest_Model aiReq = [] ->
            OpenAIRequest_Model oreq = runes "qwen-plus")
        /\ (AIRequest_MaxTokens aiReq = 0 ->
            OpenAIRequest_MaxTokens oreq = 2000)
        /\ (float64_isZero (AIRequest_Temperature aiReq) = true ->
            OpenAIRequest_Temperature oreq = QArith_base.Qmake 7 10)).
Proof.
  assert (Hqwen : AIRequest_Model aiReq = [] ->
                  snd (getAIConfig environ (AIRequest_Model aiReq))
                  = runes "qwen-plus")
    by (intros ->; reflexivity).
  pose proof (getEnv_empty environ (runes "DASHSCOPE_API_KEY")) as Hkey.
  pose proof (getAIConfig_model environ (AIRequest_Model aiReq)) as Hmodel.
  unfold streamRequestOf, chatRequest.
  assert (Hcfg : getAIConfig environ (AIRequest_Model aiReq)
                 = (getEnv environ (runes "DASHSCOPE_API_KEY") [],
                    runes "https://dashscope.aliyuncs.com/compatible-mode/v1/chat/completions",
                    snd (getAIConfig environ (AIRequest_Model aiReq))))
    by reflexivity.
  rewrite Hcfg. clear Hcfg.
  set (modelName := snd (getAIConfig environ (AIRequest_Model aiReq))) in *.
  assert (Hdef : forall messages stream oreq,
            withDefaults
              {| OpenAIRequest_Model := modelName;
                 OpenAIRequest_Messages := messages;
                 OpenAIRequest_MaxTokens := AIRequest_MaxTokens aiReq;
                 OpenAIRequest_Temperature := AIRequest_Temperature aiReq;
                 OpenAIRequest_Stream := stream |} = oreq ->
            OpenAIRequest_Stream oreq = stream
            /\ OpenAIRequest_Messages oreq = messages
            /\ OpenAIRequest_Model oreq <> []
            /\ OpenAIRequest_MaxTokens oreq <> 0
            /\ float64_isZero (OpenAIRequest_Temperature oreq) = false
            /\ (AIRequest_Model aiReq <> [] ->
                OpenAIRequest_Model oreq = AIRequest_Model aiReq)
            /\ (AIRequest_MaxTokens aiReq <> 0 ->
                OpenAIRequest_MaxTokens oreq = AIRequest_MaxTokens aiReq)
            /\ (float64_isZero (AIRequest_Temperature aiReq) = false ->
                OpenAIRequest_Temperature oreq
                = AIRequest_Temperature aiReq)
            /\ (AIRequest_Model aiReq = [] ->
                OpenAIRequest_Model oreq = runes "qwen-plus")
            /\ (AIRequest_MaxTokens aiReq = 0 ->
                OpenAIRequest_MaxTokens oreq = 2000)
            /\ (float64_isZero (AIRequest_Temperature aiReq) = true ->
                OpenAIRequest_Temperature oreq = QArith_base.Qmake 7 10)).
  { intros messages stream oreq <-.
    destruct (withDefaults_spec
                {| OpenAIRequest_Model := modelName;
                   OpenAIRequest_Messages := messages;
                   OpenAIRequest_MaxTokens := AIRequest_MaxTokens aiReq;
                   OpenAIRequest_Temperature := AIRequest_Temperature aiReq;
                   OpenAIRequest_Stream := stream |})
      as (-> & -> & -> & -> & ->).
    cbn [OpenAIRequest_Model OpenAIRequest_Messages OpenAIRequest_Stream
         OpenAIRequest_MaxTokens OpenAIRequest_Temperature].
    destruct Hmodel as [Hm1 Hm2].
    split; [reflexivity|]. split; [reflexivity|]. split; [exact Hm1|].
    split; [|split; [|split; [exact Hm2|split; [|split; [|split;
      [exact Hqwen|split]]]]]].
    - destruct (AIRequest_MaxTokens aiReq =? 0) eqn:E; [lia|].
      apply Z.eqb_neq in E. exact E.
    - destruct (float64_isZero (AIRequest_Temperature aiReq)) eqn:E;
        [reflexivity | exact E].
    - intros H. apply Z.eqb_neq in H. rewrite H. reflexivity.
    - intros H. rewrite H. reflexivity.
    - intros H. rewrite H. reflexivity.
    - intros H. rewrite H. reflexivity. }
  destruct (getEnv environ (runes "DASHSCOPE_API_KEY") []) as [|c key].
  - split; [split; [intros _; apply Hkey; reflexivity | reflexivity]|].
    split; [split; [intros _; apply Hkey; reflexivity | reflexivity]|].
    split; [discriminate|]. split; [discriminate|].
    intros oreq [H | H]; discriminate H.
  - assert (Hset : environ (runes "DASHSCOPE_API_KEY") <> []).
    { intros H. apply Hkey in H. discriminate H. }
    split; [split; [discriminate | intros H; destruct (Hset H)]|].
    split; [split; [discriminate | intros H; destruct (Hset H)]|].
    split; [intros oreq [= H]; apply (Hdef _ _ _ H)|].
    split.
    { intros oreq [= H]. destruct (Hdef _ _ _ H) as (H1 & H2 & _).
      split; assumption. }
    intros oreq [[= H] | [= H]];
      destruct (Hdef _ _ _ H)
        as (_ & _ & H3 & H4 & H5 & H6 & H7 & H8 & H9 & H10 & H11);
      repeat split; assumption.
Qed.

(** ** The discovery of the catalog *)

Section DiscoveryProperties.
Context (U : UnicodeTables).
Context (foldOrbit : rune -> rune -> bool).
Context (json_Unmarshal : gostring -> option (list (gmap gostring jvalue))).

Lemma optionsOf_wellFormed (prop : gmap gostring jvalue) :
  map_Forall
    (fun key oid =>
       oid <> [] /\ exists oval, oval <> [] /\ key = strings_ToUpper U oval)
    (optionsOf U prop).
Proof.
  unfold optionsOf.
  destruct (prop !! runes "options") as [[| | | |optsArr|]|];
    try apply map_Forall_empty.
  assert (Hgen : forall (m : gmap gostring gostring),
            map_Forall
              (fun key oid =>
                 oid <> []
                 /\ exists oval, oval <> [] /\ key = strings_ToUpper U oval)
              m ->
            map_Forall
              (fun key oid =>
                 oid <> []
                 /\ exists oval, oval <> [] /\ key = strings_ToUpper U oval)
              (List.fold_left
                 (fun optsMap o =>
                    match o with
                    | JObject om =>
                      match asString (om !! runes "id"),
                            asString (om !! runes "value") with
                      | _ :: _, _ :: _ =>
                        <[strings_ToUpper U (asString (om !! runes "value"))
                          := asString (om !! runes "id")]> optsMap
                      | _, _ => optsMap
                      end
                    | _ => optsMap
                    end) optsArr m)).
  { induction optsArr as [|o optsArr IH]; intros m Hm; [exact Hm|].
    cbn [List.fold_left]. apply IH.
    destruct o as [| | | | |om]; try exact Hm.
    destruct (asString (om !! runes "id")) as [|c oid] eqn:Eid; [exact Hm|].
    destruct (asString (om !! runes "value")) as [|d oval] eqn:Eval;
      [exact Hm|].
    apply map_Forall_insert_2; [|exact Hm].
    split; [discriminate|]. exists (d :: oval). split; [discriminate|].
    reflexivity. }
  apply Hgen, map_Forall_empty.
Qed.

Lemma scanProp_wellFormed (cat : foundCatalog) (prop : gmap gostring jvalue) :
  wellFormed U cat -> wellFormed U (scanProp U foldOrbit cat prop).
Proof.
  intros Hcat. pose proof Hcat as (Hp & Hm & Hd & Hs). unfold scanProp.
  destruct (prop !! runes "id") as [idIface|]; [|exact Hcat].
  destruct (gostring_eqb _ (runes "person")).
  { destruct (asString (Some idIface)) as [|c id] eqn:E; [exact Hcat|].
    split; [|exact (conj Hm (conj Hd Hs))]. cbn [foundPersonPropIDs].
    apply Forall_app. split; [exact Hp|]. apply Forall_singleton.
    discriminate. }
  destruct (gostring_eqb _ (runes "multiPerson")).
  { destruct (asString (Some idIface)) as [|c id] eqn:E; [exact Hcat|].
    split; [exact Hp|]. split; [|exact (conj Hd Hs)].
    cbn [foundMultiPersonPropIDs].
    apply Forall_app. split; [exact Hm|]. apply Forall_singleton.
    discriminate. }
  destruct (gostring_eqb _ (runes "select") || gostring_eqb _ _).
  { destruct (strings_EqualFold _ _ _ || strings_EqualFold _ _ _);
      [|exact Hcat].
    destruct (asString (Some idIface)) as [|c id] eqn:E; [exact Hcat|].
    destruct (bool_decide (optionsOf U prop = ∅)) eqn:Eo; [exact Hcat|].
    apply bool_decide_eq_false in Eo.
    split; [exact Hp|]. split; [exact Hm|]. split; [exact Hd|].
    cbn [foundStatusPropOptions].
    apply map_Forall_insert_2; [|exact Hs].
    split; [discriminate|]. split; [exact Eo|].
    apply optionsOf_wellFormed. }
  destruct (gostring_eqb _ (runes "date")); [|exact Hcat].
  destruct (asString (Some idIface)) as [|c id] eqn:E; [exact Hcat|].
  split; [exact Hp|]. split; [exact Hm|]. split; [|exact Hs].
  cbn [foundDatePropIDs].
  apply Forall_app. split; [exact Hd|]. apply Forall_singleton.
  discriminate.
Qed.

Lemma scanProps_wellFormed (cardProps : list (gmap gostring jvalue))
  (cat : foundCatalog) :
  wellFormed U cat ->
  wellFormed U (List.fold_left (scanProp U foldOrbit) cardProps cat).
Proof.
  revert cat. induction cardProps as [|prop cardProps IH]; intros cat Hcat;
    [exact Hcat|].
  cbn [List.fold_left]. apply IH, scanProp_wellFormed, Hcat.
Qed.

Lemma scanBoards_wellFormed (rows : list boardRow) (cat cat' : foundCatalog) :
  wellFormed U cat ->
  scanBoards U foldOrbit json_Unmarshal rows cat = Ok cat' ->
  wellFormed U cat'.
Proof.
  revert cat. induction rows as [|row rows IH]; intros cat Hcat.
  - cbn [scanBoards]. intros [= <-]. exact Hcat.
  - cbn [scanBoards]. destruct row as [msg | boardID json]; [discriminate|].
    destruct (json_Unmarshal json) as [cardProps|].
    + apply IH, scanProps_wellFormed, Hcat.
    + apply IH, Hcat.
Qed.

(** X20. Every catalog that [discoverPropertyCatalog] returns is well
    formed: no person, multi-person, date or status property in it has
    an empty id, every status property has at least one option, and
    every option has a non-empty id and is stored under the upper-cased
    text of a non-empty value. *)
Theorem discovery_well_formed (reply : boardsReply) (cat : foundCatalog) :
  discoverFrom U foldOrbit json_Unmarshal reply = Ok cat ->
  wellFormed U cat.
Proof.
  destruct reply as [msg | msg | rows]; [discriminate | discriminate |].
  cbn [discoverFrom]. apply scanBoards_wellFormed.
  split; [constructor|]. split; [constructor|].
  split; [constructor | apply map_Forall_empty].
Qed.

(** X21. How the discovery deals with bad rows.  A board whose property
    text does not decode is passed over: with or without it the result
    is the same.  A row that cannot be scanned ends the discovery with
    that error, whatever the boards before it held: nothing of what was
    found is returned. *)
Theorem discovery_bad_rows (cat : foundCatalog) :
  (forall before boardID cardPropsJSON after,
     json_Unmarshal cardPropsJSON = None ->
     scanBoards U foldOrbit json_Unmarshal
       (before ++ BoardRow boardID cardPropsJSON :: after) cat
     = scanBoards U foldOrbit json_Unmarshal (before ++ after) cat)
  /\ (forall before msg after,
        Forall (fun row => match row with
                           | BoardRow _ _ => True
                           | BoardScanFailed _ => False
                           end) before ->
        scanBoards U foldOrbit json_Unmarshal
          (before ++ BoardScanFailed msg :: after) cat
        = Err (ErrForeign msg)).
Proof.
  split.
  - intros before boardID json after Hbad. revert cat.
    induction before as [|row before IH]; intros cat.
    + cbn [app scanBoards]. rewrite Hbad. reflexivity.
    + cbn [app scanBoards]. destruct row as [msg | b j]; [reflexivity|].
      destruct (json_Unmarshal j); apply IH.
  - intros before msg after Hrows. revert cat.
    induction Hrows as [|row before Hrow _ IH]; intros cat; [reflexivity|].
    cbn [app scanBoards]. destruct row as [m | b j]; [destruct Hrow|].
    destruct (json_Unmarshal j); apply IH.
Qed.

End DiscoveryProperties.

Lemma sampleFound_discovered :
  discoverFrom asciiTables (fun _ _ => false) sampleProps
    (Boards [BoardRow (runes "b0") (runes "{"); 
             BoardRow (runes "b1") (runes "board1")])
  = Ok sampleFound.
Proof. vm_compute. reflexivity. Qed.

Lemma discovery_well_formed_witness : wellFormed asciiTables sampleFound.
Proof.
  apply (discovery_well_formed asciiTables (fun _ _ => false) sampleProps
           (Boards [BoardRow (runes "b0") (runes "{");
                    BoardRow (runes "b1") (runes "board1")])).
  exact sampleFound_discovered.
Defined.

(** ** From the discovery to the clauses *)

Lemma elem_of_synonymIDs (U : UnicodeTables) (syn : list gostring)
  (opts : gmap gostring gostring) (v oid : gostring) :
  v ∈ syn -> opts !! strings_ToUpper U v = Some oid ->
  (runes "'" ++ oid ++ runes "'") ∈ synonymIDs U syn opts.
Proof.
  intros Hv Hoid. unfold synonymIDs.
  apply list_elem_of_In, List.in_flat_map. exists v.
  split; [apply list_elem_of_In, Hv|]. rewrite Hoid. left. reflexivity.
Qed.

Lemma elem_of_statusInParts (U : UnicodeTables) (syn : list gostring)
  (entries : list (gostring * gmap gostring gostring))
  (sid : gostring) (opts : gmap gostring gostring) (id : gostring) :
  (sid, opts) ∈ entries -> id ∈ synonymIDs U syn opts ->
  (runes "json_extract(fields, '$.properties." ++ sid
   ++ runes "') IN (" ++ strings_Join (synonymIDs U syn opts) (runes ",")
   ++ runes ")") ∈ statusInParts U syn entries.
Proof.
  intros He Hid. unfold statusInParts.
  apply list_elem_of_In, List.in_flat_map. exists (sid, opts).
  split; [apply list_elem_of_In, He|]. cbv beta iota.
  destruct (synonymIDs U syn opts) as [|i ids].
  - apply elem_of_nil in Hid. contradiction.
  - left. reflexivity.
Qed.

(** X22. The discovery and the status templates agree on the spelling of
    an option: the discovery files an option under its upper-cased
    value, and the templates look the synonyms up upper-cased.  So when
    the catalog that was found has, for a status property, an option
    under the upper-cased text of a synonym, the clause of the template
    selects on that property with a list of option ids in which the id
    of that option stands. *)
Theorem found_option_reaches_clause (U : UnicodeTables)
  (syn : list gostring) (c : propCatalog) (cat : foundCatalog)
  (sid : gostring) (opts : gmap gostring gostring) (v oid : gostring) :
  presents c cat ->
  foundStatusPropOptions cat !! sid = Some opts ->
  v ∈ syn -> opts !! strings_ToUpper U v = Some oid ->
  exists ids,
    (runes "'" ++ oid ++ runes "'") ∈ ids
    /\ contains (runes "json_extract(fields, '$.properties." ++ sid
                 ++ runes "') IN (" ++ strings_Join ids (runes ",")
                 ++ runes ")")
                (statusInClause U syn (Some c)).
Proof.
  intros (_ & _ & _ & Hperm) Hsid Hv Hoid.
  pose proof (elem_of_synonymIDs U syn opts v oid Hv Hoid) as Hid.
  exists (synonymIDs U syn opts). split; [exact Hid|].
  assert (Hentry : (sid, opts) ∈ StatusPropOptions c).
  { rewrite Hperm. apply elem_of_map_to_list. exact Hsid. }
  pose proof (elem_of_statusInParts U syn _ sid opts _ Hentry Hid) as Hpart.
  unfold statusInClause.
  destruct (StatusPropOptions c) as [|e es] eqn:Ec.
  - apply elem_of_nil in Hentry. contradiction.
  - destruct (statusInParts U syn (e :: es)) as [|p ps] eqn:Ep.
    + apply elem_of_nil in Hpart. contradiction.
    + apply contains_app_r, contains_app_l, contains_Join. exact Hpart.
Qed.

Lemma found_option_reaches_clause_witness :
  exists ids,
    (runes "'" ++ runes "o1" ++ runes "'") ∈ ids
    /\ contains (runes "json_extract(fields, '$.properties." ++ runes "s1"
                 ++ runes "') IN (" ++ strings_Join ids (runes ",")
                 ++ runes ")")
                (statusInClause asciiTables doneSyn
                   (Some {| PersonPropIDs := [runes "a1"];
                            MultiPersonPropIDs := [];
                            StatusPropOptions :=
                              [(runes "s1",
                                {[ runes "DONE" := runes "o1" ]})];
                            DatePropIDs := [] |})).
Proof.
  apply (found_option_reaches_clause asciiTables doneSyn
           {| PersonPropIDs := [runes "a1"];
              MultiPersonPropIDs := [];
              StatusPropOptions :=
                [(runes "s1", {[ runes "DONE" := runes "o1" ]})];
              DatePropIDs := [] |}
           sampleFound (runes "s1") {[ runes "DONE" := runes "o1" ]}
           (runes "DONE") (runes "o1")).
  - repeat split. vm_compute. reflexivity.
  - vm_compute. reflexivity.
  - apply (bool_decide_unpack _). vm_compute. exact I.
  - vm_compute. reflexivity.
Defined.

(** ** [extractSQL] on a fenced block *)

Lemma fencedAt_select (s m : gostring) :
  fencedAt s = Some m -> exists x, m = runes "SELECT" ++ x.
Proof.
  unfold fencedAt. destruct (strings_HasPrefix s _); [|discriminate].
  cbv zeta. destruct (strings_HasPrefix _ (runes "SELECT")); [|discriminate].
  destruct (untilFence _) as [x|]; [|discriminate].
  cbn [option_map]. intros [= <-]. exists x. reflexivity.
Qed.

Lemma findFenced_select (s m : gostring) :
  findFenced s = Some m -> exists x, m = runes "SELECT" ++ x.
Proof.
  induction s as [|c s IH]; cbn [findFenced].
  - destruct (fencedAt []) as [m'|] eqn:E; [|discriminate].
    intros [= <-]. exact (fencedAt_select _ _ E).
  - destruct (fencedAt (c :: s)) as [m'|] eqn:E.
    + intros [= <-]. exact (fencedAt_select _ _ E).
    + exact IH.
Qed.

Lemma select_text : runes "SELECT" = [83; 69; 76; 69; 67; 84].
Proof. vm_compute. reflexivity. Qed.

(** X23. What [extractSQL] takes from a fenced SQL block starts with
    SELECT in upper case (a block with [select] in lower case is not
    taken as one), so the validator never refuses it for not being a
    SELECT statement. *)
Theorem extractSQL_fenced_select (U : UnicodeTables) (text m : gostring) :
  findFenced text = Some m ->
  (exists rest, extractSQL U text = runes "SELECT" ++ rest)
  /\ (forall sqlText,
        validateReadOnlySQL U (extractSQL U text)
        <> Some (ErrGeneratedSQLNotSelect sqlText))
  /\ validateReadOnlySQL U (extractSQL U text) <> Some ErrGeneratedSQLEmpty.
Proof.
  intros Hf. destruct (findFenced_select text m Hf) as [x ->].
  assert (Hx : extractSQL U text
               = runes "SELECT" ++ trimRight unicode_IsSpace x).
  { unfold extractSQL. rewrite Hf. unfold strings_TrimSpace.
    rewrite select_text. cbn [app trimLeft].
    change (unicode_IsSpace 83) with false. cbv iota.
    change (83 :: 69 :: 76 :: 69 :: 67 :: 84 :: x)
      with ([83; 69; 76; 69; 67] ++ 84 :: x).
    rewrite trimRight_app_keep by reflexivity. reflexivity. }
  rewrite Hx. split; [eexists; reflexivity|].
  assert (Hp : strings_HasPrefix
                 (upperTrimmed U (runes "SELECT"
                                  ++ trimRight unicode_IsSpace x))
                 (runes "SELECT") = true).
  { rewrite <- Hx. unfold upperTrimmed.
    assert (strings_TrimSpace (extractSQL U text) = extractSQL U text) as ->.
    { unfold extractSQL. rewrite Hf. apply TrimSpace_idem. }
    rewrite Hx, ToUpper_app.
    assert (strings_ToUpper U (runes "SELECT") = runes "SELECT") as ->
      by (vm_compute; reflexivity).
    apply HasPrefix_app. }
  assert (Hne : runes "SELECT" ++ trimRight unicode_IsSpace x <> []).
  { rewrite select_text. discriminate. }
  rewrite (validate_select U _ Hne Hp).
  split; [intros sqlText|];
    destruct (List.find _ forbiddenKeywords); try discriminate;
    destruct (List.find _ forbiddenChars); discriminate.
Qed.

Lemma extractSQL_fenced_select_witness :
  exists rest,
    extractSQL asciiTables
      (runes "Here it is: ```sql
SELECT id FROM blocks
``` as asked") = runes "SELECT" ++ rest.
Proof.
  apply (extractSQL_fenced_select asciiTables
           (runes "Here it is: ```sql
SELECT id FROM blocks
``` as asked")
           (runes "SELECT id FROM blocks
")).
  vm_compute. reflexivity.
Defined.

(** ** When a run returns a prompt *)

(** X24. [PrepareRAGResponse] returns a prompt exactly when its three
    steps succeed: the classifier answers query_data, [generateSQL]
    returns a statement, and the first query on it succeeds.  The
    fallback query plays no part in this: whether it runs, and whether
    it fails, a prompt is returned. *)
Theorem prompt_returned_iff (U : UnicodeTables) (E : Env)
  (userID question : gostring) (t : list event) :
  (exists prompt,
     fst (PrepareRAGResponse U E userID question t) = Ok prompt)
  <-> exists t1 sqlText t2 contextJSON,
        classifyIntent U E question t = (Ok intentQueryData, t1)
        /\ generateSQL U E ragSchemaDDL userID question t1 = (Ok sqlText, t2)
        /\ fst (executeQuery U E sqlText t2) = Ok contextJSON.
Proof.
  split.
  - intros [prompt Hr]. rewrite PrepareRAGResponse_steps in Hr.
    pose proof (classifyIntent_values U E question t) as Hvals.
    destruct (classifyIntent U E question t) as [[intent|e] t1] eqn:Hc;
      [|discriminate Hr].
    cbn [fst] in Hvals.
    destruct (Hvals intent eq_refl) as [-> | ->].
    { destruct intent_values_differ as (Hcc & _ & _).
      rewrite Hcc in Hr. discriminate Hr. }
    destruct intent_values_differ as (_ & Hqc & Hqq).
    rewrite Hqc, Hqq in Hr. cbn [negb] in Hr.
    destruct (generateSQL U E ragSchemaDDL userID question t1)
      as [[sqlText|e] t2] eqn:Hg; [|discriminate Hr].
    destruct (executeQuery U E sqlText t2) as [[ctx|e] t3] eqn:Hx;
      [|discriminate Hr].
    exists t1, sqlText, t2, ctx. split; [reflexivity|].
    split; [exact Hg|]. rewrite Hx. reflexivity.
  - intros (t1 & sqlText & t2 & ctx & Hc & Hg & Hx).
    rewrite (PrepareRAGResponse_query_data U E userID question t t1 Hc), Hg.
    destruct (executeQuery U E sqlText t2) as [r t3]. cbn [fst] in Hx.
    subst r. destruct (gostring_eqb _ _); [|eexists; reflexivity].
    destruct (executeQuery U E fallbackSQL t3) as [[fb|e] t4];
      eexists; reflexivity.
Qed.

(** ** The keyword rules and white space *)

(** X25. The keyword rules of the classifier and the choice of a
    template look at the question without its leading and trailing
    white space: padding a question changes neither, and for a template
    question [generateSQL] does the same on the padded question.  A
    question that passes the first rule (my tasks) passes a rule of the
    classifier and takes a template. *)
Theorem keyword_rules_ignore_padding (U : UnicodeTables) (E : Env)
  (schema userID : gostring) (a question b : gostring) (t : list event) :
  Forall (fun c => unicode_IsSpace c = true) a ->
  Forall (fun c => unicode_IsSpace c = true) b ->
  matchesKeywordRule U (a ++ question ++ b) = matchesKeywordRule U question
  /\ isTemplateQuestion U (a ++ question ++ b) = isTemplateQuestion U question
  /\ (isTemplateQuestion U question = true ->
      generateSQL U E schema userID (a ++ question ++ b) t
      = generateSQL U E schema userID question t)
  /\ (isMyTasks (strings_ToLower U (strings_TrimSpace question)) = true ->
      matchesKeywordRule U question = true
      /\ isTemplateQuestion U question = true).
Proof.
  intros Ha Hb.
  pose proof (TrimSpace_padding a question b Ha Hb) as Hpad.
  split; [unfold matchesKeywordRule; rewrite Hpad; reflexivity|].
  split; [unfold isTemplateQuestion; rewrite Hpad; reflexivity|].
  split.
  - unfold isTemplateQuestion, generateSQL. intros H.
    unfold discoverPropertyCatalog, bind, emit, history, ret.
    rewrite Hpad.
    set (q := strings_ToLower U (strings_TrimSpace question)) in *.
    destruct (isMyTasks q); [reflexivity|].
    match type of H with
    | (false || ?b || _ || _ || _) = true => destruct b
    end; [reflexivity|].
    match type of H with
    | (false || false || ?b || _ || _) = true => destruct b
    end; [reflexivity|].
    match type of H with
    | (false || false || false || ?b || _) = true => destruct b
    end; [reflexivity|].
    cbn [orb] in H. rewrite H. reflexivity.
  - intros H. unfold matchesKeywordRule, isTemplateQuestion.
    rewrite H. split; reflexivity.
Qed.

Lemma keyword_rules_ignore_padding_witness :
  matchesKeywordRule asciiTables ([32; 10] ++ runes "我的任务" ++ [32])
  = matchesKeywordRule asciiTables (runes "我的任务").
Proof.
  destruct (keyword_rules_ignore_padding asciiTables
              (sampleEnv (runes "chat") []) ragSchemaDDL (runes "u1")
              [32; 10] (runes "我的任务") [32] []) as (H & _).
  - repeat constructor.
  - repeat constructor.
  - exact H.
Defined.

(** ** What goes into a template statement *)

(** X26. No text of the question goes into a template statement.  For a
    template question the statement that [generateSQL] validates is one
    of five texts, each built from the fixed SELECT, the user id and the
    catalog alone; the question only selects which of the five.  The
    statement is returned when the validator accepts it, and otherwise
    the verdict of the validator is returned as the error. *)
Theorem template_statement_sources (U : UnicodeTables) (E : Env)
  (schema userID question : gostring) (t : list event) :
  isTemplateQuestion U question = true ->
  exists clauses,
    clauses ∈ [ buildAssigneeClause userID (discovered E t);
                buildAssigneeClause userID (discovered E t)
                ++ buildStatusOpenClause U (discovered E t);
                buildAssigneeClause userID (discovered E t)
                ++ buildStatusDoneClause U (discovered E t);
                buildAssigneeClause userID (discovered E t)
                ++ buildStatusProgressClause U (discovered E t);
                buildAssigneeClause userID (discovered E t)
                ++ buildOverdueClause U (discovered E t) ]
    /\ generateSQL U E schema userID question t
       = (match validateReadOnlySQL U
                  (selectCards ++ clauses ++ orderLimit) with
          | Some e => Err e
          | None => Ok (selectCards ++ clauses ++ orderLimit)
          end,
          t ++ [DiscoverCatalog;
                Validate (selectCards ++ clauses ++ orderLimit)
                  (validateReadOnlySQL U
                     (selectCards ++ clauses ++ orderLimit))]).
Proof.
  intros Hq.
  destruct (generateSQL_template U E schema userID question t Hq)
    as (clauses & Hc & ->).
  exists clauses. split.
  - destruct Hc as [-> | [-> | [-> | [-> | ->]]]].
    + apply elem_of_cons. left. reflexivity.
    + do 1 (apply elem_of_cons; right). apply elem_of_cons. left. reflexivity.
    + do 2 (apply elem_of_cons; right). apply elem_of_cons. left. reflexivity.
    + do 3 (apply elem_of_cons; right). apply elem_of_cons. left. reflexivity.
    + do 4 (apply elem_of_cons; right). apply elem_of_cons. left. reflexivity.
  - rewrite validated_spec, <- app_assoc. reflexivity.
Qed.

Lemma template_statement_sources_witness :
  exists clauses,
    generateSQL asciiTables (sampleEnv (runes "chat") []) ragSchemaDDL
      (runes "u1") (runes "我的任务; DROP TABLE blocks") []
    = (match validateReadOnlySQL asciiTables
               (selectCards ++ clauses ++ orderLimit) with
       | Some e => Err e
       | None => Ok (selectCards ++ clauses ++ orderLimit)
       end,
       [] ++ [DiscoverCatalog;
              Validate (selectCards ++ clauses ++ orderLimit)
                (validateReadOnlySQL asciiTables
                   (selectCards ++ clauses ++ orderLimit))]).
Proof.
  destruct (template_statement_sources asciiTables
              (sampleEnv (runes "chat") []) ragSchemaDDL
              (runes "u1") (runes "我的任务; DROP TABLE blocks") [])
    as (clauses & _ & H).
  - vm_compute. reflexivity.
  - exists clauses. exact H.
Defined.
